(** * FINSULIUM: envelope encryption, record codec and currency rebase

    A shallow embedding of the encryption utilities ([lib/encryption.ts]),
    the transaction services ([lib/services/transactions.ts]), the Zustand
    store ([lib/store.ts]), the currency service
    ([lib/services/currency.ts]) and the rate check of the currency change
    dialog ([components/currency-change-dialog.tsx]), followed by the
    properties the design document states about them.

    JavaScript numbers are IEEE-754 binary64 values: they are modelled by
    Rocq's primitive floats, so every arithmetic step is the one the
    program performs.  The hosted store (Supabase), the Web Crypto API,
    [JSON], [TextEncoder]/[TextDecoder], the random source and the clock
    are collaborators of the program: the store is modelled by finite maps
    with a fault oracle, the others are operations of a [WebPlatform]. *)

From Stdlib Require Import ZArith QArith Floats String Ascii List Lia Bool.
From Stdlib Require Import Strings.Byte DecimalString.
From stdpp Require Import base option list gmap strings fin_maps.

Set Warnings "-inexact-float".
Set Default Proof Using "Type".

Local Open Scope Z_scope.

(** ** JavaScript numbers *)

Module JsNumber.

(** [isNaN(x)] on a value that already is a number. *)
Definition isNaN (x : float) : bool := PrimFloat.is_nan x.

(** ToBoolean on a number: [+0], [-0] and [NaN] are falsy. *)
Definition truthy (x : float) : bool :=
  negb (PrimFloat.is_zero x || PrimFloat.is_nan x).

(** The text [Number.prototype.toFixed] returns, kept structured:
    - [TxtNaN] is ["NaN"];
    - [TxtInfinity neg] is ["Infinity"] or ["-Infinity"];
    - [TxtFixed neg n f] is the optional sign, then the decimal digits of
      [n] with a point before the last [f] of them (padded with zeros on
      the left to [f + 1] digits);
    - [TxtToString x] is [ToString(x)], the branch taken when
      [|x| >= 10^21]. *)
Inductive FixedText : Type :=
| TxtNaN
| TxtInfinity (neg : bool)
| TxtFixed (neg : bool) (n : Z) (f : Z)
| TxtToString (x : float).

(** [at_least_1e21 m e]: the magnitude [m * 2^e] is at least [10^21]
    (step 10 of toFixed). *)
Definition at_least_1e21 (m : positive) (e : Z) : bool :=
  if 0 <=? e then 10 ^ 21 <=? Zpos m * 2 ^ e
  else 10 ^ 21 * 2 ^ (- e) <=? Zpos m.

(** Step 11a of toFixed for the magnitude [m * 2^e]: the integer [n] for
    which [n / 10^f - x] is as close to zero as possible, the larger one
    when there are two. *)
Definition nearest_scaled (f : Z) (m : positive) (e : Z) : Z :=
  if 0 <=? e then 10 ^ f * Zpos m * 2 ^ e
  else (2 * 10 ^ f * Zpos m + 2 ^ (- e)) / 2 ^ (- e + 1).

(** [x.toFixed(f)] for [0 <= f <= 100]. *)
Definition toFixed (x : float) (f : Z) : FixedText :=
  match Prim2SF x with
  | S754_nan => TxtNaN
  | S754_infinity neg => TxtInfinity neg
  | S754_zero _ => TxtFixed false 0 f
  | S754_finite neg m e =>
      if at_least_1e21 m e then TxtToString x
      else TxtFixed neg (nearest_scaled f m e) f
  end.

(** The binary64 value nearest to [n / 10^f] (ties to even), signed. *)
Definition nearest_double (neg : bool) (n : Z) (f : Z) : float :=
  match n with
  | Zpos p =>
      SF2Prim (SFdiv prec emax (S754_finite neg p 0)
                 (S754_finite false (Z.to_pos (10 ^ f)) 0))
  | _ => SF2Prim (S754_zero neg)
  end.

(** [Number(text)] on the texts [toFixed] produces: the decimal literal
    is rounded to the nearest double, ["NaN"] and the infinities denote
    themselves, and [Number(ToString(x))] is [x]. *)
Definition Number (t : FixedText) : float :=
  match t with
  | TxtNaN => nan
  | TxtInfinity neg => if neg then neg_infinity else infinity
  | TxtFixed neg n f => nearest_double neg n f
  | TxtToString x => x
  end.

(** The exact rational magnitude [m * 2^e] of a finite float. *)
Definition magnitude (m : positive) (e : Z) : Q :=
  if 0 <=? e then inject_Z (Zpos m * 2 ^ e)
  else Zpos m # Z.to_pos (2 ^ (- e)).

(** The decimal digits of a natural number, and a run of zeros. *)
Definition digits (n : N) : string :=
  DecimalString.NilZero.string_of_uint (N.to_uint n).

Fixpoint zeros (n : nat) : string :=
  match n with
  | O => EmptyString
  | S k => String "0" (zeros k)
  end.

(** The characters of a [FixedText], but for [ToString(x)]. *)
Definition text (t : FixedText) : option string :=
  match t with
  | TxtNaN => Some "NaN"%string
  | TxtInfinity neg =>
      Some (if neg then "-Infinity" else "Infinity")%string
  | TxtFixed neg n f =>
      let f := Z.to_nat f in
      let d := digits (Z.to_N n) in
      let d := String.append (zeros (S f - String.length d)) d in
      let k := (String.length d - f)%nat in
      let body :=
        match f with
        | O => d
        | _ =>
            String.append (String.substring 0 k d)
              (String "." (String.substring k f d))
        end in
      Some (if neg then String "-" body else body)
  | TxtToString _ => None
  end.

End JsNumber.

(** ** Base64: [btoa], [atob] and the two buffer helpers *)

Module Base64.

Local Open Scope N_scope.

Definition alphabet : string :=
  "ABCDEFGHIJKLMNOPQRSTUVWXYZabcdefghijklmnopqrstuvwxyz0123456789+/".

(** The character of a six-bit group. *)
Definition encode_sextet (i : N) : ascii :=
  match String.get (N.to_nat i) alphabet with
  | Some c => c
  | None => "="%char
  end.

(** The six-bit group of a character of the alphabet. *)
Definition decode_char (c : ascii) : option N :=
  let n := N_of_ascii c in
  if (65 <=? n) && (n <=? 90) then Some (n - 65)
  else if (97 <=? n) && (n <=? 122) then Some (n - 71)
  else if (48 <=? n) && (n <=? 57) then Some (n + 4)
  else if n =? 43 then Some 62
  else if n =? 47 then Some 63
  else None.

(** Bytes to six-bit groups, three bytes at a time; a last group of one
    or two bytes is completed with zero bits. *)
Fixpoint to_sextets (bs : list ascii) : list N :=
  match bs with
  | [] => []
  | [a] =>
      let a := N_of_ascii a in
      [a / 4; (a mod 4) * 16]
  | [a; b] =>
      let a := N_of_ascii a in
      let b := N_of_ascii b in
      [a / 4; (a mod 4) * 16 + b / 16; (b mod 16) * 4]
  | a :: b :: c :: rest =>
      let a := N_of_ascii a in
      let b := N_of_ascii b in
      let c := N_of_ascii c in
      a / 4 :: (a mod 4) * 16 + b / 16 :: (b mod 16) * 4 + c / 64
        :: c mod 64 :: to_sextets rest
  end%N.

Definition padding (len : nat) : list ascii :=
  match (len mod 3)%nat with
  | 1%nat => ["="; "="]%char
  | 2%nat => ["="]%char
  | _ => []
  end.

(** [btoa(binary)]: every character of a Rocq string is a code unit
    below 256, so the call never throws. *)
Definition btoa (binary : string) : string :=
  let bs := list_ascii_of_string binary in
  string_of_list_ascii
    (map encode_sextet (to_sextets bs) ++ padding (length bs)).

(** ASCII whitespace: TAB, LF, FF, CR and SPACE. *)
Definition is_whitespace (c : ascii) : bool :=
  let n := N_of_ascii c in
  (n =? 9) || (n =? 10) || (n =? 12) || (n =? 13) || (n =? 32).

(** When the length is a multiple of four, one or two final [=] are
    removed. *)
Definition drop_padding (cs : list ascii) : list ascii :=
  if (length cs mod 4 =? 0)%nat then
    match rev cs with
    | "="%char :: "="%char :: r => rev r
    | "="%char :: r => rev r
    | _ => cs
    end
  else cs.

Fixpoint sextets_of (cs : list ascii) : option (list N) :=
  match cs with
  | [] => Some []
  | c :: rest =>
      match decode_char c, sextets_of rest with
      | Some i, Some l => Some (i :: l)
      | _, _ => None
      end
  end.

(** Six-bit groups to bytes, four groups at a time; of a last group of
    two (three) the last four (two) bits are discarded. *)
Fixpoint of_sextets (l : list N) : list ascii :=
  match l with
  | s1 :: s2 :: s3 :: s4 :: rest =>
      ascii_of_N (s1 * 4 + s2 / 16)
        :: ascii_of_N ((s2 mod 16) * 16 + s3 / 4)
        :: ascii_of_N ((s3 mod 4) * 64 + s4) :: of_sextets rest
  | [s1; s2; s3] =>
      [ascii_of_N (s1 * 4 + s2 / 16);
       ascii_of_N ((s2 mod 16) * 16 + s3 / 4)]
  | [s1; s2] => [ascii_of_N (s1 * 4 + s2 / 16)]
  | _ => []
  end%N.

(** [atob(text)], the forgiving-base64 decoding of the platform; [None]
    is the [InvalidCharacterError] it throws. *)
Definition atob (text : string) : option string :=
  let data :=
    drop_padding
      (filter (fun c => negb (is_whitespace c)) (list_ascii_of_string text)) in
  if (length data mod 4 =? 1)%nat then None
  else
    match sextets_of data with
    | Some l => Some (string_of_list_ascii (of_sextets l))
    | None => None
    end.

(** [arrayBufferToBase64]: one character per byte, then [btoa]. *)
Definition arrayBufferToBase64 (buffer : list byte) : string :=
  btoa (string_of_list_byte buffer).

(** [base64ToArrayBuffer]: [atob], then one byte per character. *)
Definition base64ToArrayBuffer (base64 : string) : option (list byte) :=
  match atob base64 with
  | Some binaryString => Some (list_byte_of_string binaryString)
  | None => None
  end.

End Base64.

(** ** JavaScript strings

    A string is the sequence of its code units; the strings here hold
    code units below 256. *)

Module JsString.

(** The WhiteSpace and LineTerminator code units below 256: TAB, LF, VT,
    FF, CR, SP and NBSP. *)
Definition is_white (c : ascii) : bool :=
  match N_of_ascii c with
  | 9 | 10 | 11 | 12 | 13 | 32 | 160 => true
  | _ => false
  end%N.

Fixpoint trimStart (s : string) : string :=
  match s with
  | EmptyString => EmptyString
  | String c rest => if is_white c then trimStart rest else s
  end.

Definition reverse (s : string) : string :=
  string_of_list_ascii (rev (list_ascii_of_string s)).

Definition trimEnd (s : string) : string :=
  reverse (trimStart (reverse s)).

(** [s.trim()]. *)
Definition trim (s : string) : string := trimEnd (trimStart s).

(** [s.includes(c)] for a one-character [c]. *)
Fixpoint includes (s : string) (c : ascii) : bool :=
  match s with
  | EmptyString => false
  | String x rest => Ascii.eqb x c || includes rest c
  end.

(** [s.split(c)] for a one-character separator: the pieces between the
    separators, at least one. *)
Fixpoint split (c : ascii) (s : string) : list string :=
  match s with
  | EmptyString => [EmptyString]
  | String x rest =>
      if Ascii.eqb x c then EmptyString :: split c rest
      else match split c rest with
           | piece :: pieces => String x piece :: pieces
           | [] => [String x EmptyString]
           end
  end.

(** [pieces.join(sep)]. *)
Fixpoint join (sep : string) (pieces : list string) : string :=
  match pieces with
  | [] => EmptyString
  | [piece] => piece
  | piece :: rest => String.append piece (String.append sep (join sep rest))
  end.

End JsString.

(** ** Completions and the platform *)

(** What a JavaScript call can throw here. *)
Inductive JsError : Type :=
| InvalidCharacterError          (* DOMException of atob *)
| OperationError                 (* DOMException of crypto.subtle.decrypt *)
| SyntaxError                    (* JSON.parse *)
| PostgrestError (message : string)   (* the store's error object, rethrown *)
| Error (message : string).      (* new Error(message) *)

Inductive Completion (A : Type) : Type :=
| Normal (value : A)
| Throw (e : JsError).

Arguments Normal {A} value.
Arguments Throw {A} e.

(** The operations of the browser the encryption utilities call.
    [subtle_encrypt key iv data] is [crypto.subtle.encrypt] under AES-GCM
    (ciphertext followed by the tag); [subtle_decrypt] is
    [crypto.subtle.decrypt], [None] when it rejects. *)
Class WebPlatform : Type := {
  CryptoKey : Type;
  subtle_encrypt : CryptoKey -> list byte -> list byte -> list byte;
  subtle_decrypt : CryptoKey -> list byte -> list byte -> option (list byte);
  TextEncoder_encode : string -> list byte;
  TextDecoder_decode : list byte -> string
}.

(** [JSON.stringify] and [JSON.parse] at the type of the values a caller
    encrypts; [JSON_parse] is [None] when it throws. *)
Class Json (A : Type) : Type := {
  JSON_stringify : A -> string;
  JSON_parse : string -> option A
}.

(** [window.crypto.getRandomValues]: a source of bytes and the number of
    bytes drawn so far. *)
Record Rng : Type := {
  entropy : nat -> byte;
  drawn : nat
}.

Definition getRandomValues (n : nat) (g : Rng) : list byte * Rng :=
  (map (entropy g) (seq (drawn g) n),
   {| entropy := entropy g; drawn := (drawn g + n)%nat |}).

(** ** lib/encryption.ts *)

Definition KEY_LENGTH : N := 256%N.
Definition PBKDF2_ITERATIONS : N := 100000%N.
Definition SALT_LENGTH : nat := 16.
Definition IV_LENGTH : nat := 12.

Record EncryptedEnvelope : Type := {
  encrypted_data : string;
  iv : string
}.

Section Envelope.

Context `{WP : WebPlatform} {A : Type} `{JA : Json A}.

(** [encrypt(data, key)]. *)
Definition encrypt (data : A) (key : CryptoKey) (g : Rng)
  : EncryptedEnvelope * Rng :=
  let '(iv, g') := getRandomValues IV_LENGTH g in
  let encodedData := TextEncoder_encode (JSON_stringify data) in
  let encryptedBuffer := subtle_encrypt key iv encodedData in
  ({| encrypted_data := Base64.arrayBufferToBase64 encryptedBuffer;
      iv := Base64.arrayBufferToBase64 iv |}, g').

(** [decrypt(encryptedData, iv, key)]. *)
Definition decrypt (encryptedData : string) (iv : string) (key : CryptoKey)
  : Completion A :=
  match Base64.base64ToArrayBuffer encryptedData with
  | None => Throw InvalidCharacterError
  | Some encryptedBuffer =>
      match Base64.base64ToArrayBuffer iv with
      | None => Throw InvalidCharacterError
      | Some ivBuffer =>
          match subtle_decrypt key ivBuffer encryptedBuffer with
          | None => Throw OperationError
          | Some decryptedBuffer =>
              let decryptedText := TextDecoder_decode decryptedBuffer in
              match JSON_parse decryptedText with
              | Some value => Normal value
              | None => Throw SyntaxError
              end
          end
      end
  end.

End Envelope.

(** ** lib/types.ts *)

Inductive TransactionType : Type := income | expense.

Inductive MoodType : Type := happy | necessary | impulse | regret.

Record Category : Type := {
  cat_id : string;
  cat_name : string;
  cat_icon : string;
  cat_color : string;
  cat_type : TransactionType;
  cat_created_at : string
}.

(** [interface Transaction]. *)
Record Transaction : Type := {
  id : string;
  amount : float;
  type : TransactionType;
  date : string;
  category_id : string;
  category : option Category;
  description : option string;
  mood : option MoodType;
  tags : list string;
  notes : option string;
  created_at : string;
  updated_at : string;
  user_id : option string
}.

(** [Omit<Transaction, 'id' | 'created_at' | 'updated_at'>]. *)
Record NewTransaction : Type := {
  new_amount : float;
  new_type : TransactionType;
  new_date : string;
  new_category_id : string;
  new_category : option Category;
  new_description : option string;
  new_mood : option MoodType;
  new_tags : list string;
  new_notes : option string;
  new_user_id : option string
}.

(** [Partial<Transaction>]: every property may be absent. *)
Record PartialTransaction : Type := {
  upd_id : option string;
  upd_amount : option float;
  upd_type : option TransactionType;
  upd_date : option string;
  upd_category_id : option string;
  upd_category : option Category;
  upd_description : option string;
  upd_mood : option MoodType;
  upd_tags : option (list string);
  upd_notes : option string;
  upd_created_at : option string;
  upd_updated_at : option string;
  upd_user_id : option string
}.

(** The object [{ amount, description, notes }] that is encrypted as one
    JSON text, and what [JSON.parse] gives back; a property that is
    [undefined] is an absent one. *)
Record SensitiveFields : Type := {
  sens_amount : option float;
  sens_description : option string;
  sens_notes : option string
}.

Record UserSettings : Type := {
  us_id : string;
  us_user_id : string;
  us_currency : string;
  us_date_format : string;
  us_theme : string;
  us_encryption_enabled : bool;
  us_encryption_type : option string;
  us_ai_enabled : bool;
  us_created_at : string;
  us_updated_at : string
}.

Record SupabaseCredentials : Type := {
  url : string;
  anonKey : string
}.

Inductive EncryptionType : Type := password | random_key.

(** [interface EncryptionConfig]; [key] is the optional property the type
    declares. *)
Record EncryptionConfig `{WP : WebPlatform} : Type := {
  enabled : bool;
  enc_type : EncryptionType;
  key : option CryptoKey
}.

(** ** The hosted store *)

(** A row of the [transactions] table as the store returns it; the
    sensitive columns and the envelope columns are nullable.
    [row_category] is the joined category a select may add. *)
Record Row : Type := {
  row_id : string;
  row_type : TransactionType;
  row_date : string;
  row_category_id : option string;
  row_mood : option MoodType;
  row_tags : list string;
  row_amount : option float;
  row_description : option string;
  row_notes : option string;
  row_encrypted_data : option string;
  row_iv : option string;
  row_created_at : string;
  row_updated_at : string;
  row_category : option Category
}.

(** The object passed to [insert] or [update]: the columns it names. *)
Record Payload : Type := {
  set_type : option TransactionType;
  set_date : option string;
  set_category_id : option string;
  set_mood : option MoodType;
  set_tags : option (list string);
  set_amount : option float;
  set_description : option string;
  set_notes : option string;
  set_encrypted_data : option string;
  set_iv : option string;
  set_updated_at : option string
}.

Definition empty_payload : Payload :=
  {| set_type := None; set_date := None; set_category_id := None;
     set_mood := None; set_tags := None; set_amount := None;
     set_description := None; set_notes := None;
     set_encrypted_data := None; set_iv := None; set_updated_at := None |}.

(** A row of [user_settings]; [default_currency] is the column the
    currency service writes. *)
Record SettingsRow : Type := {
  sr_default_currency : string;
  sr_updated_at : string
}.

Record Tag : Type := {
  tag_id : string;
  tag_name : string;
  tag_color : option string;
  tag_created_at : string
}.

Record Goal : Type := {
  goal_id : string;
  goal_name : string;
  goal_target_amount : float;
  goal_current_amount : float;
  goal_target_date : option string;
  goal_category_id : option string;
  goal_description : option string;
  goal_created_at : string;
  goal_updated_at : string
}.

(** [Partial<Goal>]. *)
Record PartialGoal : Type := {
  pg_id : option string;
  pg_name : option string;
  pg_target_amount : option float;
  pg_current_amount : option float;
  pg_target_date : option string;
  pg_category_id : option string;
  pg_description : option string;
  pg_created_at : option string;
  pg_updated_at : option string
}.

(** [{ ...t, ...updates }]: the properties [updates] has replace those
    of [t]; [None] is a property [updates] does not have. *)
Definition merge_transaction (t : Transaction) (updates : PartialTransaction)
  : Transaction :=
  {| id := default (id t) (upd_id updates);
     amount := default (amount t) (upd_amount updates);
     type := default (type t) (upd_type updates);
     date := default (date t) (upd_date updates);
     category_id := default (category_id t) (upd_category_id updates);
     category := from_option Some (category t) (upd_category updates);
     description := from_option Some (description t) (upd_description updates);
     mood := from_option Some (mood t) (upd_mood updates);
     tags := default (tags t) (upd_tags updates);
     notes := from_option Some (notes t) (upd_notes updates);
     created_at := default (created_at t) (upd_created_at updates);
     updated_at := default (updated_at t) (upd_updated_at updates);
     user_id := from_option Some (user_id t) (upd_user_id updates) |}.

(** [{ ...g, ...updates }]. *)
Definition merge_goal (g : Goal) (updates : PartialGoal) : Goal :=
  {| goal_id := default (goal_id g) (pg_id updates);
     goal_name := default (goal_name g) (pg_name updates);
     goal_target_amount :=
       default (goal_target_amount g) (pg_target_amount updates);
     goal_current_amount :=
       default (goal_current_amount g) (pg_current_amount updates);
     goal_target_date := from_option Some (goal_target_date g) (pg_target_date updates);
     goal_category_id := from_option Some (goal_category_id g) (pg_category_id updates);
     goal_description := from_option Some (goal_description g) (pg_description updates);
     goal_created_at := default (goal_created_at g) (pg_created_at updates);
     goal_updated_at := default (goal_updated_at g) (pg_updated_at updates) |}.

(** ** lib/store.ts *)

Module Store.
Section Store.

Context `{WP : WebPlatform}.

(** The data part of [AppState]; the actions are the functions below. *)
Record AppState : Type := {
  credentials : option SupabaseCredentials;
  encryptionConfig : option EncryptionConfig;
  isOnboarded : bool;
  encryptionKey : option CryptoKey;
  salt : option string;
  transactions : list Transaction;
  categories : list Category;
  tags : list Tag;
  goals : list Goal;
  settings : option UserSettings;
  currency : string;
  isLoading : bool;
  error : option string
}.

Definition initial : AppState :=
  {| credentials := None; encryptionConfig := None; isOnboarded := false;
     encryptionKey := None; salt := None;
     transactions := []; categories := []; tags := []; goals := [];
     currency := "USD"; settings := None;
     isLoading := false; error := None |}.

Definition setCredentials (c : SupabaseCredentials) (s : AppState) : AppState :=
  {| credentials := Some c; encryptionConfig := encryptionConfig s;
     isOnboarded := isOnboarded s; encryptionKey := encryptionKey s;
     salt := salt s; transactions := transactions s;
     categories := categories s; tags := tags s; goals := goals s;
     settings := settings s; currency := currency s;
     isLoading := isLoading s; error := error s |}.

Definition setEncryptionConfig (config : EncryptionConfig) (s : AppState)
  : AppState :=
  {| credentials := credentials s; encryptionConfig := Some config;
     isOnboarded := isOnboarded s; encryptionKey := encryptionKey s;
     salt := salt s; transactions := transactions s;
     categories := categories s; tags := tags s; goals := goals s;
     settings := settings s; currency := currency s;
     isLoading := isLoading s; error := error s |}.

Definition setEncryptionKey (k : option CryptoKey) (s : AppState) : AppState :=
  {| credentials := credentials s; encryptionConfig := encryptionConfig s;
     isOnboarded := isOnboarded s; encryptionKey := k;
     salt := salt s; transactions := transactions s;
     categories := categories s; tags := tags s; goals := goals s;
     settings := settings s; currency := currency s;
     isLoading := isLoading s; error := error s |}.

Definition setSalt (v : option string) (s : AppState) : AppState :=
  {| credentials := credentials s; encryptionConfig := encryptionConfig s;
     isOnboarded := isOnboarded s; encryptionKey := encryptionKey s;
     salt := v; transactions := transactions s;
     categories := categories s; tags := tags s; goals := goals s;
     settings := settings s; currency := currency s;
     isLoading := isLoading s; error := error s |}.

Definition setOnboarded (value : bool) (s : AppState) : AppState :=
  {| credentials := credentials s; encryptionConfig := encryptionConfig s;
     isOnboarded := value; encryptionKey := encryptionKey s;
     salt := salt s; transactions := transactions s;
     categories := categories s; tags := tags s; goals := goals s;
     settings := settings s; currency := currency s;
     isLoading := isLoading s; error := error s |}.

(** [clearCredentials]: the properties the call names are reset; the
    others ([currency], [isLoading], [error]) are kept. *)
Definition clearCredentials (s : AppState) : AppState :=
  {| credentials := None; encryptionConfig := None; isOnboarded := false;
     encryptionKey := None; salt := None;
     transactions := []; categories := []; tags := []; goals := [];
     settings := None;
     currency := currency s; isLoading := isLoading s; error := error s |}.

Definition setTransactions (ts : list Transaction) (s : AppState) : AppState :=
  {| credentials := credentials s; encryptionConfig := encryptionConfig s;
     isOnboarded := isOnboarded s; encryptionKey := encryptionKey s;
     salt := salt s; transactions := ts;
     categories := categories s; tags := tags s; goals := goals s;
     settings := settings s; currency := currency s;
     isLoading := isLoading s; error := error s |}.

Definition addTransaction (t : Transaction) (s : AppState) : AppState :=
  setTransactions (t :: transactions s) s.

Definition setCurrency (c : string) (s : AppState) : AppState :=
  {| credentials := credentials s; encryptionConfig := encryptionConfig s;
     isOnboarded := isOnboarded s; encryptionKey := encryptionKey s;
     salt := salt s; transactions := transactions s;
     categories := categories s; tags := tags s; goals := goals s;
     settings := settings s; currency := c;
     isLoading := isLoading s; error := error s |}.

Definition setSettings (u : UserSettings) (s : AppState) : AppState :=
  {| credentials := credentials s; encryptionConfig := encryptionConfig s;
     isOnboarded := isOnboarded s; encryptionKey := encryptionKey s;
     salt := salt s; transactions := transactions s;
     categories := categories s; tags := tags s; goals := goals s;
     settings := Some u; currency := currency s;
     isLoading := isLoading s; error := error s |}.

(** What [persist] writes under ['finsulium-storage']: the object
    [partialize] returns. *)
Record Persisted : Type := {
  p_credentials : option SupabaseCredentials;
  p_encryptionConfig : option EncryptionConfig;
  p_currency : string;
  p_isOnboarded : bool;
  p_salt : option string
}.

Definition partialize (state : AppState) : Persisted :=
  {| p_credentials := credentials state;
     p_encryptionConfig := encryptionConfig state;
     p_currency := currency state;
     p_isOnboarded := isOnboarded state;
     p_salt := salt state |}.

(** The remaining data and UI actions. *)
Definition setCategories (cs : list Category) (s : AppState) : AppState :=
  {| credentials := credentials s; encryptionConfig := encryptionConfig s;
     isOnboarded := isOnboarded s; encryptionKey := encryptionKey s;
     salt := salt s; transactions := transactions s;
     categories := cs; tags := tags s; goals := goals s;
     settings := settings s; currency := currency s;
     isLoading := isLoading s; error := error s |}.

Definition addCategory (c : Category) (s : AppState) : AppState :=
  setCategories (categories s ++ [c]) s.

Definition setTags (ts : list Tag) (s : AppState) : AppState :=
  {| credentials := credentials s; encryptionConfig := encryptionConfig s;
     isOnboarded := isOnboarded s; encryptionKey := encryptionKey s;
     salt := salt s; transactions := transactions s;
     categories := categories s; tags := ts; goals := goals s;
     settings := settings s; currency := currency s;
     isLoading := isLoading s; error := error s |}.

Definition addTag (t : Tag) (s : AppState) : AppState :=
  setTags (tags s ++ [t]) s.

Definition setGoals (gs : list Goal) (s : AppState) : AppState :=
  {| credentials := credentials s; encryptionConfig := encryptionConfig s;
     isOnboarded := isOnboarded s; encryptionKey := encryptionKey s;
     salt := salt s; transactions := transactions s;
     categories := categories s; tags := tags s; goals := gs;
     settings := settings s; currency := currency s;
     isLoading := isLoading s; error := error s |}.

Definition addGoal (g : Goal) (s : AppState) : AppState :=
  setGoals (goals s ++ [g]) s.

Definition setLoading (loading : bool) (s : AppState) : AppState :=
  {| credentials := credentials s; encryptionConfig := encryptionConfig s;
     isOnboarded := isOnboarded s; encryptionKey := encryptionKey s;
     salt := salt s; transactions := transactions s;
     categories := categories s; tags := tags s; goals := goals s;
     settings := settings s; currency := currency s;
     isLoading := loading; error := error s |}.

Definition setError (e : option string) (s : AppState) : AppState :=
  {| credentials := credentials s; encryptionConfig := encryptionConfig s;
     isOnboarded := isOnboarded s; encryptionKey := encryptionKey s;
     salt := salt s; transactions := transactions s;
     categories := categories s; tags := tags s; goals := goals s;
     settings := settings s; currency := currency s;
     isLoading := isLoading s; error := e |}.

Definition updateTransaction (i : string) (updates : PartialTransaction)
    (s : AppState) : AppState :=
  setTransactions
    (map (fun t => if String.eqb (id t) i then merge_transaction t updates
                   else t)
       (transactions s)) s.

Definition deleteTransaction (i : string) (s : AppState) : AppState :=
  setTransactions
    (List.filter (fun t => negb (String.eqb (id t) i)) (transactions s)) s.

Definition updateGoal (i : string) (updates : PartialGoal) (s : AppState)
  : AppState :=
  setGoals
    (map (fun g => if String.eqb (goal_id g) i then merge_goal g updates
                   else g)
       (goals s)) s.

Definition deleteGoal (i : string) (s : AppState) : AppState :=
  setGoals
    (List.filter (fun g => negb (String.eqb (goal_id g) i)) (goals s)) s.

(** The actions of the store, and what calling one does to the state. *)
Inductive Action : Type :=
| SetCredentials (c : SupabaseCredentials)
| SetEncryptionConfig (config : EncryptionConfig)
| SetEncryptionKey (k : option CryptoKey)
| SetSalt (v : option string)
| SetOnboarded (value : bool)
| ClearCredentials
| SetTransactions (ts : list Transaction)
| AddTransaction (t : Transaction)
| UpdateTransaction (i : string) (updates : PartialTransaction)
| DeleteTransaction (i : string)
| SetCategories (cs : list Category)
| AddCategory (c : Category)
| SetTags (ts : list Tag)
| AddTag (t : Tag)
| SetGoals (gs : list Goal)
| AddGoal (g : Goal)
| UpdateGoal (i : string) (updates : PartialGoal)
| DeleteGoal (i : string)
| SetCurrency (c : string)
| SetSettings (u : UserSettings)
| SetLoading (loading : bool)
| SetError (e : option string).

Definition dispatch (a : Action) : AppState -> AppState :=
  match a with
  | SetCredentials c => setCredentials c
  | SetEncryptionConfig config => setEncryptionConfig config
  | SetEncryptionKey k => setEncryptionKey k
  | SetSalt v => setSalt v
  | SetOnboarded value => setOnboarded value
  | ClearCredentials => clearCredentials
  | SetTransactions ts => setTransactions ts
  | AddTransaction t => addTransaction t
  | UpdateTransaction i updates => updateTransaction i updates
  | DeleteTransaction i => deleteTransaction i
  | SetCategories cs => setCategories cs
  | AddCategory c => addCategory c
  | SetTags ts => setTags ts
  | AddTag t => addTag t
  | SetGoals gs => setGoals gs
  | AddGoal g => addGoal g
  | UpdateGoal i updates => updateGoal i updates
  | DeleteGoal i => deleteGoal i
  | SetCurrency c => setCurrency c
  | SetSettings u => setSettings u
  | SetLoading loading => setLoading loading
  | SetError e => setError e
  end.

(** The state when the page is loaded again: the initial state with
    the persisted properties in it ([persist] merges what it stored). *)
Definition rehydrate (saved : Persisted) : AppState :=
  {| credentials := p_credentials saved;
     encryptionConfig := p_encryptionConfig saved;
     isOnboarded := p_isOnboarded saved;
     encryptionKey := encryptionKey initial;
     salt := p_salt saved;
     transactions := transactions initial;
     categories := categories initial; tags := tags initial;
     goals := goals initial; settings := settings initial;
     currency := p_currency saved;
     isLoading := isLoading initial; error := error initial |}.

(** The actions that set a property [partialize] keeps, and the ones
    that set [encryptionKey]. *)
Definition sets_persisted (a : Action) : bool :=
  match a with
  | SetCredentials _ | SetEncryptionConfig _ | SetSalt _ | SetOnboarded _
  | ClearCredentials | SetCurrency _ => true
  | _ => false
  end.

Definition sets_key (a : Action) : bool :=
  match a with
  | SetEncryptionKey _ | ClearCredentials => true
  | _ => false
  end.

End Store.
End Store.

(** ** The store client *)

(** The requests the services send. *)
Inductive Request : Type :=
| SelectTransactions
| InsertTransaction (payload : Payload)
| SelectTransaction (id : string)
| UpdateTransaction (id : string) (payload : Payload) (returning : bool)
| UpdateUserSettings (id : option string) (default_currency : string)
    (updated_at : string).

Definition is_transaction_write (r : Request) : bool :=
  match r with
  | InsertTransaction _ | UpdateTransaction _ _ _ => true
  | _ => false
  end.

Definition is_write (r : Request) : bool :=
  match r with
  | InsertTransaction _ | UpdateTransaction _ _ _
  | UpdateUserSettings _ _ _ => true
  | _ => false
  end.

(** The tables, and the values the store generates for the n-th insert
    (its uuid, its [NOW()] and its [CURRENT_DATE]). *)
Record Supabase : Type := {
  transactions_table : gmap string Row;
  categories_table : gmap string Category;
  user_settings_table : gmap string SettingsRow;
  generated : nat -> string * string * string;
  inserted : nat
}.

Definition override {A : Type} (new old : option A) : option A :=
  match new with
  | Some _ => new
  | None => old
  end.

(** An update sets the columns the payload names and leaves the others. *)
Definition apply_payload (p : Payload) (r : Row) : Row :=
  {| row_id := row_id r;
     row_type := default (row_type r) (set_type p);
     row_date := default (row_date r) (set_date p);
     row_category_id := override (set_category_id p) (row_category_id r);
     row_mood := override (set_mood p) (row_mood r);
     row_tags := default (row_tags r) (set_tags p);
     row_amount := override (set_amount p) (row_amount r);
     row_description := override (set_description p) (row_description r);
     row_notes := override (set_notes p) (row_notes r);
     row_encrypted_data := override (set_encrypted_data p) (row_encrypted_data r);
     row_iv := override (set_iv p) (row_iv r);
     row_created_at := row_created_at r;
     row_updated_at := default (row_updated_at r) (set_updated_at p);
     row_category := row_category r |}.

(** The row an insert stores: the payload's columns, the generated id and
    timestamps, and the defaults of the schema. *)
Definition new_row (gen : string * string * string) (t : TransactionType)
    (p : Payload) : Row :=
  let '(uuid, now, today) := gen in
  {| row_id := uuid;
     row_type := t;
     row_date := default today (set_date p);
     row_category_id := set_category_id p;
     row_mood := set_mood p;
     row_tags := default [] (set_tags p);
     row_amount := set_amount p;
     row_description := set_description p;
     row_notes := set_notes p;
     row_encrypted_data := set_encrypted_data p;
     row_iv := set_iv p;
     row_created_at := now;
     row_updated_at := default now (set_updated_at p);
     row_category := None |}.

Definition with_category (cats : gmap string Category) (r : Row) : Row :=
  {| row_id := row_id r; row_type := row_type r; row_date := row_date r;
     row_category_id := row_category_id r; row_mood := row_mood r;
     row_tags := row_tags r; row_amount := row_amount r;
     row_description := row_description r; row_notes := row_notes r;
     row_encrypted_data := row_encrypted_data r; row_iv := row_iv r;
     row_created_at := row_created_at r; row_updated_at := row_updated_at r;
     row_category := row_category_id r ≫= (fun c => cats !! c) |}.

(** [.order('date', { ascending: false })]. *)
Fixpoint insert_by_date (r : Row) (l : list Row) : list Row :=
  match l with
  | [] => [r]
  | x :: rest =>
      if String.leb (row_date x) (row_date r) then r :: l
      else x :: insert_by_date r rest
  end.

Definition order_by_date_desc (l : list Row) : list Row :=
  foldr insert_by_date [] l.

Definition set_transactions_table (t : gmap string Row) (db : Supabase)
  : Supabase :=
  {| transactions_table := t; categories_table := categories_table db;
     user_settings_table := user_settings_table db;
     generated := generated db; inserted := inserted db |}.

Definition set_user_settings_table (t : gmap string SettingsRow)
    (db : Supabase) : Supabase :=
  {| transactions_table := transactions_table db;
     categories_table := categories_table db;
     user_settings_table := t;
     generated := generated db; inserted := inserted db |}.

(** The rows a select returns: the table's rows, each with its joined
    category, by date. *)
Definition selected (db : Supabase) : list Row :=
  order_by_date_desc
    (with_category (categories_table db)
       <$> (map_to_list (transactions_table db)).*2).

(** What a request answers: [{ data, error }]. *)
Inductive Response : Type :=
| Failed (message : string)
| NoData
| OneRow (data : Row)
| Rows (data : list Row).

(** The effect of a request the store accepts. *)
Definition serve (r : Request) (db : Supabase) : Response * Supabase :=
  match r with
  | SelectTransactions =>
      (Rows (selected db), db)
  | SelectTransaction id =>
      match transactions_table db !! id with
      | Some row => (OneRow row, db)
      | None => (Failed "JSON object requested, multiple (or no) rows returned", db)
      end
  | InsertTransaction p =>
      match set_type p with
      | None => (Failed "null value in column type", db)
      | Some t =>
          let row := new_row (generated db (inserted db)) t p in
          match transactions_table db !! row_id row with
          | Some _ => (Failed "duplicate key value", db)
          | None =>
              (OneRow row,
               {| transactions_table := <[row_id row := row]> (transactions_table db);
                  categories_table := categories_table db;
                  user_settings_table := user_settings_table db;
                  generated := generated db;
                  inserted := S (inserted db) |})
          end
      end
  | UpdateTransaction id p returning =>
      let db' :=
        set_transactions_table
          (alter (apply_payload p) id (transactions_table db)) db in
      if returning then
        match transactions_table db' !! id with
        | Some row => (OneRow row, db')
        | None =>
            (Failed "JSON object requested, multiple (or no) rows returned", db')
        end
      else (NoData, db')
  | UpdateUserSettings id c now =>
      match id with
      | Some i =>
          (NoData,
           set_user_settings_table
             (alter (fun _ => {| sr_default_currency := c; sr_updated_at := now |})
                i (user_settings_table db)) db)
      | None => (NoData, db)
      end
  end.

(** ** The world a service runs in *)

Section Services.

Context `{WP : WebPlatform} `{JS : Json SensitiveFields}.

(** The hosted store, the requests sent so far (oldest first), the
    requests the store or the network will fail (with the error
    message), the random source, the clock ([clock n] is the n-th
    reading of [new Date().toISOString()]) and the Zustand store. *)
Record World : Type := {
  remote : Supabase;
  sent : list Request;
  fault : Request -> option string;
  rng : Rng;
  clock : nat -> string;
  readings : nat;
  app : Store.AppState
}.

Definition M (A : Type) : Type := World -> Completion A * World.

Definition ret {A : Type} (a : A) : M A := fun w => (Normal a, w).

Definition throw {A : Type} (e : JsError) : M A := fun w => (Throw e, w).

Definition bind {A B : Type} (m : M A) (k : A -> M B) : M B :=
  fun w =>
    match m w with
    | (Normal a, w') => k a w'
    | (Throw e, w') => (Throw e, w')
    end.

Notation "'let*' x ':=' m 'in' k" := (bind m (fun x => k))
  (at level 10, x pattern, m at level 100, k at level 200).

(** Awaiting a request: it is recorded, and either fails or is served. *)
Definition request (r : Request) : M Response :=
  fun w =>
    match fault w r with
    | Some message =>
        (Normal (Failed message),
         {| remote := remote w; sent := sent w ++ [r]; fault := fault w;
            rng := rng w; clock := clock w; readings := readings w;
            app := app w |})
    | None =>
        let '(resp, db) := serve r (remote w) in
        (Normal resp,
         {| remote := db; sent := sent w ++ [r]; fault := fault w;
            rng := rng w; clock := clock w; readings := readings w;
            app := app w |})
    end.

(** [new Date().toISOString()]. *)
Definition Date_toISOString : M string :=
  fun w =>
    (Normal (clock w (readings w)),
     {| remote := remote w; sent := sent w; fault := fault w;
        rng := rng w; clock := clock w; readings := S (readings w);
        app := app w |}).

(** [useStore.getState()] and the store's [set]. *)
Definition getState : M Store.AppState := fun w => (Normal (app w), w).

Definition setState (f : Store.AppState -> Store.AppState) : M unit :=
  fun w =>
    (Normal tt,
     {| remote := remote w; sent := sent w; fault := fault w;
        rng := rng w; clock := clock w; readings := readings w;
        app := f (app w) |}).

Definition with_rng {A : Type} (f : Rng -> A * Rng) : M A :=
  fun w =>
    let '(a, g) := f (rng w) in
    (Normal a,
     {| remote := remote w; sent := sent w; fault := fault w;
        rng := g; clock := clock w; readings := readings w;
        app := app w |}).

Definition lift {A : Type} (c : Completion A) : M A := fun w => (c, w).

(** [Promise.all(list.map(f))] where a rejection of [f] rejects the
    whole: the calls run in the order of the list. *)
Fixpoint all {A B : Type} (f : A -> M B) (l : list A) : M (list B) :=
  match l with
  | [] => ret []
  | x :: rest =>
      let* y := f x in
      let* ys := all f rest in
      ret (y :: ys)
  end.

(** ** lib/encryption.ts, continued *)

Definition encryptTransaction (transaction : SensitiveFields)
    (key : CryptoKey) : M EncryptedEnvelope :=
  with_rng (encrypt transaction key).

Definition decryptTransaction (encrypted_data iv : string) (key : CryptoKey)
  : M SensitiveFields :=
  lift (decrypt encrypted_data iv key).

(** ToBoolean on an optional string: [undefined], [null] and [""] are
    falsy. *)
Definition truthy_string (s : option string) : bool :=
  match s with
  | Some v => negb (String.eqb v "")
  | None => false
  end.

Definition truthy_number (x : option float) : bool :=
  match x with
  | Some v => JsNumber.truthy v
  | None => false
  end.

(** ** lib/services/transactions.ts *)

(** [{ ...t, amount, description, notes }]. *)
Definition with_sensitive (t : Row) (a : option float)
    (d n : option string) : Row :=
  {| row_id := row_id t; row_type := row_type t; row_date := row_date t;
     row_category_id := row_category_id t; row_mood := row_mood t;
     row_tags := row_tags t;
     row_amount := a; row_description := d; row_notes := n;
     row_encrypted_data := row_encrypted_data t; row_iv := row_iv t;
     row_created_at := row_created_at t; row_updated_at := row_updated_at t;
     row_category := row_category t |}.

(** [fetchTransactions(encryptionKey)]. *)
Definition fetchTransactions (encryptionKey : option CryptoKey)
  : M (list Row) :=
  let* resp := request SelectTransactions in
  match resp with
  | Failed message => throw (PostgrestError message)
  | Rows data =>
      match encryptionKey with
      | Some k =>
          all (fun t =>
                 if truthy_string (row_encrypted_data t)
                    && truthy_string (row_iv t)
                 then
                   let* decrypted :=
                     decryptTransaction (default "" (row_encrypted_data t))
                       (default "" (row_iv t)) k in
                   ret (with_sensitive t (sens_amount decrypted)
                          (sens_description decrypted)
                          (sens_notes decrypted))
                 else ret t) data
      | None => ret data
      end
  | _ => ret []
  end.

(** [createTransaction(transaction, encryptionKey)]. *)
Definition createTransaction (transaction : NewTransaction)
    (encryptionKey : option CryptoKey) : M Row :=
  let dataToInsert :=
    {| set_type := Some (new_type transaction);
       set_date := Some (new_date transaction);
       set_category_id := Some (new_category_id transaction);
       set_mood := new_mood transaction;
       set_tags := Some (new_tags transaction);
       set_amount := None; set_description := None; set_notes := None;
       set_encrypted_data := None; set_iv := None;
       set_updated_at := None |} in
  let* dataToInsert :=
    match encryptionKey with
    | Some k =>
        let* envelope :=
          encryptTransaction
            {| sens_amount := Some (new_amount transaction);
               sens_description := new_description transaction;
               sens_notes := new_notes transaction |} k in
        ret {| set_type := set_type dataToInsert;
               set_date := set_date dataToInsert;
               set_category_id := set_category_id dataToInsert;
               set_mood := set_mood dataToInsert;
               set_tags := set_tags dataToInsert;
               set_amount := None; set_description := None;
               set_notes := None;
               set_encrypted_data := Some (encrypted_data envelope);
               set_iv := Some (iv envelope);
               set_updated_at := None |}
    | None =>
        ret {| set_type := set_type dataToInsert;
               set_date := set_date dataToInsert;
               set_category_id := set_category_id dataToInsert;
               set_mood := set_mood dataToInsert;
               set_tags := set_tags dataToInsert;
               set_amount := Some (new_amount transaction);
               set_description := new_description transaction;
               set_notes := new_notes transaction;
               set_encrypted_data := None; set_iv := None;
               set_updated_at := None |}
    end in
  let* resp := request (InsertTransaction dataToInsert) in
  match resp with
  | Failed message => throw (PostgrestError message)
  | OneRow data =>
      ret (with_sensitive data (Some (new_amount transaction))
             (new_description transaction) (new_notes transaction))
  | _ => throw (Error "no data")
  end.

(** The non-encrypted properties [updateTransaction] copies: each one
    only when it is truthy. *)
Definition plain_updates (updates : PartialTransaction) : Payload :=
  {| set_type := upd_type updates;
     set_date := if truthy_string (upd_date updates)
                 then upd_date updates else None;
     set_category_id := if truthy_string (upd_category_id updates)
                        then upd_category_id updates else None;
     set_mood := upd_mood updates;
     set_tags := upd_tags updates;
     set_amount := None; set_description := None; set_notes := None;
     set_encrypted_data := None; set_iv := None; set_updated_at := None |}.

Definition add_envelope (p : Payload) (e : EncryptedEnvelope) : Payload :=
  {| set_type := set_type p; set_date := set_date p;
     set_category_id := set_category_id p; set_mood := set_mood p;
     set_tags := set_tags p;
     set_amount := set_amount p; set_description := set_description p;
     set_notes := set_notes p;
     set_encrypted_data := Some (encrypted_data e);
     set_iv := Some (iv e);
     set_updated_at := set_updated_at p |}.

Definition add_clear (p : Payload) (updates : PartialTransaction) : Payload :=
  {| set_type := set_type p; set_date := set_date p;
     set_category_id := set_category_id p; set_mood := set_mood p;
     set_tags := set_tags p;
     set_amount := override (upd_amount updates) (set_amount p);
     set_description := override (upd_description updates) (set_description p);
     set_notes := override (upd_notes updates) (set_notes p);
     set_encrypted_data := set_encrypted_data p; set_iv := set_iv p;
     set_updated_at := set_updated_at p |}.

(** [updateTransaction(id, updates, encryptionKey)]. *)
Definition updateTransaction (id : string) (updates : PartialTransaction)
    (encryptionKey : option CryptoKey) : M Row :=
  let dataToUpdate := plain_updates updates in
  let* dataToUpdate :=
    match encryptionKey with
    | Some k =>
        if truthy_number (upd_amount updates)
           || truthy_string (upd_description updates)
           || truthy_string (upd_notes updates)
        then
          let* resp := request (SelectTransaction id) in
          match resp with
          | OneRow current =>
              let* currentData :=
                if truthy_string (row_encrypted_data current)
                   && truthy_string (row_iv current)
                then
                  let* decrypted :=
                    decryptTransaction
                      (default "" (row_encrypted_data current))
                      (default "" (row_iv current)) k in
                  ret (default 0%float (sens_amount decrypted),
                       default "" (sens_description decrypted),
                       default "" (sens_notes decrypted))
                else ret (0%float, "", "") in
              let '(amount0, description0, notes0) := currentData in
              let mergedData :=
                {| sens_amount :=
                     Some (default amount0 (upd_amount updates));
                   sens_description :=
                     Some (default description0 (upd_description updates));
                   sens_notes :=
                     Some (default notes0 (upd_notes updates)) |} in
              let* envelope := encryptTransaction mergedData k in
              ret (add_envelope dataToUpdate envelope)
          | _ => ret dataToUpdate
          end
        else ret (add_clear dataToUpdate updates)
    | None => ret (add_clear dataToUpdate updates)
    end in
  let* resp := request (UpdateTransaction id dataToUpdate true) in
  match resp with
  | Failed message => throw (PostgrestError message)
  | OneRow data => ret data
  | _ => throw (Error "no data")
  end.

(** ** lib/services/currency.ts *)

Definition with_amount (t : Transaction) (a : float) : Transaction :=
  {| id := id t; amount := a; type := type t; date := date t;
     category_id := category_id t; category := category t;
     description := description t; mood := mood t; tags := tags t;
     notes := notes t; created_at := created_at t;
     updated_at := updated_at t; user_id := user_id t |}.

(** [Number((amount * conversionRate).toFixed(2))]. *)
Definition converted_amount (a conversionRate : float) : float :=
  JsNumber.Number (JsNumber.toFixed (a * conversionRate)%float 2).

(** [convertTransactionsCurrency(transactions, conversionRate)]. *)
Definition convertTransactionsCurrency (transactions : list Transaction)
    (conversionRate : float) : list Transaction :=
  map (fun transaction =>
         with_amount transaction
           (converted_amount (amount transaction) conversionRate))
    transactions.

(** The object [{ amount, updated_at }] of the per-record update. *)
Definition amount_payload (a : float) (now : string) : Payload :=
  {| set_type := None; set_date := None; set_category_id := None;
     set_mood := None; set_tags := None;
     set_amount := Some a;
     set_description := None; set_notes := None;
     set_encrypted_data := None; set_iv := None;
     set_updated_at := Some now |}.

(** [results.find(result => result.error)?.error]. *)
Fixpoint first_error (results : list Response) : option string :=
  match results with
  | [] => None
  | Failed message :: _ => Some message
  | _ :: rest => first_error rest
  end.

(** [updateTransactionsCurrencyInDB(oldCurrency, newCurrency,
    conversionRate)].  The update builders are made first (each reads
    the clock), then [Promise.all] awaits them all: every request is
    sent, whatever the others answer. *)
Definition updateTransactionsCurrencyInDB (oldCurrency newCurrency : string)
    (conversionRate : float) : M unit :=
  let* store := getState in
  let transactions := Store.transactions store in
  if (length transactions =? 0)%nat then ret tt
  else
    let convertedTransactions :=
      convertTransactionsCurrency transactions conversionRate in
    let* updatePromises :=
      all (fun transaction =>
             let* now := Date_toISOString in
             ret (UpdateTransaction (id transaction)
                    (amount_payload (amount transaction) now) false))
        convertedTransactions in
    let* results := all request updatePromises in
    match first_error results with
    | Some message =>
        throw (Error (String.append "Failed to update transactions: " message))
    | None =>
        let* now := Date_toISOString in
        let* settingsResult :=
          request (UpdateUserSettings (us_id <$> Store.settings store)
                     newCurrency now) in
        (* a failure here is only logged with console.warn *)
        let* _ := setState (Store.setTransactions convertedTransactions) in
        setState (Store.setCurrency newCurrency)
    end.

(** [updateCurrencyWithoutConversion(oldCurrency, newCurrency)]. *)
Definition updateCurrencyWithoutConversion (oldCurrency newCurrency : string)
  : M unit :=
  let* store := getState in
  let* now := Date_toISOString in
  let* result :=
    request (UpdateUserSettings (us_id <$> Store.settings store)
               newCurrency now) in
  match result with
  | Failed message =>
      throw (Error (String.append "Failed to update user settings: " message))
  | _ => setState (Store.setCurrency newCurrency)
  end.

(** ** app/dashboard/settings/page.tsx and
    components/currency-change-dialog.tsx *)

(** [err.message]. *)
Definition message_of (e : JsError) : string :=
  match e with
  | InvalidCharacterError => "InvalidCharacterError"
  | OperationError => "OperationError"
  | SyntaxError => "SyntaxError"
  | PostgrestError message => message
  | Error message => message
  end.

(** The React state of the settings page the handlers touch. *)
Record PageState : Type := {
  pendingCurrency : option string;
  page_error : option string
}.

(** The page's [handleConvert(conversionRate)]: whatever the service
    throws is caught and shown. *)
Definition page_handleConvert (p : PageState) (conversionRate : float)
  : M PageState :=
  match pendingCurrency p with
  | None => ret p
  | Some pending =>
      fun w =>
        match updateTransactionsCurrencyInDB
                (Store.currency (app w)) pending conversionRate w with
        | (Normal _, w') =>
            (Normal {| pendingCurrency := None; page_error := None |}, w')
        | (Throw err, w') =>
            (Normal {| pendingCurrency := pendingCurrency p;
                       page_error := Some (message_of err) |}, w')
        end
  end.

(** The page's [handleKeepAsIs()]. *)
Definition page_handleKeepAsIs (p : PageState) : M PageState :=
  match pendingCurrency p with
  | None => ret p
  | Some pending =>
      fun w =>
        match updateCurrencyWithoutConversion
                (Store.currency (app w)) pending w with
        | (Normal _, w') =>
            (Normal {| pendingCurrency := None; page_error := None |}, w')
        | (Throw err, w') =>
            (Normal {| pendingCurrency := pendingCurrency p;
                       page_error := Some (message_of err) |}, w')
        end
  end.

(** The dialog's [handleConvert], from the value [parseFloat] returned:
    the error text the dialog shows ([""] when the rate passes), and
    the page state after [onConvert(rate)]. *)
Definition dialog_handleConvert (p : PageState) (rate : float)
  : M (string * PageState) :=
  if JsNumber.isNaN rate || (rate <=? 0)%float then
    ret ("Please enter a valid conversion rate greater than 0", p)
  else
    let* p' := page_handleConvert p rate in
    ret ("", p').

End Services.

(** ** lib/export.ts *)

(** [String(x)] on a number. *)
Class NumberText : Type := {
  Number_toString : float -> string
}.

(** A value handed to [escapeCSVField]: [null] or [undefined], a string
    or a number. *)
Inductive CsvValue : Type :=
| CsvNull
| CsvText (s : string)
| CsvNumber (x : float).

Module CsvExport.

Definition quote : ascii := ascii_of_nat 34.
Definition comma : ascii := ascii_of_nat 44.
Definition newline : ascii := ascii_of_nat 10.

(** The [replace] of [escapeCSVField]: every double quote becomes
    two. *)
Fixpoint double_quotes (s : string) : string :=
  match s with
  | EmptyString => EmptyString
  | String c rest =>
      if Ascii.eqb c quote
      then String quote (String quote (double_quotes rest))
      else String c (double_quotes rest)
  end.

Section Fields.

Context `{NT : NumberText}.

(** [String(field)] for a field that is not [null] or [undefined]. *)
Definition String_of (field : CsvValue) : string :=
  match field with
  | CsvNull => ""
  | CsvText s => s
  | CsvNumber x => Number_toString x
  end.

(** [escapeCSVField(field)]. *)
Definition escapeCSVField (field : CsvValue) : string :=
  match field with
  | CsvNull => ""
  | _ =>
      let stringField := String_of field in
      if JsString.includes stringField comma
         || JsString.includes stringField newline
         || JsString.includes stringField quote
      then String quote
             (String.append (double_quotes stringField)
                (String quote EmptyString))
      else stringField
  end.

Definition headers : list string :=
  ["Date"; "Type"; "Amount"; "Currency"; "Category"; "Description";
   "Mood"; "Tags"; "Notes"].

Definition type_text (t : TransactionType) : string :=
  match t with income => "income" | expense => "expense" end.

Definition mood_text (m : MoodType) : string :=
  match m with
  | happy => "happy" | necessary => "necessary"
  | impulse => "impulse" | regret => "regret"
  end.

(** [x || ''] on an optional string. *)
Definition or_empty (s : option string) : string :=
  if truthy_string s then default "" s else "".

(** [categories.find(c => c.id === transaction.category_id)?.name ||
    'Uncategorized']. *)
Definition categoryName (categories : list Category) (t : Transaction)
  : string :=
  match List.find (fun c => String.eqb (cat_id c) (category_id t))
          categories with
  | Some c => if String.eqb (cat_name c) "" then "Uncategorized"
              else cat_name c
  | None => "Uncategorized"
  end.

(** The array a transaction is mapped to. *)
Definition row_of (categories : list Category) (currency : string)
    (t : Transaction) : list CsvValue :=
  [CsvText (date t);
   CsvText (type_text (type t));
   CsvNumber (amount t);
   CsvText currency;
   CsvText (categoryName categories t);
   CsvText (or_empty (description t));
   CsvText (from_option mood_text "" (mood t));
   CsvText (JsString.join ";" (tags t));
   CsvText (or_empty (notes t))].

(** [exportTransactionsAsCSV(transactions, categories, currency)]. *)
Definition exportTransactionsAsCSV (transactions : list Transaction)
    (categories : list Category) (currency : string) : string :=
  let rows := map (row_of categories currency) transactions in
  JsString.join (String newline EmptyString)
    (JsString.join "," (map (fun h => escapeCSVField (CsvText h)) headers)
     :: map (fun row => JsString.join "," (map escapeCSVField row)) rows).

End Fields.

End CsvExport.

(** ** The store client, continued

    The requests of the other services of lib/services/transactions.ts:
    deletions and the insert of several rows. *)

Inductive Query : Type :=
| DeleteTransaction (id : string)       (* .delete().eq('id', id) *)
| DeleteAllTransactions                 (* .delete().not('id', 'is', null) *)
| DeleteAllGoals
| InsertTransactions (payloads : list Payload).   (* .insert([...]).select() *)

(** A row of the [goals] table. *)
Record GoalRow : Type := {
  gr_id : string;
  gr_name : string;
  gr_category_id : option string;
  gr_target_date : option string;
  gr_target_amount : option float;
  gr_current_amount : option float;
  gr_description : option string;
  gr_encrypted_data : option string;
  gr_iv : option string;
  gr_created_at : string;
  gr_updated_at : string
}.

(** The insert of several rows is one statement: the rows are stored in
    the order given, or none is. *)
Fixpoint insert_rows (payloads : list Payload) (db : Supabase)
  : string + list Row * Supabase :=
  match payloads with
  | [] => inr ([], db)
  | p :: rest =>
      match serve (InsertTransaction p) db with
      | (OneRow row, db') =>
          match insert_rows rest db' with
          | inr (rows, db'') => inr (row :: rows, db'')
          | inl message => inl message
          end
      | (Failed message, _) => inl message
      | _ => inl "no data"
      end
  end.

(** The effect of a query the store accepts, on the tables of
    [Supabase] and the [goals] table. *)
Definition answer (q : Query) (db : Supabase) (goals : gmap string GoalRow)
  : Response * Supabase * gmap string GoalRow :=
  match q with
  | DeleteTransaction id =>
      (NoData, set_transactions_table (delete id (transactions_table db)) db,
       goals)
  | DeleteAllTransactions => (NoData, set_transactions_table ∅ db, goals)
  | DeleteAllGoals => (NoData, db, ∅)
  | InsertTransactions payloads =>
      match insert_rows payloads db with
      | inr (rows, db') => (Rows rows, db', goals)
      | inl message => (Failed message, db, goals)
      end
  end.

Section Maintenance.

Context `{WP : WebPlatform} `{JS : Json SensitiveFields}.

(** The world of these services: the world of the others, the [goals]
    table, the queries asked so far and the ones that will fail. *)
Record Site : Type := {
  site_world : World;
  goals_table : gmap string GoalRow;
  asked : list Query;
  failing : Query -> option string
}.

Definition P (A : Type) : Type := Site -> Completion A * Site.

Definition unit_P {A : Type} (a : A) : P A := fun s => (Normal a, s).

Definition throw_P {A : Type} (e : JsError) : P A := fun s => (Throw e, s).

Definition bind_P {A B : Type} (m : P A) (k : A -> P B) : P B :=
  fun s =>
    match m s with
    | (Normal a, s') => k a s'
    | (Throw e, s') => (Throw e, s')
    end.

(** A service of the other kind run in this world. *)
Definition services {A : Type} (m : M A) : P A :=
  fun s =>
    let '(c, w) := m (site_world s) in
    (c, {| site_world := w; goals_table := goals_table s; asked := asked s;
           failing := failing s |}).

Definition with_remote (db : Supabase) (w : World) : World :=
  {| remote := db; sent := sent w; fault := fault w; rng := rng w;
     clock := clock w; readings := readings w; app := app w |}.

(** Awaiting a query. *)
Definition ask (q : Query) : P Response :=
  fun s =>
    match failing s q with
    | Some message =>
        (Normal (Failed message),
         {| site_world := site_world s; goals_table := goals_table s;
            asked := asked s ++ [q]; failing := failing s |})
    | None =>
        let '(resp, db, goals) :=
          answer q (remote (site_world s)) (goals_table s) in
        (Normal resp,
         {| site_world := with_remote db (site_world s); goals_table := goals;
            asked := asked s ++ [q]; failing := failing s |})
    end.

(** [deleteTransaction(id)]. *)
Definition deleteTransaction (id : string) : P unit :=
  bind_P (ask (DeleteTransaction id)) (fun resp =>
  match resp with
  | Failed message => throw_P (PostgrestError message)
  | _ => unit_P tt
  end).

(** The record [batchCreateTransactions] builds for a transaction. *)
Definition recordData (transaction : NewTransaction)
    (encryptionKey : option CryptoKey) : M Payload :=
  match encryptionKey with
  | Some k =>
      bind
        (encryptTransaction
           {| sens_amount := Some (new_amount transaction);
              sens_description := new_description transaction;
              sens_notes := new_notes transaction |} k)
        (fun envelope =>
           ret {| set_type := Some (new_type transaction);
                  set_date := Some (new_date transaction);
                  set_category_id := Some (new_category_id transaction);
                  set_mood := new_mood transaction;
                  set_tags := Some (new_tags transaction);
                  set_amount := None; set_description := None;
                  set_notes := None;
                  set_encrypted_data := Some (encrypted_data envelope);
                  set_iv := Some (iv envelope);
                  set_updated_at := None |})
  | None =>
      ret {| set_type := Some (new_type transaction);
             set_date := Some (new_date transaction);
             set_category_id := Some (new_category_id transaction);
             set_mood := new_mood transaction;
             set_tags := Some (new_tags transaction);
             set_amount := Some (new_amount transaction);
             set_description := new_description transaction;
             set_notes := new_notes transaction;
             set_encrypted_data := None; set_iv := None;
             set_updated_at := None |}
  end.

(** [(data || []).map((t, idx) => ({ ...t, amount:
    transactions[idx].amount, ... }))]; reading a property of
    [transactions[idx]] throws when [idx] is past the end. *)
Fixpoint with_inputs (data : list Row) (transactions : list NewTransaction)
  : Completion (list Row) :=
  match data, transactions with
  | [], _ => Normal []
  | t :: rest, transaction :: others =>
      match with_inputs rest others with
      | Normal rows =>
          Normal (with_sensitive t (Some (new_amount transaction))
                    (new_description transaction) (new_notes transaction)
                  :: rows)
      | Throw e => Throw e
      end
  | _ :: _, [] => Throw (Error "TypeError")
  end.

(** [batchCreateTransactions(transactions, encryptionKey)]. *)
Definition batchCreateTransactions (transactions : list NewTransaction)
    (encryptionKey : option CryptoKey) : P (list Row) :=
  bind_P (services (all (fun t => recordData t encryptionKey) transactions))
    (fun dataToInsert =>
  bind_P (ask (InsertTransactions dataToInsert)) (fun resp =>
  match resp with
  | Failed message => throw_P (PostgrestError message)
  | Rows data => fun s => (with_inputs data transactions, s)
  | _ => unit_P []
  end)).

(** [wipeAllData()]: the two deletions are awaited together and what they
    answer is dropped; an answer with an error is no exception. *)
Definition wipeAllData : P unit :=
  bind_P (ask DeleteAllTransactions) (fun _ =>
  bind_P (ask DeleteAllGoals) (fun _ => unit_P tt)).

(** The store's [set] in this world. *)
Definition set_store (f : Store.AppState -> Store.AppState) : P unit :=
  services (setState f).

(** The React state of the settings page. *)
Record SettingsPage : Type := {
  showCurrencyList : bool;
  showCurrencyChangeDialog : bool;
  showDatabaseWipeDialog : bool;
  settings_pendingCurrency : option string;
  settings_loading : bool;
  settings_error : option string
}.

(** The page's [handleDatabaseWipe(encryptionKeyInput)]: the key typed
    into the dialog is not looked at. *)
Definition handleDatabaseWipe (page : SettingsPage)
    (encryptionKeyInput : string) : P SettingsPage :=
  fun s =>
    match bind_P wipeAllData (fun _ =>
          bind_P (set_store (Store.setTransactions [])) (fun _ =>
          set_store (Store.setGoals []))) s with
    | (Normal _, s') =>
        (Normal {| showCurrencyList := showCurrencyList page;
                   showCurrencyChangeDialog := showCurrencyChangeDialog page;
                   showDatabaseWipeDialog := false;
                   settings_pendingCurrency := settings_pendingCurrency page;
                   settings_loading := false; settings_error := None |}, s')
    | (Throw err, s') =>
        (Normal {| showCurrencyList := showCurrencyList page;
                   showCurrencyChangeDialog := showCurrencyChangeDialog page;
                   showDatabaseWipeDialog := showDatabaseWipeDialog page;
                   settings_pendingCurrency := settings_pendingCurrency page;
                   settings_loading := false;
                   settings_error := Some (message_of err) |}, s')
    end.

(** [handleCurrencySelection(newCurrency)] of the settings page. *)
Definition handleCurrencySelection (page : SettingsPage)
    (newCurrency : string) : M SettingsPage :=
  bind getState (fun state =>
  if String.eqb newCurrency (Store.currency state) then
    ret {| showCurrencyList := false;
           showCurrencyChangeDialog := showCurrencyChangeDialog page;
           showDatabaseWipeDialog := showDatabaseWipeDialog page;
           settings_pendingCurrency := settings_pendingCurrency page;
           settings_loading := settings_loading page;
           settings_error := settings_error page |}
  else if (length (Store.transactions state) =? 0)%nat then
    bind (setState (Store.setCurrency newCurrency)) (fun _ =>
    ret {| showCurrencyList := false;
           showCurrencyChangeDialog := showCurrencyChangeDialog page;
           showDatabaseWipeDialog := showDatabaseWipeDialog page;
           settings_pendingCurrency := settings_pendingCurrency page;
           settings_loading := settings_loading page;
           settings_error := settings_error page |})
  else
    ret {| showCurrencyList := false;
           showCurrencyChangeDialog := true;
           showDatabaseWipeDialog := showDatabaseWipeDialog page;
           settings_pendingCurrency := Some newCurrency;
           settings_loading := settings_loading page;
           settings_error := settings_error page |}).

(** [handleConfirmDelete()] of the transactions page, for the
    transaction picked ([transactionToDelete]): what it throws again
    after [finally]. *)
Definition handleConfirmDelete (transactionToDelete : option Transaction)
  : P unit :=
  match transactionToDelete with
  | None => unit_P tt
  | Some transaction =>
      fun s =>
        match bind_P (set_store (Store.setLoading true)) (fun _ =>
              bind_P (deleteTransaction (id transaction)) (fun _ =>
              set_store (Store.deleteTransaction (id transaction)))) s with
        | (c, s') => (c, (set_store (Store.setLoading false) s').2)
        end
  end.

End Maintenance.

(** ** components/bulk-transaction-import.tsx *)

(** [parseFloat] and [String.prototype.toLowerCase]. *)
Class TextPlatform : Type := {
  parseFloat : string -> float;
  String_toLowerCase : string -> string
}.

Record BulkTransactionRow : Type := {
  bulk_date : string;
  bulk_type : TransactionType;
  bulk_amount : string;
  bulk_category : string;
  bulk_description : string;
  bulk_mood : string
}.

(** What [parseCSV] makes of a line after the first: the pieces between
    the commas are trimmed and the first six are taken; a line without
    a date or an amount gives no row.  (The date defaults to today only
    when it is empty, which the test before excludes.) *)
Definition parse_line (line : string) : option BulkTransactionRow :=
  let pieces := map JsString.trim (JsString.split CsvExport.comma line) in
  if truthy_string (pieces !! 0%nat) && truthy_string (pieces !! 2%nat) then
    Some {| bulk_date := default "" (pieces !! 0%nat);
            bulk_type :=
              match pieces !! 1%nat with
              | Some t => if String.eqb t "income" then income else expense
              | None => expense
              end;
            bulk_amount := default "" (pieces !! 2%nat);
            bulk_category := default "" (pieces !! 3%nat);
            bulk_description := default "" (pieces !! 4%nat);
            bulk_mood := default "" (pieces !! 5%nat) |}
  else None.

(** [parseCSV(text)]. *)
Definition parseCSV (text : string) : list BulkTransactionRow :=
  omap parse_line
    (tail (JsString.split CsvExport.newline (JsString.trim text))).

(** The mood a row's text stands for: none when it is empty; a text
    that is no mood is outside the type. *)
Definition mood_of (text : string) : option (option MoodType) :=
  if String.eqb text "" then Some None
  else if String.eqb text "happy" then Some (Some happy)
  else if String.eqb text "necessary" then Some (Some necessary)
  else if String.eqb text "impulse" then Some (Some impulse)
  else if String.eqb text "regret" then Some (Some regret)
  else None.

(** The row a service returned, as the transaction the store is given;
    where the row has no amount or category, which the type of the
    store excludes, [0] and [""] stand for them. *)
Definition transaction_of (row : Row) : Transaction :=
  {| id := row_id row; amount := default 0%float (row_amount row);
     type := row_type row; date := row_date row;
     category_id := default "" (row_category_id row);
     category := row_category row;
     description := row_description row; mood := row_mood row;
     tags := row_tags row; notes := row_notes row;
     created_at := row_created_at row; updated_at := row_updated_at row;
     user_id := None |}.

Section BulkImport.

Context `{WP : WebPlatform} `{JS : Json SensitiveFields} `{TP : TextPlatform}.

(** The React state of the dialog; [reset_scheduled] is the callback
    handed to [setTimeout]. *)
Record BulkDialog : Type := {
  bulk_rows : list BulkTransactionRow;
  bulk_loading : bool;
  bulk_error : string;
  successCount : nat;
  reset_scheduled : bool
}.

(** [categories.find(c => c.name.toLowerCase() ===
    row.category.toLowerCase())]. *)
Definition find_category (categories : list Category) (name : string)
  : option Category :=
  List.find (fun c => String.eqb (String_toLowerCase (cat_name c))
                        (String_toLowerCase name)) categories.

(** The category of a row that passes the three checks of the loop. *)
Definition accepted_row (categories : list Category)
    (row : BulkTransactionRow) : option Category :=
  let amount := parseFloat (bulk_amount row) in
  if JsNumber.isNaN amount || (amount <=? 0)%float then None
  else if String.eqb (bulk_category row) "" then None
  else find_category categories (bulk_category row).

(** The transaction the loop creates for an accepted row. *)
Definition transaction_for (row : BulkTransactionRow) (category : Category)
    (its_mood : option MoodType) : NewTransaction :=
  {| new_amount := parseFloat (bulk_amount row);
     new_type := bulk_type row;
     new_date := bulk_date row;
     new_category_id := cat_id category;
     new_category := None;
     new_description := Some (bulk_description row);
     new_mood := its_mood;
     new_tags := [];
     new_notes := Some "";
     new_user_id := None |}.

(** The loop of [handleSubmit] from the count of transactions created
    so far.  A mood text that is no mood is refused by the store, whose
    [mood] column has a CHECK on the four moods (supabase-schema.sql);
    the payload type has no place for such a text, so that request is
    not listed among those sent. *)
Fixpoint import_rows (rows : list BulkTransactionRow)
    (categories : list Category) (encryptionKey : option CryptoKey)
    (created : nat) : M nat :=
  match rows with
  | [] => ret created
  | row :: rest =>
      match accepted_row categories row with
      | None => import_rows rest categories encryptionKey created
      | Some category =>
          match mood_of (bulk_mood row) with
          | None =>
              throw (PostgrestError
                       "new row violates check constraint on mood")
          | Some its_mood =>
              bind (createTransaction
                      (transaction_for row category its_mood)
                      encryptionKey)
                (fun newTransaction =>
              bind (setState
                      (Store.addTransaction (transaction_of newTransaction)))
                (fun _ =>
              import_rows rest categories encryptionKey (S created)))
          end
      end
  end.

(** [handleSubmit()]. *)
Definition handleSubmit (d : BulkDialog) : M BulkDialog :=
  fun w =>
    let state := app w in
    let shows message count scheduled :=
      {| bulk_rows := bulk_rows d; bulk_loading := false;
         bulk_error := message; successCount := count;
         reset_scheduled := scheduled |} in
    let enabled_ :=
      match Store.encryptionConfig state with
      | Some config => enabled config
      | None => false
      end in
    if enabled_ && negb (bool_decide (is_Some (Store.encryptionKey state)))
    then
      (Normal (shows
                 "Encryption key not loaded. Please unlock your encryption first."
                 0%nat (reset_scheduled d)), w)
    else
      match import_rows (bulk_rows d) (Store.categories state)
              (Store.encryptionKey state) 0 w with
      | (Normal created, w') =>
          if (0 <? created)%nat
          then (Normal (shows "" created true), w')
          else (Normal (shows "No valid transactions were created" created
                          (reset_scheduled d)), w')
      | (Throw err, w') =>
          (Normal (shows (if String.eqb (message_of err) ""
                          then "Failed to import transactions"
                          else message_of err) 0%nat (reset_scheduled d)),
           w')
      end.

End BulkImport.

(** ** lib/encryption.ts: keys and salts *)

(** What the key utilities throw. *)
Inductive KeyError : Type :=
| KeyInvalidCharacterError     (* DOMException of atob *)
| KeyDataError                 (* importKey: the bytes are no AES key *)
| KeyInvalidAccessError.       (* exportKey of a key that is not extractable *)

(** The key operations of [crypto.subtle].  [subtle_generateKey n] is
    the n-th key [generateKey] returns; [subtle_exportKey] is the raw
    export, [None] when the key is not extractable; [subtle_importKey]
    is the raw AES-GCM import, [None] when it rejects the bytes;
    [subtle_deriveKey password salt iterations length] is PBKDF2 with
    SHA-256 on the imported password bytes. *)
Class KeyPlatform `{WP : WebPlatform} : Type := {
  subtle_generateKey : nat -> CryptoKey;
  subtle_exportKey : CryptoKey -> option (list byte);
  subtle_importKey : list byte -> option CryptoKey;
  subtle_deriveKey : list byte -> list byte -> N -> N -> CryptoKey
}.

Section Keys.

Context `{KP : KeyPlatform}.

(** [generateRandomKey()], from the number of keys generated so far. *)
Definition generateRandomKey (generated : nat) : CryptoKey * nat :=
  (subtle_generateKey generated, S generated).

(** [deriveKeyFromPassword(password, salt)]: [salt || getRandomValues]
    (a [Uint8Array] is truthy, also an empty one). *)
Definition deriveKeyFromPassword (password : string)
    (salt : option (list byte)) (g : Rng)
  : (CryptoKey * list byte) * Rng :=
  let '(saltBytes, g') :=
    match salt with
    | Some bytes => (bytes, g)
    | None => getRandomValues SALT_LENGTH g
    end in
  let key :=
    subtle_deriveKey (TextEncoder_encode password) saltBytes
      PBKDF2_ITERATIONS KEY_LENGTH in
  ((key, saltBytes), g').

(** [exportKey(key)]. *)
Definition exportKey (key : CryptoKey) : KeyError + string :=
  match subtle_exportKey key with
  | None => inl KeyInvalidAccessError
  | Some exported => inr (Base64.arrayBufferToBase64 exported)
  end.

(** [importKey(keyString)]. *)
Definition importKey (keyString : string) : KeyError + CryptoKey :=
  match Base64.base64ToArrayBuffer keyString with
  | None => inl KeyInvalidCharacterError
  | Some keyData =>
      match subtle_importKey keyData with
      | None => inl KeyDataError
      | Some key => inr key
      end
  end.

(** [generateSalt()], [saltToBase64(salt)] and [base64ToSalt(base64)];
    the arrays are the whole of their buffers. *)
Definition generateSalt (g : Rng) : list byte * Rng :=
  getRandomValues SALT_LENGTH g.

Definition saltToBase64 (salt : list byte) : string :=
  Base64.arrayBufferToBase64 salt.

Definition base64ToSalt (base64 : string) : option (list byte) :=
  Base64.base64ToArrayBuffer base64.

End Keys.

(** ** lib/supabase.ts *)

(** [createClient] of the client library: whether it accepts the
    credentials (it throws otherwise). *)
Class ClientLibrary : Type := {
  createClient_accepts : SupabaseCredentials -> bool
}.

(** [initializeSupabase(credentials)], [getSupabase()] and
    [clearSupabase()] on the module's [supabaseInstance]. *)
Definition initializeSupabase `{CL : ClientLibrary}
    (credentials : SupabaseCredentials)
    (supabaseInstance : option SupabaseCredentials)
  : Completion unit * option SupabaseCredentials :=
  if createClient_accepts credentials
  then (Normal tt, Some credentials)
  else (Throw (Error "createClient"), supabaseInstance).

Definition getSupabase (supabaseInstance : option SupabaseCredentials)
  : Completion SupabaseCredentials :=
  match supabaseInstance with
  | None =>
      Throw (Error "Supabase not initialized. Please complete onboarding first.")
  | Some client => Normal client
  end.

Definition clearSupabase (supabaseInstance : option SupabaseCredentials)
  : option SupabaseCredentials := None.

(** ** components/onboarding-wizard.tsx and
    components/unlock-encryption-dialog.tsx *)

Section Onboarding.

Context `{KP : KeyPlatform} `{CL : ClientLibrary}.

(** What the two components act on: the Zustand store, the random
    source, the number of keys generated, the client of lib/supabase.ts
    and the files offered for download (name and content). *)
Record Browser : Type := {
  store : Store.AppState;
  random : Rng;
  generatedKeys : nat;
  supabaseInstance : option SupabaseCredentials;
  downloads : list (string * string)
}.

Definition with_store (f : Store.AppState -> Store.AppState) (b : Browser)
  : Browser :=
  {| store := f (store b); random := random b;
     generatedKeys := generatedKeys b;
     supabaseInstance := supabaseInstance b; downloads := downloads b |}.

(** The React state of the wizard. *)
Record Wizard : Type := {
  step : nat;
  wizard_loading : bool;
  wizard_error : string;
  supabaseUrl : string;
  supabaseKey : string;
  connectionTested : bool;
  encryptionType : EncryptionType;
  masterPassword : string;
  confirmPassword : string;
  generatedKey : string;
  keyDownloaded : bool
}.

Definition wizard_shows (loading : bool) (message : string) (z : Wizard)
  : Wizard :=
  {| step := step z; wizard_loading := loading; wizard_error := message;
     supabaseUrl := supabaseUrl z; supabaseKey := supabaseKey z;
     connectionTested := connectionTested z;
     encryptionType := encryptionType z;
     masterPassword := masterPassword z;
     confirmPassword := confirmPassword z;
     generatedKey := generatedKey z; keyDownloaded := keyDownloaded z |}.

Definition wizard_key (text : string) (downloaded : bool) (z : Wizard)
  : Wizard :=
  {| step := step z; wizard_loading := wizard_loading z;
     wizard_error := wizard_error z;
     supabaseUrl := supabaseUrl z; supabaseKey := supabaseKey z;
     connectionTested := connectionTested z;
     encryptionType := encryptionType z;
     masterPassword := masterPassword z;
     confirmPassword := confirmPassword z;
     generatedKey := text; keyDownloaded := downloaded |}.

(** [handleGenerateRandomKey()]. *)
Definition handleGenerateRandomKey (z : Wizard) (b : Browser)
  : Wizard * Browser :=
  let '(key, n) := generateRandomKey (generatedKeys b) in
  let b' :=
    {| store := store b; random := random b; generatedKeys := n;
       supabaseInstance := supabaseInstance b; downloads := downloads b |} in
  match exportKey key with
  | inr exported => (wizard_key exported false z, b')
  | inl _ =>
      (wizard_shows (wizard_loading z)
         "Failed to generate key. Please try again." z, b')
  end.

(** [handleDownloadKey()]. *)
Definition handleDownloadKey (z : Wizard) (b : Browser) : Wizard * Browser :=
  (wizard_key (generatedKey z) true z,
   {| store := store b; random := random b;
      generatedKeys := generatedKeys b;
      supabaseInstance := supabaseInstance b;
      downloads :=
        downloads b ++ [("finsulium-encryption-key.txt", generatedKey z)] |}).

(** [handleComplete()]. *)
Definition handleComplete (z : Wizard) (b : Browser) : Wizard * Browser :=
  let credentials := {| url := supabaseUrl z; anonKey := supabaseKey z |} in
  let b := with_store (Store.setCredentials credentials) b in
  match initializeSupabase credentials (supabaseInstance b) with
  | (Throw _, _) => (wizard_shows false "Setup failed. Please try again." z, b)
  | (Normal _, instance) =>
      let b :=
        {| store := store b; random := random b;
           generatedKeys := generatedKeys b;
           supabaseInstance := instance; downloads := downloads b |} in
      match encryptionType z with
      | password =>
          if negb (String.eqb (masterPassword z) (confirmPassword z)) then
            (wizard_shows false "Passwords do not match." z, b)
          else if (String.length (masterPassword z) <? 8)%nat then
            (wizard_shows false "Password must be at least 8 characters." z, b)
          else
            let '(salt, g) := generateSalt (random b) in
            let '((key, _), g) :=
              deriveKeyFromPassword (masterPassword z) (Some salt) g in
            let b :=
              {| store :=
                   Store.setOnboarded true
                     (Store.setEncryptionConfig
                        {| enabled := true; enc_type := password;
                           key := None |}
                        (Store.setSalt (Some (saltToBase64 salt))
                           (Store.setEncryptionKey (Some key) (store b))));
                 random := g; generatedKeys := generatedKeys b;
                 supabaseInstance := supabaseInstance b;
                 downloads := downloads b |} in
            (wizard_shows false "" z, b)
      | random_key =>
          if negb (keyDownloaded z) then
            (wizard_shows false
               "Please download your encryption key before continuing." z, b)
          else
            let '(key, n) := generateRandomKey (generatedKeys b) in
            let b :=
              {| store :=
                   Store.setOnboarded true
                     (Store.setEncryptionConfig
                        {| enabled := true; enc_type := random_key;
                           key := None |}
                        (Store.setEncryptionKey (Some key) (store b)));
                 random := random b; generatedKeys := n;
                 supabaseInstance := supabaseInstance b;
                 downloads := downloads b |} in
            (wizard_shows false "" z, b)
      end
  end.

(** The React state of the unlock dialog. *)
Record UnlockDialog : Type := {
  unlock_password : string;
  unlock_keyString : string;
  unlock_loading : bool;
  unlock_error : string
}.

(** [handleUnlock()]. *)
Definition handleUnlock (d : UnlockDialog) (b : Browser)
  : UnlockDialog * Browser :=
  let isPasswordMode :=
    match Store.encryptionConfig (store b) with
    | Some config =>
        match enc_type config with password => true | random_key => false end
    | None => false
    end in
  let shows message :=
    ({| unlock_password := unlock_password d;
        unlock_keyString := unlock_keyString d;
        unlock_loading := false; unlock_error := message |}, b) in
  if isPasswordMode then
    if String.eqb (JsString.trim (unlock_password d)) "" then
      shows "Please enter your master password"
    else if negb (truthy_string (Store.salt (store b))) then
      shows "Salt not found. Please re-run onboarding."
    else
      match base64ToSalt (default "" (Store.salt (store b))) with
      | None => shows "Failed to unlock. Please check your credentials."
      | Some saltBytes =>
          let '((key, _), g) :=
            deriveKeyFromPassword (unlock_password d) (Some saltBytes)
              (random b) in
          ({| unlock_password := ""; unlock_keyString := unlock_keyString d;
              unlock_loading := false; unlock_error := "" |},
           {| store := Store.setEncryptionKey (Some key) (store b);
              random := g; generatedKeys := generatedKeys b;
              supabaseInstance := supabaseInstance b;
              downloads := downloads b |})
      end
  else
    if String.eqb (JsString.trim (unlock_keyString d)) "" then
      shows "Please enter your encryption key"
    else
      match importKey (unlock_keyString d) with
      | inl _ => shows "Failed to unlock. Please check your credentials."
      | inr key =>
          ({| unlock_password := unlock_password d; unlock_keyString := "";
              unlock_loading := false; unlock_error := "" |},
           with_store (Store.setEncryptionKey (Some key)) b)
      end.

End Onboarding.

(** ** A sample platform

    A toy authenticated cipher, Latin-1 text coding and a JSON codec for
    plain strings and for the sensitive fields, to run the definitions
    above on concrete data.  Nothing is claimed of the cipher's security;
    the JSON codec prints a number by its exact decimal expansion. *)

Module Sample.

Local Open Scope string_scope.

Definition xor_byte (a b : byte) : byte :=
  default x00 (Byte.of_N (N.lxor (Byte.to_N a) (Byte.to_N b))).

Definition pad_byte (k iv : list byte) (i : nat) : byte :=
  xor_byte (nth (i mod length k) k x00) (nth (i mod length iv) iv x00).

Definition mask (k iv data : list byte) : list byte :=
  imap (fun i b => xor_byte b (pad_byte k iv i)) data.

Definition tag (k iv ct : list byte) : byte :=
  foldr xor_byte x2a (k ++ iv ++ ct).

Definition seal (k iv data : list byte) : list byte :=
  let ct := mask k iv data in ct ++ [tag k iv ct].

Definition open (k iv sealed : list byte) : option (list byte) :=
  match rev sealed with
  | [] => None
  | t :: r =>
      let ct := rev r in
      if Byte.eqb t (tag k iv ct) then Some (mask k iv ct) else None
  end.

#[export] Instance platform : WebPlatform := {|
  CryptoKey := list byte;
  subtle_encrypt := seal;
  subtle_decrypt := open;
  TextEncoder_encode := list_byte_of_string;
  TextDecoder_decode := string_of_list_byte
|}.

Definition quote : ascii := ascii_of_nat 34.
Definition backslash : ascii := ascii_of_nat 92.

Definition plain_char (c : ascii) : bool :=
  (32 <=? nat_of_ascii c)%nat && negb (Ascii.eqb c quote)
  && negb (Ascii.eqb c backslash).

(** The characters up to the closing quote, and what follows it. *)
Fixpoint read_chars (t : string) : option (string * string) :=
  match t with
  | EmptyString => None
  | String c rest =>
      if Ascii.eqb c quote then Some ("", rest)
      else if plain_char c then
        match read_chars rest with
        | Some (s, r) => Some (String c s, r)
        | None => None
        end
      else None
  end.

Definition read_string (t : string) : option (string * string) :=
  match t with
  | String c rest => if Ascii.eqb c quote then read_chars rest else None
  | EmptyString => None
  end.

Definition show_string (s : string) : string :=
  String quote (s ++ String quote "").

#[export] Instance json_string : Json string := {|
  JSON_stringify := show_string;
  JSON_parse := fun t =>
    match read_string t with
    | Some (s, EmptyString) => Some s
    | _ => None
    end
|}.

Definition digits : N -> string := JsNumber.digits.

Definition zeros : nat -> string := JsNumber.zeros.

Fixpoint strip_zeros (rev_digits : list ascii) : list ascii :=
  match rev_digits with
  | "0"%char :: r => strip_zeros r
  | _ => rev_digits
  end.

(** The exact decimal expansion of [m * 2^e]. *)
Definition show_magnitude (m : positive) (e : Z) : string :=
  if (0 <=? e)%Z then digits (Npos m * 2 ^ Z.to_N e)
  else
    let k := Z.to_N (- e) in
    let n := (Npos m * 5 ^ k)%N in
    let fraction := digits (n mod 10 ^ k) in
    let fraction :=
      zeros (N.to_nat k - String.length fraction) ++ fraction in
    let fraction :=
      string_of_list_ascii
        (rev (strip_zeros (rev (list_ascii_of_string fraction)))) in
    match fraction with
    | EmptyString => digits (n / 10 ^ k)
    | _ => digits (n / 10 ^ k) ++ "." ++ fraction
    end.

Definition show_number (x : float) : string :=
  match Prim2SF x with
  | S754_finite neg m e =>
      (if neg then "-" else "") ++ show_magnitude m e
  | S754_zero _ => "0"
  | _ => "null"
  end.

Definition is_digit (c : ascii) : bool :=
  (48 <=? nat_of_ascii c)%nat && (nat_of_ascii c <=? 57)%nat.

Fixpoint span_digits (t : string) : string * string :=
  match t with
  | String c rest =>
      if is_digit c then
        let '(d, r) := span_digits rest in (String c d, r)
      else ("", t)
  | EmptyString => ("", "")
  end.

Definition number_of (neg : bool) (whole fraction : string) : option float :=
  match DecimalString.NilZero.uint_of_string (whole ++ fraction) with
  | Some u =>
      Some (JsNumber.nearest_double neg (Z.of_N (N.of_uint u))
              (Z.of_nat (String.length fraction)))
  | None => None
  end.

Definition read_number (t : string) : option (float * string) :=
  let '(neg, t) :=
    match t with
    | String "-" rest => (true, rest)
    | _ => (false, t)
    end in
  let '(whole, t) := span_digits t in
  match whole with
  | EmptyString => None
  | _ =>
      match t with
      | String "." rest =>
          let '(fraction, t') := span_digits rest in
          match fraction with
          | EmptyString => None
          | _ => option_map (fun x => (x, t')) (number_of neg whole fraction)
          end
      | _ => option_map (fun x => (x, t)) (number_of neg whole "")
      end
  end.

Definition member (name value : string) : string :=
  show_string name ++ ":" ++ value.

Definition show_sensitive (v : SensitiveFields) : string :=
  "{" ++ String.concat ","
           (omap (fun m => m)
              [member "amount" <$> (show_number <$> sens_amount v);
               member "description" <$> (show_string <$> sens_description v);
               member "notes" <$> (show_string <$> sens_notes v)])
      ++ "}".

Definition read_member (name : string) (t : string) (acc : SensitiveFields)
  : option (SensitiveFields * string) :=
  if String.eqb name "amount" then
    match read_number t with
    | Some (x, r) =>
        Some ({| sens_amount := Some x;
                 sens_description := sens_description acc;
                 sens_notes := sens_notes acc |}, r)
    | None =>
        if String.prefix "null" t then
          Some ({| sens_amount := None;
                   sens_description := sens_description acc;
                   sens_notes := sens_notes acc |},
                String.substring 4 (String.length t - 4) t)
        else None
    end
  else if String.eqb name "description" then
    match read_string t with
    | Some (d, r) =>
        Some ({| sens_amount := sens_amount acc;
                 sens_description := Some d;
                 sens_notes := sens_notes acc |}, r)
    | None => None
    end
  else if String.eqb name "notes" then
    match read_string t with
    | Some (n, r) =>
        Some ({| sens_amount := sens_amount acc;
                 sens_description := sens_description acc;
                 sens_notes := Some n |}, r)
    | None => None
    end
  else None.

Fixpoint read_members (fuel : nat) (t : string) (acc : SensitiveFields)
  : option SensitiveFields :=
  match fuel with
  | O => None
  | S fuel' =>
      match read_string t with
      | Some (name, String ":" rest) =>
          match read_member name rest acc with
          | Some (acc', String "}" EmptyString) => Some acc'
          | Some (acc', String "," rest') => read_members fuel' rest' acc'
          | _ => None
          end
      | _ => None
      end
  end.

Definition read_sensitive (t : string) : option SensitiveFields :=
  let none :=
    {| sens_amount := None; sens_description := None; sens_notes := None |} in
  match t with
  | String "{" (String "}" EmptyString) => Some none
  | String "{" rest => read_members 3 rest none
  | _ => None
  end.

#[export] Instance json_sensitive : Json SensitiveFields := {|
  JSON_stringify := show_sensitive;
  JSON_parse := read_sensitive
|}.

(** A world with empty tables, in which no request fails. *)
Definition world : World :=
  {| remote :=
       {| transactions_table := ∅; categories_table := ∅;
          user_settings_table := ∅;
          generated := fun n =>
            ("id-" ++ digits (N.of_nat n), "2026-01-01T00:00:00.000Z",
             "2026-01-01");
          inserted := 0 |};
     sent := [];
     fault := fun _ => None;
     rng := {| entropy := fun n => default x00 (Byte.of_nat (n mod 256));
               drawn := 0 |};
     clock := fun n => "2026-01-02T00:00:00.00" ++ digits (N.of_nat (n mod 10)) ++ "Z";
     readings := 0;
     app := Store.initial |}.

Definition secret : CryptoKey := [x01; x02; x03].

(** The record of the password-unlock scenario, with empty notes. *)
Definition lunch : SensitiveFields :=
  {| sens_amount := Some 42.5%float;
     sens_description := Some "lunch";
     sens_notes := Some "" |}.

(** A new transaction for that record, and an update of its amount. *)
Definition lunch_transaction : NewTransaction :=
  {| new_amount := 42.5%float; new_type := expense;
     new_date := "2026-01-01"; new_category_id := "food";
     new_category := None; new_description := Some "lunch";
     new_mood := None; new_tags := []; new_notes := Some "";
     new_user_id := None |}.

Definition no_updates : PartialTransaction :=
  {| upd_id := None; upd_amount := None; upd_type := None;
     upd_date := None; upd_category_id := None; upd_category := None;
     upd_description := None; upd_mood := None; upd_tags := None;
     upd_notes := None; upd_created_at := None; upd_updated_at := None;
     upd_user_id := None |}.

Definition new_amount_99 : PartialTransaction :=
  {| upd_id := None; upd_amount := Some 99%float; upd_type := None;
     upd_date := None; upd_category_id := None; upd_category := None;
     upd_description := None; upd_mood := None; upd_tags := None;
     upd_notes := None; upd_created_at := None; upd_updated_at := None;
     upd_user_id := None |}.

(** An update that empties the description. *)
Definition empty_description : PartialTransaction :=
  {| upd_id := None; upd_amount := None; upd_type := None;
     upd_date := None; upd_category_id := None; upd_category := None;
     upd_description := Some ""; upd_mood := None; upd_tags := None;
     upd_notes := None; upd_created_at := None; upd_updated_at := None;
     upd_user_id := None |}.

(** Encryption is on, in password mode. *)
Definition with_password : EncryptionConfig :=
  {| enabled := true; enc_type := password; key := None |}.

(** The sample world after the transaction was created under the key,
    in a later session: the table holds its row, with the envelope;
    encryption is enabled and the store holds no key. *)
Definition locked_world : World :=
  (setState (Store.setEncryptionConfig with_password)
     (createTransaction lunch_transaction (Some secret) world).2).2.

(** The created transaction as the modal adds it to the store. *)
Definition lunch_in_store : Transaction :=
  {| id := "id-0"; amount := 42.5%float; type := expense;
     date := "2026-01-01"; category_id := "food"; category := None;
     description := Some "lunch"; mood := None; tags := [];
     notes := Some ""; created_at := "2026-01-01T00:00:00.000Z";
     updated_at := "2026-01-01T00:00:00.000Z"; user_id := None |}.

(** [locked_world] unlocked, with that transaction in the store. *)
Definition converting_world : World :=
  (setState (fun s => Store.setTransactions [lunch_in_store]
                        (Store.setEncryptionKey (Some secret) s))
     locked_world).2.

Definition pending_EUR : PageState :=
  {| pendingCurrency := Some "EUR"; page_error := None |}.

(** Three transactions stored in clear, and in the store. *)
Definition clear_transaction (a : float) (d : string) : NewTransaction :=
  {| new_amount := a; new_type := expense;
     new_date := "2026-01-01"; new_category_id := "food";
     new_category := None; new_description := Some d;
     new_mood := None; new_tags := []; new_notes := None;
     new_user_id := None |}.

Definition stored_transaction (i : string) (a : float) (d : string)
  : Transaction :=
  {| id := i; amount := a; type := expense;
     date := "2026-01-01"; category_id := "food"; category := None;
     description := Some d; mood := None; tags := [];
     notes := None; created_at := "2026-01-01T00:00:00.000Z";
     updated_at := "2026-01-01T00:00:00.000Z"; user_id := None |}.

Definition three_world : World :=
  let w := (createTransaction (clear_transaction 10 "coffee") None world).2 in
  let w := (createTransaction (clear_transaction 20 "books") None w).2 in
  let w := (createTransaction (clear_transaction 30 "rent") None w).2 in
  (setState
     (Store.setTransactions
        [stored_transaction "id-0" 10 "coffee";
         stored_transaction "id-1" 20 "books";
         stored_transaction "id-2" 30 "rent"]) w).2.

(** The updates of the listed rows time out. *)
Definition timeout_on (ids : list string) (r : Request) : option string :=
  match r with
  | UpdateTransaction i _ _ =>
      if bool_decide (i ∈ ids) then Some "timeout" else None
  | _ => None
  end.

Definition failing (ids : list string) (w : World) : World :=
  {| remote := remote w; sent := sent w; fault := timeout_on ids;
     rng := rng w; clock := clock w; readings := readings w;
     app := app w |}.

(** Keys of the toy cipher: the n-th generated key is 32 bytes of the
    value [n]; every key is extractable; a raw key has 16, 24 or 32
    bytes; a derived key is the password bytes masked with the salt. *)
#[export] Instance keys : KeyPlatform := {|
  subtle_generateKey := fun n =>
    repeat (default x00 (Byte.of_nat (n mod 256))) 32;
  subtle_exportKey := fun k => Some k;
  subtle_importKey := fun raw =>
    if bool_decide (length raw ∈ [16; 24; 32]%nat) then Some raw else None;
  subtle_deriveKey := fun pw salt _ _ => (mask salt [x2a] pw ++ salt)%list
|}.

#[export] Instance client_library : ClientLibrary := {|
  createClient_accepts := fun c =>
    negb (String.eqb (url c) "") && negb (String.eqb (anonKey c) "")
|}.

(** A browser in which nothing happened yet, and a wizard at its second
    step with the connection tested. *)
Definition browser : Browser :=
  {| store := Store.initial; random := rng world; generatedKeys := 0;
     supabaseInstance := None; downloads := [] |}.

Definition wizard (mode : EncryptionType) (pw : string) : Wizard :=
  {| step := 2; wizard_loading := false; wizard_error := "";
     supabaseUrl := "https://project.supabase.co"; supabaseKey := "anon";
     connectionTested := true; encryptionType := mode;
     masterPassword := pw; confirmPassword := pw;
     generatedKey := ""; keyDownloaded := false |}.

Definition typed (pw : string) : UnlockDialog :=
  {| unlock_password := pw; unlock_keyString := "";
     unlock_loading := false; unlock_error := "" |}.

(** The sample world as a site, with no goal and no failing query. *)
Definition site : Site :=
  Build_Site world ∅ [] (fun _ => None).

Definition two_purchases : list NewTransaction :=
  [clear_transaction 10 "coffee"; clear_transaction 20 "books"].

(** The row of the lunch as it is stored in [converting_world]. *)
Definition stored_lunch : Row :=
  Eval vm_compute in
    default (new_row ("", "", "") expense empty_payload)
      (transactions_table (remote converting_world) !! "id-0").


(** [Number.prototype.toString], [parseFloat] and [toLowerCase] of the
    sample: a finite number is printed by its exact decimal expansion,
    an optionally negative decimal numeral is read at the start of the
    text, and the letters A to Z are lowered. *)
#[export] Instance number_text : NumberText := {|
  Number_toString := fun x =>
    match Prim2SF x with
    | S754_nan => "NaN"
    | S754_infinity neg => if neg then "-Infinity" else "Infinity"
    | _ => show_number x
    end
|}.

Definition lower_case_letter (c : ascii) : ascii :=
  let n := nat_of_ascii c in
  if (65 <=? n)%nat && (n <=? 90)%nat then ascii_of_nat (n + 32) else c.

Fixpoint lower_case (s : string) : string :=
  match s with
  | EmptyString => EmptyString
  | String c rest => String (lower_case_letter c) (lower_case rest)
  end.

#[export] Instance text_platform : TextPlatform := {|
  parseFloat := fun t =>
    match read_number (JsString.trimStart t) with
    | Some (x, _) => x
    | None => nan
    end;
  String_toLowerCase := lower_case
|}.

(** A store with one category, the import dialog with given rows, and
    two typed rows, the second with an amount that is no number. *)
Definition food : Category :=
  {| cat_id := "food"; cat_name := "Food"; cat_icon := "";
     cat_color := ""; cat_type := expense;
     cat_created_at := "2026-01-01T00:00:00.000Z" |}.

Definition shop_world : World :=
  (setState (Store.setCategories [food]) world).2.

Definition bulk_dialog (rows : list BulkTransactionRow) : BulkDialog :=
  {| bulk_rows := rows; bulk_loading := false; bulk_error := "";
     successCount := 0; reset_scheduled := false |}.

Definition typed_rows : list BulkTransactionRow :=
  [{| bulk_date := "2026-01-02"; bulk_type := expense;
      bulk_amount := "12.5"; bulk_category := "food";
      bulk_description := "bread"; bulk_mood := "happy" |};
   {| bulk_date := "2026-01-03"; bulk_type := expense;
      bulk_amount := "abc"; bulk_category := "food";
      bulk_description := "milk"; bulk_mood := "" |}].

End Sample.

(** ** Vocabulary of the properties *)

(** One bit of one character of a text flipped: bit [b] (0 to 7) of the
    character at position [i]. *)
Definition flip_bit_of (b : nat) (c : ascii) : ascii :=
  ascii_of_N (N.lxor (N_of_ascii c) (2 ^ N.of_nat b)).

Fixpoint flip_bit (i b : nat) (s : string) : string :=
  match s, i with
  | EmptyString, _ => EmptyString
  | String c rest, O => String (flip_bit_of b c) rest
  | String c rest, S i' => String c (flip_bit i' b rest)
  end.

(** The session is locked: encryption is enabled and no key is held. *)
Definition locked `{WP : WebPlatform} (s : Store.AppState) : Prop :=
  (exists config, Store.encryptionConfig s = Some config
                  /\ enabled config = true)
  /\ Store.encryptionKey s = None.

(** A stored row carries the clear sensitive fields, or the envelope. *)
Definition has_clear (r : Row) : bool :=
  bool_decide (is_Some (row_amount r))
  || bool_decide (is_Some (row_description r))
  || bool_decide (is_Some (row_notes r)).

Definition has_envelope (r : Row) : bool :=
  bool_decide (is_Some (row_encrypted_data r))
  || bool_decide (is_Some (row_iv r)).

Definition exclusive (r : Row) : bool :=
  negb (has_clear r && has_envelope r).

(** The object [updateTransaction] sends when it is given no key. *)
Definition clear_update (updates : PartialTransaction) : Payload :=
  add_clear (plain_updates updates) updates.

(** The same for the object a write sends. *)
Definition sets_clear (p : Payload) : bool :=
  bool_decide (is_Some (set_amount p))
  || bool_decide (is_Some (set_description p))
  || bool_decide (is_Some (set_notes p)).

Definition sets_envelope (p : Payload) : bool :=
  bool_decide (is_Some (set_encrypted_data p))
  || bool_decide (is_Some (set_iv p)).

Definition exclusive_payload (p : Payload) : bool :=
  negb (sets_clear p && sets_envelope p).

Definition exclusive_write (r : Request) : bool :=
  match r with
  | InsertTransaction p | UpdateTransaction _ p _ => exclusive_payload p
  | _ => true
  end.

(** What [createTransaction] sends: one insert, with the envelope and no
    clear sensitive column when it has a key, with the clear columns
    and no envelope when it has none. *)
Definition create_payload `{WP : WebPlatform} (tx : NewTransaction)
    (encryptionKey : option CryptoKey) (p : Payload) : Prop :=
  set_type p = Some (new_type tx)
  /\ match encryptionKey with
     | Some _ =>
         sets_clear p = false
         /\ is_Some (set_encrypted_data p) /\ is_Some (set_iv p)
     | None =>
         sets_envelope p = false
         /\ set_amount p = Some (new_amount tx)
         /\ set_description p = new_description tx
         /\ set_notes p = new_notes tx
     end.

(** The per-record update of the currency rewrite, for a converted
    transaction and the clock reading it was built at. *)
Definition update_request (now : string) (t : Transaction) : Request :=
  UpdateTransaction (id t) (amount_payload (amount t) now) false.

(** The batch: one update per transaction, the n-th built at the n-th
    clock reading from [start]. *)
Fixpoint update_requests (clock : nat -> string) (start : nat)
    (ts : list Transaction) : list Request :=
  match ts with
  | [] => []
  | t :: rest =>
      update_request (clock start) t :: update_requests clock (S start) rest
  end.

(** The answers to a batch of requests and the tables after it: a request
    the oracle fails answers the error and changes nothing, the others are
    served in turn. *)
Fixpoint serve_batch (fault : Request -> option string) (reqs : list Request)
    (db : Supabase) : list Response * Supabase :=
  match reqs with
  | [] => ([], db)
  | r :: rest =>
      match fault r with
      | Some message =>
          let '(answers, db') := serve_batch fault rest db in
          (Failed message :: answers, db')
      | None =>
          let '(answer, db1) := serve r db in
          let '(answers, db') := serve_batch fault rest db1 in
          (answer :: answers, db')
      end
  end.

(** How many requests of a batch the store accepted, and how many it
    failed. *)
Definition accepted (fault : Request -> option string)
    (reqs : list Request) : nat :=
  length (filter (fun r => fault r = None) reqs).

Definition refused (fault : Request -> option string)
    (reqs : list Request) : nat :=
  length (filter (fun r => is_Some (fault r)) reqs).

(** The world after a batch was awaited, and after [n] clock readings. *)
Definition after_batch `{WP : WebPlatform} (reqs : list Request) (w : World)
  : World :=
  {| remote := (serve_batch (fault w) reqs (remote w)).2;
     sent := sent w ++ reqs; fault := fault w; rng := rng w;
     clock := clock w; readings := readings w; app := app w |}.

Definition after_readings `{WP : WebPlatform} (n : nat) (w : World) : World :=
  {| remote := remote w; sent := sent w; fault := fault w; rng := rng w;
     clock := clock w; readings := (readings w + n)%nat; app := app w |}.

(** The request that records the new currency in [user_settings]. *)
Definition settings_request `{WP : WebPlatform} (newCurrency : string)
    (w : World) : Request :=
  UpdateUserSettings (us_id <$> Store.settings (app w)) newCurrency
    (clock w (readings w)).

(** The world after the currency service has recorded the new currency:
    one clock reading, the settings request (served unless it fails), and
    the store holding the given transactions and the new currency. *)
Definition settled `{WP : WebPlatform} (newCurrency : string)
    (f : Store.AppState -> Store.AppState) (w : World) : World :=
  let r := settings_request newCurrency w in
  {| remote := match fault w r with
               | Some _ => remote w
               | None => (serve r (remote w)).2
               end;
     sent := sent w ++ [r]; fault := fault w; rng := rng w;
     clock := clock w; readings := S (readings w);
     app := Store.setCurrency newCurrency (f (app w)) |}.

(** The batch of updates the currency rewrite sends in a world. *)
Definition rewrite_batch `{WP : WebPlatform} (rate : float) (w : World)
  : list Request :=
  update_requests (clock w) (readings w)
    (convertTransactionsCurrency (Store.transactions (app w)) rate).

(** The message of the first request of a batch the oracle fails. *)
Fixpoint first_fault (fault : Request -> option string)
    (reqs : list Request) : option string :=
  match reqs with
  | [] => None
  | r :: rest =>
      match fault r with
      | Some message => Some message
      | None => first_fault fault rest
      end
  end.

(** Two transactions agree on every field but [amount]. *)
Definition same_but_amount (t t' : Transaction) : Prop :=
  id t' = id t /\ type t' = type t /\ date t' = date t
  /\ category_id t' = category_id t /\ category t' = category t
  /\ description t' = description t /\ mood t' = mood t
  /\ tags t' = tags t /\ notes t' = notes t
  /\ created_at t' = created_at t /\ updated_at t' = updated_at t
  /\ user_id t' = user_id t.

(** Two rows agree on every column but [amount] and [updated_at]. *)
Definition same_but_amount_and_updated_at (r r' : Row) : Prop :=
  row_id r' = row_id r /\ row_type r' = row_type r
  /\ row_date r' = row_date r /\ row_category_id r' = row_category_id r
  /\ row_mood r' = row_mood r /\ row_tags r' = row_tags r
  /\ row_description r' = row_description r /\ row_notes r' = row_notes r
  /\ row_encrypted_data r' = row_encrypted_data r /\ row_iv r' = row_iv r
  /\ row_created_at r' = row_created_at r
  /\ row_category r' = row_category r.

(** The text the dialog shows for a rate it rejects. *)
Definition invalid_rate_text : string :=
  "Please enter a valid conversion rate greater than 0".

(** The requests of the currency rewrite: an update that sets the clear
    amount and [updated_at] and no envelope column, or the update of
    [user_settings]. *)
Definition rewrite_request (r : Request) : Prop :=
  match r with
  | UpdateTransaction _ p _ =>
      is_Some (set_amount p) /\ sets_envelope p = false
  | UpdateUserSettings _ _ _ => True
  | _ => False
  end.

(** [result] is the double [x] rounded to two decimals, half away from
    zero: for a finite [x = (-1)^s * m * 2^e] below [10^21] in magnitude,
    the double nearest to [n / 100], with the sign of [x], where [n] is
    the integer nearest to [100 * m * 2^e], the larger one on a tie; a
    larger [x] is an integer and is its own rounding, as are the
    infinities and NaN; a zero gives [+0]. *)
Definition rounds_to_cents (x result : float) : Prop :=
  match Prim2SF x with
  | S754_finite neg m e =>
      if JsNumber.at_least_1e21 m e then 0 <= e /\ result = x
      else
        let n := JsNumber.nearest_scaled 2 m e in
        result = JsNumber.nearest_double neg n 2
        /\ (100 * JsNumber.magnitude m e - (1 # 2) < inject_Z n)%Q
        /\ (inject_Z n <= 100 * JsNumber.magnitude m e + (1 # 2))%Q
  | S754_zero _ => result = 0%float
  | _ => result = x
  end.

(** A character of a base64 text that is neither white space nor the
    padding. *)
Definition plain (c : ascii) : Prop :=
  Base64.is_whitespace c = false /\ c <> "="%char.

(** [sends Q R m]: whatever the world, the requests [m] sends all satisfy
    [Q] (the requests sent before stay recorded), and a value [m] returns
    satisfies [R]. *)
Definition sends `{WP : WebPlatform} {A : Type} (Q : Request -> Prop)
    (R : A -> Prop) (m : M A) : Prop :=
  forall w, exists news,
    sent (m w).2 = sent w ++ news
    /\ Forall Q news
    /\ forall a, (m w).1 = Normal a -> R a.

(** What the callback of [data.map] in [fetchTransactions] gives for a
    row under a key: the row with the decrypted fields when it carries
    an envelope, the row itself otherwise. *)
Definition read_row `{WP : WebPlatform} `{JS : Json SensitiveFields}
    (k : CryptoKey) (t : Row) : Completion Row :=
  if truthy_string (row_encrypted_data t) && truthy_string (row_iv t) then
    match decrypt (default "" (row_encrypted_data t))
            (default "" (row_iv t)) k with
    | Normal decrypted =>
        Normal (with_sensitive t (sens_amount decrypted)
                  (sens_description decrypted) (sens_notes decrypted))
    | Throw e => Throw e
    end
  else Normal t.

(** The sensitive object [createTransaction] encrypts. *)
Definition sensitive_of (tx : NewTransaction) : SensitiveFields :=
  {| sens_amount := Some (new_amount tx);
     sens_description := new_description tx;
     sens_notes := new_notes tx |}.

(** The platform reads back what it encrypts of [fields] under [k] with
    the next nonce of [g]: decryption inverts encryption there, the
    ciphertext is not empty, and the text survives JSON and UTF-8. *)
Definition reads_back `{WP : WebPlatform} {A : Type} `{JA : Json A}
    (k : CryptoKey) (g : Rng) (fields : A) : Prop :=
  let nonce := (getRandomValues IV_LENGTH g).1 in
  let encoded := TextEncoder_encode (JSON_stringify fields) in
  subtle_decrypt k nonce (subtle_encrypt k nonce encoded) = Some encoded
  /\ subtle_encrypt k nonce encoded <> []
  /\ JSON_parse (TextDecoder_decode encoded) = Some fields.

(** The object [updateTransaction] encrypts under a key: each sensitive
    property from [updates] when it is there, from the decrypted current
    record otherwise ([0] and [""] when that has none). *)
Definition merged_fields (old : SensitiveFields)
    (updates : PartialTransaction) : SensitiveFields :=
  {| sens_amount :=
       Some (default (default 0%float (sens_amount old))
               (upd_amount updates));
     sens_description :=
       Some (default (default "" (sens_description old))
               (upd_description updates));
     sens_notes :=
       Some (default (default "" (sens_notes old)) (upd_notes updates)) |}.

(** [updates] carries a truthy sensitive value. *)
Definition has_truthy_sensitive (updates : PartialTransaction) : bool :=
  truthy_number (upd_amount updates)
  || truthy_string (upd_description updates)
  || truthy_string (upd_notes updates).

(** The record a transaction is inserted as, from the random source:
    what [createTransaction] and [batchCreateTransactions] build. *)
Definition payload_of `{WP : WebPlatform} `{JS : Json SensitiveFields}
    (tx : NewTransaction) (encryptionKey : option CryptoKey) (g : Rng)
  : Payload * Rng :=
  match encryptionKey with
  | Some k =>
      let '(envelope, g') := encrypt (sensitive_of tx) k g in
      ({| set_type := Some (new_type tx);
          set_date := Some (new_date tx);
          set_category_id := Some (new_category_id tx);
          set_mood := new_mood tx;
          set_tags := Some (new_tags tx);
          set_amount := None; set_description := None; set_notes := None;
          set_encrypted_data := Some (encrypted_data envelope);
          set_iv := Some (iv envelope);
          set_updated_at := None |}, g')
  | None =>
      ({| set_type := Some (new_type tx);
          set_date := Some (new_date tx);
          set_category_id := Some (new_category_id tx);
          set_mood := new_mood tx;
          set_tags := Some (new_tags tx);
          set_amount := Some (new_amount tx);
          set_description := new_description tx;
          set_notes := new_notes tx;
          set_encrypted_data := None; set_iv := None;
          set_updated_at := None |}, g)
  end.

Fixpoint payloads_of `{WP : WebPlatform} `{JS : Json SensitiveFields}
    (txs : list NewTransaction) (encryptionKey : option CryptoKey)
    (g : Rng) : list Payload * Rng :=
  match txs with
  | [] => ([], g)
  | tx :: rest =>
      let '(p, g1) := payload_of tx encryptionKey g in
      let '(ps, g2) := payloads_of rest encryptionKey g1 in
      (p :: ps, g2)
  end.

Definition set_rng `{WP : WebPlatform} (g : Rng) (w : World) : World :=
  {| remote := remote w; sent := sent w; fault := fault w; rng := g;
     clock := clock w; readings := readings w; app := app w |}.

(** A returned row carries the sensitive values of the transaction it
    was created from. *)
Definition carries (tx : NewTransaction) (row : Row) : Prop :=
  row_amount row = Some (new_amount tx)
  /\ row_description row = new_description tx
  /\ row_notes row = new_notes tx.

(** Reading comma-separated text back: records end at a line feed,
    fields at a comma; a field that opens with a double quote runs to
    the closing one, two double quotes inside it standing for one. *)
Inductive CsvState : Type :=
| FieldStart       (* nothing of the field read yet *)
| Unquoted         (* inside a field that did not open with a quote *)
| Quoted           (* inside a quoted field *)
| QuoteSeen.       (* a quote read inside a quoted field *)

(** [field] and [record] hold what was read of the current field and
    record, last first. *)
Fixpoint read_csv_from (st : CsvState) (field : list ascii)
    (record : list string) (s : string) : list (list string) :=
  let close := rev (string_of_list_ascii (rev field) :: record) in
  match s with
  | EmptyString => [close]
  | String c rest =>
      match st with
      | Quoted =>
          if Ascii.eqb c CsvExport.quote
          then read_csv_from QuoteSeen field record rest
          else read_csv_from Quoted (c :: field) record rest
      | QuoteSeen =>
          if Ascii.eqb c CsvExport.quote
          then read_csv_from Quoted (c :: field) record rest
          else if Ascii.eqb c CsvExport.comma
          then read_csv_from FieldStart []
                 (string_of_list_ascii (rev field) :: record) rest
          else if Ascii.eqb c CsvExport.newline
          then close :: read_csv_from FieldStart [] [] rest
          else read_csv_from Unquoted (c :: field) record rest
      | FieldStart | Unquoted =>
          if Ascii.eqb c CsvExport.comma
          then read_csv_from FieldStart []
                 (string_of_list_ascii (rev field) :: record) rest
          else if Ascii.eqb c CsvExport.newline
          then close :: read_csv_from FieldStart [] [] rest
          else match st with
               | FieldStart =>
                   if Ascii.eqb c CsvExport.quote
                   then read_csv_from Quoted field record rest
                   else read_csv_from Unquoted (c :: field) record rest
               | _ => read_csv_from Unquoted (c :: field) record rest
               end
      end
  end.

Definition read_csv (s : string) : list (list string) :=
  read_csv_from FieldStart [] [] s.

(** What the reader does at the end of a field, whatever its state
    outside quotes, and the texts a field can end before. *)
Definition finish_field (field : list ascii) (record : list string)
    (tail : string) : list (list string) :=
  read_csv_from Unquoted field record tail.

Definition ends_field (tail : string) : Prop :=
  tail = EmptyString
  \/ (exists rest, tail = String CsvExport.comma rest)
  \/ (exists rest, tail = String CsvExport.newline rest).

(** A text [escapeCSVField] leaves as it is. *)
Definition plain_text (s : string) : Prop :=
  JsString.includes s CsvExport.comma = false
  /\ JsString.includes s CsvExport.newline = false
  /\ JsString.includes s CsvExport.quote = false.

(** The browser in a later session: the store is what [persist]
    restores. *)
Definition later_session `{KP : KeyPlatform} (b : Browser) : Browser :=
  with_store (fun s => Store.rehydrate (Store.partialize s)) b.

(** What the loop did when it created [n] transactions. *)
Definition imported `{WP : WebPlatform} (n : nat) (w w' : World) : Prop :=
  length (Store.transactions (app w'))
  = (length (Store.transactions (app w)) + n)%nat
  /\ size (transactions_table (remote w'))
     = (size (transactions_table (remote w)) + n)%nat.

(** The texts of the nine fields [exportTransactionsAsCSV] writes for a
    transaction. *)
Definition exported_fields `{NT : NumberText} (categories : list Category)
    (currency : string) (t : Transaction) : list string :=
  map CsvExport.String_of (CsvExport.row_of categories currency t).

(** The row the import dialog holds for an exported transaction: the
    first six columns of the export, trimmed, under the names of the
    import. *)
Definition reimported `{NT : NumberText} (categories : list Category)
    (currency : string) (t : Transaction) : option BulkTransactionRow :=
  let date_text := JsString.trim (date t) in
  let amount_text := JsString.trim (Number_toString (amount t)) in
  if negb (String.eqb date_text "") && negb (String.eqb amount_text "")
  then Some {| bulk_date := date_text;
               bulk_type := type t;
               bulk_amount := amount_text;
               bulk_category := JsString.trim currency;
               bulk_description :=
                 JsString.trim (CsvExport.categoryName categories t);
               bulk_mood :=
                 JsString.trim (CsvExport.or_empty (description t)) |}
  else None.

(** * Properties *)

(** ** Base64 *)

Section Base64Facts.

Import Base64.
Local Open Scope N_scope.


Lemma triple_ind (A : Type) (P : list A -> Prop) :
  P [] -> (forall a, P [a]) -> (forall a b, P [a; b]) ->
  (forall a b c l, P l -> P (a :: b :: c :: l)) ->
  forall l, P l.
Proof.
  intros H0 H1 H2 H3.
  assert (H : forall l, P l /\ (forall a, P (a :: l)) /\ (forall a b, P (a :: b :: l))).
  { induction l as [|x l (IH0 & IH1 & IH2)]; repeat split; auto. }
  intro l. apply H.
Qed.

Lemma decode_encode_nat (n : nat) :
  (n < 64)%nat -> decode_char (encode_sextet (N.of_nat n)) = Some (N.of_nat n).
Proof.
  intro H. do 64 (destruct n as [|n]; [reflexivity|]). lia.
Qed.

Lemma decode_encode_sextet (i : N) :
  i < 64 -> decode_char (encode_sextet i) = Some i.
Proof.
  intro H. rewrite <- (N2Nat.id i). apply decode_encode_nat. lia.
Qed.

Lemma decode_char_plain (c : ascii) (i : N) :
  decode_char c = Some i -> is_whitespace c = false /\ c <> "="%char.
Proof.
  destruct c as [[] [] [] [] [] [] [] []]; vm_compute; intro H;
    first [discriminate H | split; [reflexivity | discriminate]].
Qed.

Lemma to_sextets_bounded (bs : list ascii) :
  Forall (fun i => i < 64) (to_sextets bs).
Proof.
  induction bs as [|a|a b|a b c l IH] using triple_ind; simpl.
  - constructor.
  - pose proof (N_ascii_bounded a).
    repeat constructor; zify; Z.to_euclidean_division_equations; lia.
  - pose proof (N_ascii_bounded a). pose proof (N_ascii_bounded b).
    repeat constructor; zify; Z.to_euclidean_division_equations; lia.
  - pose proof (N_ascii_bounded a). pose proof (N_ascii_bounded b).
    pose proof (N_ascii_bounded c).
    repeat (constructor; [zify; Z.to_euclidean_division_equations; lia|]).
    exact IH.
Qed.

Ltac n_arith := zify; Z.to_euclidean_division_equations; lia.

Lemma ascii_of_code (a : ascii) (x : N) : x = N_of_ascii a -> ascii_of_N x = a.
Proof. intros ->. apply ascii_N_embedding. Qed.

Lemma of_to_sextets (bs : list ascii) : of_sextets (to_sextets bs) = bs.
Proof.
  induction bs as [|a|a b|a b c l IH] using triple_ind;
    cbn [to_sextets of_sextets].
  - reflexivity.
  - pose proof (N_ascii_bounded a).
    f_equal. apply ascii_of_code. n_arith.
  - pose proof (N_ascii_bounded a). pose proof (N_ascii_bounded b).
    f_equal; [|f_equal]; apply ascii_of_code; n_arith.
  - pose proof (N_ascii_bounded a). pose proof (N_ascii_bounded b).
    pose proof (N_ascii_bounded c).
    rewrite IH.
    f_equal; [|f_equal; [|f_equal]]; apply ascii_of_code; n_arith.
Qed.

Lemma sextets_of_encode (l : list N) :
  Forall (fun i => i < 64) l -> sextets_of (map encode_sextet l) = Some l.
Proof.
  induction 1 as [|i l Hi _ IH]; simpl; [reflexivity|].
  rewrite (decode_encode_sextet i Hi), IH. reflexivity.
Qed.

Lemma length_to_sextets (bs : list ascii) :
  (length (to_sextets bs) + length (padding (length bs))
   = 4 * ((length bs + 2) / 3))%nat
  /\ (length (to_sextets bs) mod 4 <> 1)%nat.
Proof.
  induction bs as [|a|a b|a b c l [IH1 IH2]] using triple_ind.
  - split; [reflexivity | discriminate].
  - split; [reflexivity | discriminate].
  - split; [reflexivity | discriminate].
  - cbn [to_sextets length]. split.
    + replace (padding (S (S (S (length l))))) with (padding (length l)).
      * replace ((S (S (S (length l))) + 2) / 3)%nat
          with (S ((length l + 2) / 3))%nat; [lia|].
        replace (S (S (S (length l))) + 2)%nat
          with (1 * 3 + (length l + 2))%nat by lia.
        rewrite Nat.div_add_l by lia. lia.
      * unfold padding.
        replace (S (S (S (length l)))) with (length l + 1 * 3)%nat by lia.
        rewrite Nat.Div0.mod_add. reflexivity.
    + replace (S (S (S (S (length (to_sextets l))))))
        with (length (to_sextets l) + 1 * 4)%nat by lia.
      rewrite Nat.Div0.mod_add. exact IH2.
Qed.

Lemma encode_plain (l : list N) :
  Forall (fun i => i < 64) l -> Forall plain (map encode_sextet l).
Proof.
  induction 1 as [|i l Hi _ IH]; simpl; constructor; [|exact IH].
  exact (decode_char_plain _ _ (decode_encode_sextet i Hi)).
Qed.

Lemma filter_plain (cs pad : list ascii) :
  Forall plain cs -> Forall (fun c => is_whitespace c = false) pad ->
  filter (fun c => negb (is_whitespace c)) (cs ++ pad) = cs ++ pad.
Proof.
  intros Hcs Hpad.
  assert (H : Forall (fun c => is_whitespace c = false) (cs ++ pad)).
  { apply Forall_app. split; [|exact Hpad].
    eapply Forall_impl; [exact Hcs|]. intros c [Hc _]. exact Hc. }
  induction H as [|c l Hc _ IH]; [reflexivity|].
  rewrite filter_cons. rewrite Hc. simpl. f_equal. exact IH.
Qed.

Lemma not_padding_head (c : ascii) (r cs : list ascii) :
  c <> "="%char ->
  match c :: r with
  | "="%char :: "="%char :: r' => rev r'
  | "="%char :: r' => rev r'
  | _ => cs
  end = cs.
Proof.
  intro Hc.
  destruct c as [[] [] [] [] [] [] [] []]; try reflexivity.
  contradiction Hc. reflexivity.
Qed.

Lemma one_padding (c : ascii) (r : list ascii) (cs : list ascii) :
  c <> "="%char ->
  match "="%char :: c :: r with
  | "="%char :: "="%char :: r' => rev r'
  | "="%char :: r' => rev r'
  | _ => cs
  end = rev (c :: r).
Proof.
  intro Hc.
  destruct c as [[] [] [] [] [] [] [] []]; try reflexivity.
  contradiction Hc. reflexivity.
Qed.

Lemma rev_head_plain (cs : list ascii) (c : ascii) (r : list ascii) :
  Forall plain cs -> rev cs = c :: r -> c <> "="%char.
Proof.
  intros H E.
  assert (Hin : In c cs).
  { apply in_rev. rewrite E. left. reflexivity. }
  rewrite Forall_forall in H.
  apply list_elem_of_In in Hin. exact (proj2 (H c Hin)).
Qed.

Lemma drop_padding_encode (bs : list ascii) :
  drop_padding (map encode_sextet (to_sextets bs) ++ padding (length bs))
  = map encode_sextet (to_sextets bs).
Proof.
  pose proof (encode_plain _ (to_sextets_bounded bs)) as Hplain.
  destruct (length_to_sextets bs) as [Hlen _].
  unfold drop_padding.
  rewrite length_app, length_map, Hlen.
  replace (4 * ((length bs + 2) / 3))%nat
    with (((length bs + 2) / 3) * 4)%nat by lia.
  rewrite Nat.Div0.mod_mul. cbn [Nat.eqb].
  rewrite rev_app_distr.
  set (body := map encode_sextet (to_sextets bs)) in *.
  unfold padding.
  destruct (length bs mod 3)%nat as [|[|[|k]]];
    rewrite ?app_nil_r; simpl (rev _ ++ _).
  - destruct (rev body) as [|c r] eqn:E; [reflexivity|].
    apply not_padding_head. exact (rev_head_plain _ _ _ Hplain E).
  - apply rev_involutive.
  - destruct (rev body) as [|c r] eqn:E.
    + apply (f_equal (@rev ascii)) in E. rewrite rev_involutive in E.
      rewrite E. reflexivity.
    + rewrite (one_padding c r (body ++ ["="%char])
                 (rev_head_plain _ _ _ Hplain E)).
      rewrite <- E. apply rev_involutive.
  - destruct (rev body) as [|c r] eqn:E; [reflexivity|].
    apply not_padding_head. exact (rev_head_plain _ _ _ Hplain E).
Qed.

Lemma padding_not_whitespace (n : nat) :
  Forall (fun c => is_whitespace c = false) (padding n).
Proof.
  unfold padding. destruct (n mod 3)%nat as [|[|[|k]]]; repeat constructor.
Qed.

Theorem atob_btoa (s : string) : atob (btoa s) = Some s.
Proof.
  unfold atob, btoa.
  rewrite list_ascii_of_string_of_list_ascii.
  set (bs := list_ascii_of_string s).
  rewrite filter_plain;
    [| exact (encode_plain _ (to_sextets_bounded bs))
     | exact (padding_not_whitespace _)].
  rewrite drop_padding_encode, length_map.
  destruct (length_to_sextets bs) as [_ Hmod].
  destruct (Nat.eqb_spec (length (to_sextets bs) mod 4) 1) as [E|_];
    [contradiction|].
  rewrite (sextets_of_encode _ (to_sextets_bounded bs)), of_to_sextets.
  unfold bs. rewrite string_of_list_ascii_of_string. reflexivity.
Qed.

Theorem base64ToArrayBuffer_arrayBufferToBase64 (buffer : list byte) :
  base64ToArrayBuffer (arrayBufferToBase64 buffer) = Some buffer.
Proof.
  unfold base64ToArrayBuffer, arrayBufferToBase64.
  rewrite atob_btoa, list_byte_of_string_of_list_byte. reflexivity.
Qed.
End Base64Facts.


(** ** JavaScript numbers *)

Section NumberFacts.

Import JsNumber.

Lemma nearest_scaled_bounds (f : Z) (m : positive) (e : Z) :
  0 <= f ->
  let n := nearest_scaled f m e in
  (inject_Z (10 ^ f) * magnitude m e - (1 # 2) < inject_Z n
   /\ inject_Z n <= inject_Z (10 ^ f) * magnitude m e + (1 # 2))%Q.
Proof.
  intros Hf n. unfold n, nearest_scaled, magnitude.
  assert (Hp : 0 < 10 ^ f) by (apply Z.pow_pos_nonneg; lia).
  destruct (Z.leb_spec 0 e) as [He|He].
  - assert (H2 : 0 < 2 ^ e) by (apply Z.pow_pos_nonneg; lia).
    unfold Qlt, Qle, Qminus, Qplus, Qmult, Qopp, inject_Z. simpl.
    split; nia.
  - assert (H2 : 0 < 2 ^ (- e)) by (apply Z.pow_pos_nonneg; lia).
    replace (- e + 1) with (Z.succ (- e)) by lia.
    rewrite Z.pow_succ_r by lia.
    set (d := 2 ^ (- e)) in *.
    set (a := 2 * 10 ^ f * Z.pos m + d).
    assert (Hd : Z.pos (Z.to_pos d) = d) by (apply Z2Pos.id; exact H2).
    pose proof (Z.mul_div_le a (2 * d) ltac:(lia)) as Hle.
    pose proof (Z.mul_succ_div_gt a (2 * d) ltac:(lia)) as Hgt.
    unfold Qlt, Qle, Qminus, Qplus, Qmult, Qopp, inject_Z. simpl.
    rewrite ?Pos2Z.inj_mul, ?Hd.
    unfold a in *. split; nia.
Qed.

Lemma digits2_pos_bound (m : positive) :
  Z.pos m < 2 ^ Z.pos (digits2_pos m).
Proof.
  induction m as [m IH|m IH|]; cbn [digits2_pos];
    rewrite ?Pos2Z.inj_succ, ?Z.pow_succ_r by lia; lia.
Qed.

(** A double of magnitude [10^21] or more has a non-negative exponent:
    it is an integer. *)
Lemma large_double_is_integer (x : float) (neg : bool) (m : positive)
    (e : Z) :
  Prim2SF x = S754_finite neg m e -> at_least_1e21 m e = true -> 0 <= e.
Proof.
  intros E H. pose proof (Prim2SF_valid x) as Hv. rewrite E in Hv.
  unfold SpecFloat.valid_binary, bounded, canonical_mantissa in Hv.
  apply andb_prop in Hv as [Hc _]. apply Z.eqb_eq in Hc.
  destruct (Z.leb_spec 0 e) as [He|He]; [exact He|].
  unfold at_least_1e21 in H.
  destruct (Z.leb_spec 0 e) as [He'|_]; [lia|].
  apply Z.leb_le in H.
  pose proof (digits2_pos_bound m) as Hm.
  assert (Hd : Z.pos (digits2_pos m) <= 53).
  { unfold fexp, prec, emax, emin in Hc. lia. }
  assert (H53 : 2 ^ Z.pos (digits2_pos m) <= 2 ^ 53)
    by (apply Z.pow_le_mono_r; lia).
  assert (H1 : 0 < 2 ^ (- e)) by (apply Z.pow_pos_nonneg; lia).
  change (2 ^ 53) with 9007199254740992 in H53.
  change (10 ^ 21) with 1000000000000000000000 in H.
  nia.
Qed.

Lemma SFmul_one_finite (neg : bool) (m : positive) (e : Z) :
  valid_binary (S754_finite neg m e) = true ->
  SF64mul (S754_finite neg m e) (S754_finite false 4503599627370496 (-52))
  = S754_finite neg m e.
Proof.
  unfold SpecFloat.valid_binary, bounded, canonical_mantissa.
  intro H. apply andb_prop in H as [Hc Hb].
  apply Z.eqb_eq in Hc. apply Z.leb_le in Hb.
  unfold SF64mul, SFmul. rewrite xorb_false_r.
  rewrite Pos.mul_comm. cbv [Pos.mul].
  unfold binary_round_aux, shr_fexp.
  cbv [Zdigits2 digits2_pos]. fold digits2_pos.
  set (D := digits2_pos m) in *.
  match goal with
  | |- context [fexp prec emax ?x - ?y] =>
      replace (fexp prec emax x - y) with 52
  end.
  2:{ unfold fexp, prec, emax, emin in *. lia. }
  cbv [shr shr_record_of_loc SpecFloat.iter_pos shr_1 orb].
  cbn [shr_m loc_of_shr_record round_nearest_even].
  replace (e + -52 + 52) with e by lia.
  cbn [Zdigits2]. fold D.
  replace (fexp prec emax (Z.pos D + e) - e) with 0 by lia.
  cbn [shr_m].
  apply Z.leb_le in Hb. rewrite Hb. reflexivity.
Qed.

(** Multiplying by one is exact. *)
Lemma mul_one_r (a : float) : (a * 1)%float = a.
Proof.
  apply Prim2SF_inj. rewrite mul_spec.
  change (Prim2SF 1) with (S754_finite false 4503599627370496 (-52)).
  pose proof (Prim2SF_valid a) as Hv.
  destruct (Prim2SF a) as [neg|neg| |neg m e].
  - simpl. rewrite xorb_false_r. reflexivity.
  - simpl. rewrite xorb_false_r. reflexivity.
  - reflexivity.
  - apply SFmul_one_finite. exact Hv.
Qed.

Lemma Number_toFixed_rounds (x : float) :
  rounds_to_cents x (Number (toFixed x 2)).
Proof.
  unfold rounds_to_cents, toFixed.
  destruct (Prim2SF x) as [neg|neg| |neg m e] eqn:E.
  - reflexivity.
  - apply Prim2SF_inj. rewrite E. destruct neg; reflexivity.
  - apply Prim2SF_inj. rewrite E. reflexivity.
  - destruct (at_least_1e21 m e) eqn:Hbig.
    + split; [exact (large_double_is_integer x neg m e E Hbig)|reflexivity].
    + cbv zeta. split; [reflexivity|].
      exact (nearest_scaled_bounds 2 m e ltac:(lia)).
Qed.

End NumberFacts.

(** ** The envelope *)

Section EnvelopeFacts.

Context `{WP : WebPlatform} {A : Type} `{JA : Json A}.

Lemma length_getRandomValues (n : nat) (g : Rng) :
  length (getRandomValues n g).1 = n.
Proof. unfold getRandomValues. simpl. rewrite length_map, length_seq. reflexivity. Qed.

(** A value comes out of [decrypt] exactly when both texts are base64,
    the platform accepts the decoded bytes under the key, and the
    plaintext is JSON. *)
Lemma decrypt_Normal_iff (ct nonce : string) (k : CryptoKey) (v : A) :
  decrypt ct nonce k = Normal v <->
  exists ctb ivb pt,
    Base64.base64ToArrayBuffer ct = Some ctb
    /\ Base64.base64ToArrayBuffer nonce = Some ivb
    /\ subtle_decrypt k ivb ctb = Some pt
    /\ JSON_parse (TextDecoder_decode pt) = Some v.
Proof.
  unfold decrypt. split.
  - destruct (Base64.base64ToArrayBuffer ct) as [ctb|]; [|discriminate].
    destruct (Base64.base64ToArrayBuffer nonce) as [ivb|]; [|discriminate].
    destruct (subtle_decrypt k ivb ctb) as [pt|] eqn:E; [|discriminate].
    destruct (JSON_parse (TextDecoder_decode pt)) as [v'|] eqn:E';
      [|discriminate].
    intro H. injection H as <-. exists ctb, ivb, pt. auto.
  - intros (ctb & ivb & pt & -> & -> & -> & ->). reflexivity.
Qed.

(** C3. Decrypting what [encrypt] produced, with the same key, gives the
    plaintext back: for a plaintext that survives the JSON and UTF-8
    round trip and a key and nonce on which AES-GCM decryption inverts
    encryption.  The nonce is 12 fresh bytes of the random source, and
    ciphertext and nonce are base64-coded separately. *)
Theorem encrypt_decrypt_roundtrip (p : A) (k : CryptoKey) (g : Rng) :
  let nonce := (getRandomValues IV_LENGTH g).1 in
  let encoded := TextEncoder_encode (JSON_stringify p) in
  subtle_decrypt k nonce (subtle_encrypt k nonce encoded) = Some encoded ->
  JSON_parse (TextDecoder_decode encoded) = Some p ->
  let envelope := (encrypt p k g).1 in
  decrypt (encrypted_data envelope) (iv envelope) k = Normal p
  /\ Base64.base64ToArrayBuffer (iv envelope) = Some nonce
  /\ length nonce = 12%nat
  /\ Base64.base64ToArrayBuffer (encrypted_data envelope)
     = Some (subtle_encrypt k nonce encoded)
  /\ drawn (encrypt p k g).2 = (drawn g + 12)%nat.
Proof.
  intros nonce encoded Hcipher Hjson envelope.
  assert (Hiv : Base64.base64ToArrayBuffer (iv envelope) = Some nonce)
    by apply base64ToArrayBuffer_arrayBufferToBase64.
  assert (Hct : Base64.base64ToArrayBuffer (encrypted_data envelope)
                = Some (subtle_encrypt k nonce encoded))
    by apply base64ToArrayBuffer_arrayBufferToBase64.
  split; [|split; [exact Hiv|split; [|split; [exact Hct|reflexivity]]]].
  - apply decrypt_Normal_iff.
    exists (subtle_encrypt k nonce encoded), nonce, encoded. auto.
  - apply length_getRandomValues.
Qed.

(** C4, as the code has it.  [decrypt] returns a value only when the
    platform's authenticated decryption accepts the bytes the two texts
    decode to; when it rejects them, [decrypt] throws.  The texts count
    only through the bytes they decode to. *)
Theorem decrypt_fails_closed (k : CryptoKey) :
  (forall ct nonce (v : A),
      decrypt ct nonce k = Normal v ->
      exists ctb ivb pt,
        Base64.base64ToArrayBuffer ct = Some ctb
        /\ Base64.base64ToArrayBuffer nonce = Some ivb
        /\ subtle_decrypt k ivb ctb = Some pt)
  /\ (forall ct nonce ctb ivb,
        Base64.base64ToArrayBuffer ct = Some ctb ->
        Base64.base64ToArrayBuffer nonce = Some ivb ->
        subtle_decrypt k ivb ctb = None ->
        decrypt (A:=A) ct nonce k = Throw OperationError)
  /\ (forall ct nonce,
        Base64.base64ToArrayBuffer ct = None
        \/ Base64.base64ToArrayBuffer nonce = None ->
        decrypt (A:=A) ct nonce k = Throw InvalidCharacterError)
  /\ (forall ct ct' nonce nonce',
        Base64.base64ToArrayBuffer ct = Base64.base64ToArrayBuffer ct' ->
        Base64.base64ToArrayBuffer nonce = Base64.base64ToArrayBuffer nonce' ->
        decrypt (A:=A) ct nonce k = decrypt ct' nonce' k).
Proof.
  split; [|split; [|split]].
  - intros ct nonce v H. apply decrypt_Normal_iff in H.
    destruct H as (ctb & ivb & pt & H1 & H2 & H3 & _).
    exists ctb, ivb, pt. auto.
  - intros ct nonce ctb ivb H1 H2 H3. unfold decrypt.
    rewrite H1, H2, H3. reflexivity.
  - intros ct nonce [H|H]; unfold decrypt; rewrite H; [reflexivity|].
    destruct (Base64.base64ToArrayBuffer ct); reflexivity.
  - intros ct ct' nonce nonce' H1 H2. unfold decrypt. rewrite H1, H2.
    reflexivity.
Qed.

End EnvelopeFacts.

Section SampleRuns.

Import Sample.

(** C3 at the sample platform: the record [{ amount: 42.5, description:
    "lunch", notes: "" }] comes back from its envelope. *)
Lemma encrypt_decrypt_roundtrip_sample :
  let envelope := (encrypt lunch secret (rng world)).1 in
  decrypt (encrypted_data envelope) (iv envelope) secret = Normal lunch.
Proof.
  exact (proj1 (encrypt_decrypt_roundtrip lunch secret (rng world)
                  eq_refl eq_refl)).
Defined.

(** C4 as stated fails: bit 3 of the last character before the padding
    of the ciphertext text is flipped ([g] becomes [o]); the text decodes
    to the same bytes, and [decrypt] returns the record. *)
Lemma flipped_bit_still_decrypts :
  let envelope := (encrypt lunch secret (rng world)).1 in
  let tampered := flip_bit 65 3 (encrypted_data envelope) in
  tampered <> encrypted_data envelope
  /\ Base64.base64ToArrayBuffer tampered
     = Base64.base64ToArrayBuffer (encrypted_data envelope)
  /\ decrypt tampered (iv envelope) secret = Normal lunch.
Proof.
  vm_compute. split; [discriminate|]. split; reflexivity.
Qed.

End SampleRuns.

(** ** The store client *)

Section ClientFacts.

Context `{WP : WebPlatform} `{JS : Json SensitiveFields}.

Lemma request_sent (r : Request) (w : World) :
  sent (request r w).2 = sent w ++ [r].
Proof.
  unfold request. destruct (fault w r); [reflexivity|].
  destruct (serve r (remote w)). reflexivity.
Qed.

Lemma request_frame (r : Request) (w : World) :
  let w' := (request r w).2 in
  fault w' = fault w /\ rng w' = rng w /\ clock w' = clock w
  /\ readings w' = readings w /\ app w' = app w.
Proof.
  unfold request. destruct (fault w r); [simpl; auto|].
  destruct (serve r (remote w)). simpl. auto.
Qed.

Lemma request_Normal (r : Request) (w : World) :
  (request r w).1
  = Normal (match fault w r with
            | Some message => Failed message
            | None => (serve r (remote w)).1
            end).
Proof.
  unfold request. destruct (fault w r); [reflexivity|].
  destruct (serve r (remote w)). reflexivity.
Qed.

Lemma request_remote (r : Request) (w : World) :
  remote (request r w).2
  = match fault w r with
    | Some _ => remote w
    | None => (serve r (remote w)).2
    end.
Proof.
  unfold request. destruct (fault w r); [reflexivity|].
  destruct (serve r (remote w)). reflexivity.
Qed.

(** A request that is not a write leaves the tables as they are. *)
Lemma serve_read (r : Request) (db : Supabase) :
  is_write r = false -> (serve r db).2 = db.
Proof.
  destruct r as [|p|i|i p b|i c n]; simpl; try discriminate; intros _;
    [reflexivity|].
  destruct (transactions_table db !! i); reflexivity.
Qed.

Lemma sends_silent {A : Type} (Q : Request -> Prop) (R : A -> Prop)
    (m : M A) :
  (forall w, sent (m w).2 = sent w) ->
  (forall w a, (m w).1 = Normal a -> R a) ->
  sends Q R m.
Proof.
  intros H HR w. exists []. rewrite app_nil_r.
  split; [apply H|]. split; [constructor|apply HR].
Qed.

Lemma sends_ret {A : Type} (Q : Request -> Prop) (R : A -> Prop) (a : A) :
  R a -> sends Q R (ret a).
Proof.
  intro H. apply sends_silent; [reflexivity|].
  intros w a' E. injection E as <-. exact H.
Qed.

Lemma sends_throw {A : Type} (Q : Request -> Prop) (R : A -> Prop)
    (e : JsError) :
  sends Q R (throw e).
Proof. apply sends_silent; [reflexivity|]. discriminate. Qed.

Lemma sends_lift {A : Type} (Q : Request -> Prop) (c : Completion A) :
  sends Q (fun a => c = Normal a) (lift c).
Proof. apply sends_silent; [reflexivity|]. intros w a E. exact E. Qed.

Lemma sends_with_rng {A : Type} (Q : Request -> Prop) (R : A -> Prop)
    (f : Rng -> A * Rng) :
  (forall g, R (f g).1) -> sends Q R (with_rng f).
Proof.
  intro H. apply sends_silent; intro w; unfold with_rng;
    pose proof (H (rng w)) as Hg; destruct (f (rng w)); [reflexivity|].
  intros a' E. injection E as <-. exact Hg.
Qed.

Lemma sends_getState (Q : Request -> Prop) :
  sends Q (fun _ => True) getState.
Proof. apply sends_silent; [reflexivity|]. auto. Qed.

Lemma sends_setState (Q : Request -> Prop) f :
  sends Q (fun _ => True) (setState f).
Proof. apply sends_silent; [reflexivity|]. auto. Qed.

Lemma sends_Date (Q : Request -> Prop) :
  sends Q (fun _ => True) Date_toISOString.
Proof. apply sends_silent; [reflexivity|]. auto. Qed.

Lemma sends_request (Q : Request -> Prop) (r : Request) :
  Q r -> sends Q (fun _ => True) (request r).
Proof.
  intros H w. exists [r]. split; [apply request_sent|].
  split; [|auto]. constructor; [exact H|constructor].
Qed.

Lemma sends_bind {A B : Type} (Q : Request -> Prop) (R : A -> Prop)
    (R' : B -> Prop) (m : M A) (k : A -> M B) :
  sends Q R m -> (forall a, R a -> sends Q R' (k a)) ->
  sends Q R' (bind m k).
Proof.
  intros Hm Hk w. unfold bind.
  destruct (Hm w) as (n1 & E1 & F1 & Ha).
  destruct (m w) as [[a|e] w1]; simpl in E1, Ha.
  - destruct (Hk a (Ha a eq_refl) w1) as (n2 & E2 & F2 & Hb).
    exists (n1 ++ n2). split; [|split].
    + rewrite E2, E1, app_assoc. reflexivity.
    + apply Forall_app; auto.
    + exact Hb.
  - exists n1. split; [exact E1|]. split; [exact F1|]. discriminate.
Qed.

Lemma sends_weaken {A : Type} (Q : Request -> Prop) (R R' : A -> Prop)
    (m : M A) :
  sends Q R m -> (forall a, R a -> R' a) -> sends Q R' m.
Proof.
  intros H HR w. destruct (H w) as (n & E & F & Ha).
  exists n. split; [exact E|]. split; [exact F|]. auto.
Qed.

Lemma sends_all {A B : Type} (Q : Request -> Prop) (R : B -> Prop)
    (f : A -> M B) (l : list A) :
  (forall x, sends Q R (f x)) -> sends Q (Forall R) (all f l).
Proof.
  intro H. induction l as [|x l IH]; simpl.
  - apply sends_ret. constructor.
  - apply (sends_bind Q R); [apply H|]. intros y Hy.
    apply (sends_bind Q (Forall R)); [exact IH|]. intros ys Hys.
    apply sends_ret. constructor; assumption.
Qed.

End ClientFacts.

(** ** lib/services/transactions.ts *)

Section TransactionServiceFacts.

Context `{WP : WebPlatform} `{JS : Json SensitiveFields}.

Lemma updateTransaction_without_key (i : string)
    (updates : PartialTransaction) (w : World) :
  updateTransaction i updates None w
  = let r := UpdateTransaction i (clear_update updates) true in
    match (request r w).1 with
    | Normal (Failed message) =>
        (Throw (PostgrestError message), (request r w).2)
    | Normal (OneRow data) => (Normal data, (request r w).2)
    | Normal _ => (Throw (Error "no data"), (request r w).2)
    | Throw e => (Throw e, (request r w).2)
    end.
Proof.
  unfold updateTransaction, bind, ret, throw, clear_update. simpl.
  destruct (request _ w) as [[resp|e] w']; [|reflexivity].
  destruct resp; reflexivity.
Qed.

Lemma fetchTransactions_without_key (w : World) :
  fetchTransactions None w
  = match (request SelectTransactions w).1 with
    | Normal (Failed message) =>
        (Throw (PostgrestError message), (request SelectTransactions w).2)
    | Normal (Rows data) => (Normal data, (request SelectTransactions w).2)
    | Normal _ => (Normal [], (request SelectTransactions w).2)
    | Throw e => (Throw e, (request SelectTransactions w).2)
    end.
Proof.
  unfold fetchTransactions, bind, ret, throw.
  destruct (request _ w) as [[resp|e] w']; [|reflexivity].
  destruct resp; reflexivity.
Qed.

(** With no key, [updateTransaction] sends one update whose payload
    carries the supplied sensitive properties in clear and no envelope,
    and returns the updated row when the store accepts it. *)
Lemma updateTransaction_without_key_sends_clear (w : World) (i : string)
    (updates : PartialTransaction) :
  let payload := clear_update updates in
  sent (updateTransaction i updates None w).2
  = sent w ++ [UpdateTransaction i payload true]
  /\ set_amount payload = upd_amount updates
  /\ set_description payload = upd_description updates
  /\ set_notes payload = upd_notes updates
  /\ set_encrypted_data payload = None
  /\ set_iv payload = None
  /\ (forall row,
        fault w (UpdateTransaction i payload true) = None ->
        transactions_table (remote w) !! i = Some row ->
        (updateTransaction i updates None w).1
        = Normal (apply_payload payload row)).
Proof.
  intros payload.
  rewrite updateTransaction_without_key. cbv zeta.
  pose proof (request_sent (UpdateTransaction i payload true) w) as Hsent.
  pose proof (request_Normal (UpdateTransaction i payload true) w) as Hres.
  fold payload.
  split; [|split; [|split; [|split; [|split; [|split]]]]].
  - rewrite Hres.
    destruct (fault w _); [exact Hsent|].
    destruct ((serve _ (remote w)).1); exact Hsent.
  - unfold payload, clear_update, add_clear, override. simpl.
    destruct (upd_amount updates); reflexivity.
  - unfold payload, clear_update, add_clear, override. simpl.
    destruct (upd_description updates); reflexivity.
  - unfold payload, clear_update, add_clear, override. simpl.
    destruct (upd_notes updates); reflexivity.
  - reflexivity.
  - reflexivity.
  - intros row Hfault Hrow. rewrite Hres, Hfault. simpl.
    rewrite lookup_alter_eq, Hrow. reflexivity.
Qed.

Lemma elem_of_insert_by_date (x r : Row) (l : list Row) :
  x ∈ insert_by_date r l <-> x = r \/ x ∈ l.
Proof.
  induction l as [|y l IH]; simpl.
  - rewrite list_elem_of_singleton, elem_of_nil. tauto.
  - destruct (String.leb (row_date y) (row_date r)).
    + rewrite elem_of_cons. tauto.
    + rewrite !elem_of_cons, IH. tauto.
Qed.

Lemma elem_of_order_by_date_desc (x : Row) (l : list Row) :
  x ∈ order_by_date_desc l <-> x ∈ l.
Proof.
  unfold order_by_date_desc. induction l as [|y l IH]; simpl.
  - tauto.
  - rewrite elem_of_insert_by_date, elem_of_cons, IH. tauto.
Qed.

(** The rows a select returns are the stored rows, each with its
    category joined, and nothing else. *)
Lemma elem_of_selected (db : Supabase) (row : Row) :
  row ∈ selected db
  <-> exists i stored,
        transactions_table db !! i = Some stored
        /\ row = with_category (categories_table db) stored.
Proof.
  unfold selected.
  rewrite elem_of_order_by_date_desc, list_elem_of_fmap.
  split.
  - intros (stored & -> & Hin).
    apply list_elem_of_fmap in Hin as ([i s] & -> & Hin).
    apply elem_of_map_to_list in Hin. exists i, s. auto.
  - intros (i & stored & Hl & ->). exists stored. split; [reflexivity|].
    apply list_elem_of_fmap. exists (i, stored). split; [reflexivity|].
    apply elem_of_map_to_list. exact Hl.
Qed.

(** C1, as the code has it for reading.  [fetchTransactions] is given
    the key only, and with no key it does not fail for the lack of one:
    it sends the one select, leaves the tables as they are, and returns
    what the select answers.  The rows returned are the stored rows with
    their category joined: the clear columns and the envelope columns of
    each are those of the stored row, undecrypted. *)
Theorem fetch_without_key_returns_stored_rows (w : World) :
  let run := fetchTransactions None w in
  sent run.2 = sent w ++ [SelectTransactions]
  /\ remote run.2 = remote w
  /\ run.1 = match fault w SelectTransactions with
             | Some message => Throw (PostgrestError message)
             | None => Normal (selected (remote w))
             end
  /\ (forall row,
        row ∈ selected (remote w)
        <-> exists i stored,
              transactions_table (remote w) !! i = Some stored
              /\ row = with_category (categories_table (remote w)) stored)
  /\ (forall stored,
        let row := with_category (categories_table (remote w)) stored in
        row_amount row = row_amount stored
        /\ row_description row = row_description stored
        /\ row_notes row = row_notes stored
        /\ row_encrypted_data row = row_encrypted_data stored
        /\ row_iv row = row_iv stored).
Proof.
  cbv zeta. rewrite fetchTransactions_without_key.
  pose proof (request_sent SelectTransactions w) as Hsent.
  pose proof (request_remote SelectTransactions w) as Hremote.
  rewrite (request_Normal SelectTransactions w).
  split; [|split; [|split; [|split]]].
  - destruct (fault w _); exact Hsent.
  - destruct (fault w _); exact Hremote.
  - destruct (fault w _); reflexivity.
  - intro row. apply elem_of_selected.
  - intro stored. simpl. auto.
Qed.

Lemma exclusive_clear_update (updates : PartialTransaction) :
  exclusive_payload (clear_update updates) = true.
Proof.
  unfold exclusive_payload, sets_envelope. simpl.
  rewrite andb_false_r. reflexivity.
Qed.

Lemma create_payload_exclusive tx encryptionKey p :
  create_payload tx encryptionKey p -> exclusive_payload p = true.
Proof.
  intros [_ H]. unfold exclusive_payload.
  destruct encryptionKey; destruct H as [-> _];
    [reflexivity | apply negb_true_iff, andb_false_r].
Qed.

Lemma createTransaction_sends (tx : NewTransaction)
    (encryptionKey : option CryptoKey) :
  sends (fun r => exists p,
             r = InsertTransaction p /\ create_payload tx encryptionKey p)
    (fun _ => True) (createTransaction tx encryptionKey).
Proof.
  unfold createTransaction.
  apply (sends_bind _ (create_payload tx encryptionKey)).
  - destruct encryptionKey as [k|].
    + apply (sends_bind _ (fun _ => True)).
      * apply sends_with_rng. auto.
      * intros envelope _. apply sends_ret.
        split; [reflexivity|]. split; [reflexivity|]. split; eexists; reflexivity.
    + apply sends_ret. repeat split.
  - intros p Hp. apply (sends_bind _ (fun _ => True)).
    + apply sends_request. exists p. auto.
    + intros resp _. destruct resp;
        first [apply sends_throw | apply sends_ret; exact I].
Qed.

Lemma updateTransaction_sends (i : string) (updates : PartialTransaction)
    (encryptionKey : option CryptoKey) :
  sends (fun r => exclusive_write r = true) (fun _ => True)
    (updateTransaction i updates encryptionKey).
Proof.
  unfold updateTransaction.
  apply (sends_bind _ (fun p => exclusive_payload p = true)).
  - destruct encryptionKey as [k|];
      [|apply sends_ret; apply exclusive_clear_update].
    destruct (_ || _); [|apply sends_ret; apply exclusive_clear_update].
    apply (sends_bind _ (fun _ => True)); [apply sends_request; reflexivity|].
    intros resp _. destruct resp as [m| |current|rows];
      try (apply sends_ret; reflexivity).
    apply (sends_bind _ (fun _ => True)).
    + destruct (_ && _); [|apply sends_ret; exact I].
      apply (sends_bind _ (fun _ => True)).
      * eapply sends_weaken; [apply sends_lift|]. auto.
      * intros decrypted _. apply sends_ret. exact I.
    + intros [[amount0 description0] notes0] _.
      apply (sends_bind _ (fun _ => True)).
      * apply sends_with_rng. auto.
      * intros envelope _. apply sends_ret. reflexivity.
  - intros p Hp. apply (sends_bind _ (fun _ => True)).
    + apply sends_request. exact Hp.
    + intros resp _. destruct resp;
        first [apply sends_throw | apply sends_ret; exact I].
Qed.

Lemma exclusive_new_row gen t (p : Payload) :
  exclusive (new_row gen t p) = exclusive_payload p
  /\ has_envelope (new_row gen t p) = sets_envelope p.
Proof. destruct gen as [[uuid now] today]. split; reflexivity. Qed.

(** The row a successful [createTransaction] leaves in the table. *)
Lemma createTransaction_stores (tx : NewTransaction)
    (encryptionKey : option CryptoKey) (w w' : World) (row : Row) :
  createTransaction tx encryptionKey w = (Normal row, w') ->
  exists stored,
    transactions_table (remote w') !! row_id row = Some stored
    /\ exclusive stored = true
    /\ has_envelope stored = bool_decide (is_Some encryptionKey)
    /\ row = with_sensitive stored (Some (new_amount tx))
               (new_description tx) (new_notes tx).
Proof.
  unfold createTransaction, bind, ret, throw, encryptTransaction, with_rng.
  destruct encryptionKey as [k|].
  - destruct (encrypt _ k (rng w)) as [envelope g].
    unfold request. cbn [fault remote sent].
    destruct (fault w _); [discriminate|].
    cbn [serve set_type].
    match goal with
    | |- context [new_row ?gen ?t ?p] =>
        pose proof (exclusive_new_row gen t p) as [Hex Henv];
        set (stored := new_row gen t p) in *
    end.
    destruct (transactions_table (remote w) !! row_id stored) eqn:E;
      [discriminate|].
    intro H. injection H as <- <-. exists stored. cbn.
    rewrite lookup_insert_eq. split; [reflexivity|].
    split; [rewrite Hex; reflexivity|]. split; [rewrite Henv|]; reflexivity.
  - unfold request.
    destruct (fault w _); [discriminate|].
    cbn [serve set_type].
    match goal with
    | |- context [new_row ?gen ?t ?p] =>
        pose proof (exclusive_new_row gen t p) as [Hex Henv];
        set (stored := new_row gen t p) in *
    end.
    destruct (transactions_table (remote w) !! row_id stored) eqn:E;
      [discriminate|].
    intro H. injection H as <- <-. exists stored. cbn.
    rewrite lookup_insert_eq. split; [reflexivity|].
    split; [rewrite Hex; reflexivity|].
    split; [rewrite Henv|]; reflexivity.
Qed.

End TransactionServiceFacts.

Section LockedRuns.

Import Sample.

(** C1 as stated fails.  In [locked_world] encryption is enabled, the
    store holds no key, and the row ["id-0"] carries the envelope and no
    clear field.  Given the store's key (none), [fetchTransactions] does
    not fail: it returns the row undecrypted. *)
Lemma locked_fetch_does_not_fail :
  let encryptionKey := Store.encryptionKey (app locked_world) in
  locked (app locked_world)
  /\ (exists row,
        transactions_table (remote locked_world) !! "id-0" = Some row
        /\ has_envelope row = true /\ has_clear row = false)
  /\ (exists row w',
        fetchTransactions encryptionKey locked_world = (Normal [row], w')
        /\ row_amount row = None /\ row_description row = None
        /\ row_notes row = None /\ has_envelope row = true).
Proof.
  split; [|split].
  - split; [|reflexivity]. exists with_password. split; reflexivity.
  - eexists. split; [vm_compute; reflexivity|]. split; reflexivity.
  - eexists. eexists. split; [vm_compute; reflexivity|].
    split; [|split; [|split]]; reflexivity.
Qed.

(** In the same world [updateTransaction], given the store's key (none),
    returns normally, and the stored row then carries the amount 99 in
    clear next to the envelope. *)
Lemma locked_update_writes_clear :
  let encryptionKey := Store.encryptionKey (app locked_world) in
  exists row w',
    updateTransaction "id-0" new_amount_99 encryptionKey locked_world
    = (Normal row, w')
    /\ transactions_table (remote w') !! "id-0" = Some row
    /\ row_amount row = Some 99%float
    /\ has_envelope row = true.
Proof.
  eexists. eexists. split; [vm_compute; reflexivity|].
  split; [vm_compute; reflexivity|]. split; reflexivity.
Qed.

End LockedRuns.

(** ** lib/services/currency.ts *)

Section CurrencyFacts.

Context `{WP : WebPlatform} `{JS : Json SensitiveFields}.

Lemma world_eta (w : World) :
  {| remote := remote w; sent := sent w; fault := fault w; rng := rng w;
     clock := clock w; readings := readings w; app := app w |} = w.
Proof. destruct w. reflexivity. Qed.

(** Building the update objects: one clock reading each, no request. *)
Lemma build_updates (ts : list Transaction) (w : World) :
  all (fun transaction =>
         bind Date_toISOString (fun now =>
           ret (UpdateTransaction (id transaction)
                  (amount_payload (amount transaction) now) false)))
      ts w
  = (Normal (update_requests (clock w) (readings w) ts),
     after_readings (length ts) w).
Proof.
  revert w. induction ts as [|t ts IH]; intro w.
  - simpl. unfold ret, after_readings. rewrite Nat.add_0_r, world_eta.
    reflexivity.
  - cbn [all]. unfold bind at 1 2. unfold Date_toISOString at 1.
    unfold ret at 1. unfold bind at 1. rewrite IH.
    unfold ret, after_readings. cbn.
    do 3 f_equal. lia.
Qed.

(** Awaiting a batch: every request is sent, in order. *)
Lemma await_batch (reqs : list Request) (w : World) :
  all request reqs w
  = (Normal (serve_batch (fault w) reqs (remote w)).1, after_batch reqs w).
Proof.
  revert w. induction reqs as [|r reqs IH]; intro w.
  - simpl. unfold ret, after_batch. cbn. rewrite app_nil_r, world_eta.
    reflexivity.
  - cbn [all serve_batch]. unfold bind at 1. unfold request at 1.
    destruct (fault w r) as [message|] eqn:Ef.
    + unfold bind at 1. rewrite IH. cbn [fault remote].
      destruct (serve_batch (fault w) reqs (remote w)) as [answers db'] eqn:Eb.
      unfold ret, after_batch. cbn. rewrite Ef, Eb. cbn.
      rewrite <- app_assoc. reflexivity.
    + destruct (serve r (remote w)) as [answer db1] eqn:Es.
      unfold bind at 1. rewrite IH. cbn [fault remote].
      destruct (serve_batch (fault w) reqs db1) as [answers db'] eqn:Eb.
      unfold ret, after_batch. cbn. rewrite Ef, Es, Eb. cbn.
      rewrite <- app_assoc. reflexivity.
Qed.

(** The currency rewrite, step by step. *)
Lemma rewrite_equation (oldCurrency newCurrency : string) (rate : float)
    (w : World) :
  updateTransactionsCurrencyInDB oldCurrency newCurrency rate w
  = match Store.transactions (app w) with
    | [] => (Normal tt, w)
    | _ :: _ =>
        let converted :=
          convertTransactionsCurrency (Store.transactions (app w)) rate in
        let reqs := update_requests (clock w) (readings w) converted in
        let w2 := after_batch reqs (after_readings (length converted) w) in
        match first_error (serve_batch (fault w) reqs (remote w)).1 with
        | Some message =>
            (Throw (Error (String.append "Failed to update transactions: "
                             message)), w2)
        | None =>
            (Normal tt,
             settled newCurrency (Store.setTransactions converted) w2)
        end
    end.
Proof.
  unfold updateTransactionsCurrencyInDB.
  unfold bind at 1. unfold getState at 1.
  destruct (Store.transactions (app w)) as [|t ts] eqn:Ets; [reflexivity|].
  cbn [length Nat.eqb].
  set (converted := convertTransactionsCurrency (t :: ts) rate).
  unfold bind at 1. rewrite build_updates.
  unfold bind at 1. rewrite await_batch.
  cbn [fault remote after_readings clock readings].
  cbv zeta.
  destruct (first_error _) as [message|]; [reflexivity|].
  unfold bind, Date_toISOString, setState, request, settled,
    settings_request.
  cbn [fault remote sent rng clock readings app after_batch after_readings].
  destruct (fault w _) as [message|]; [reflexivity|].
  destruct (serve _ _) as [answer db]. reflexivity.
Qed.

Lemma keep_equation (oldCurrency newCurrency : string) (w : World) :
  updateCurrencyWithoutConversion oldCurrency newCurrency w
  = let r := settings_request newCurrency w in
    match fault w r with
    | Some message =>
        (Throw (Error (String.append "Failed to update user settings: "
                         message)),
         {| remote := remote w; sent := sent w ++ [r]; fault := fault w;
            rng := rng w; clock := clock w; readings := S (readings w);
            app := app w |})
    | None => (Normal tt, settled newCurrency (fun s => s) w)
    end.
Proof.
  unfold updateCurrencyWithoutConversion, bind, getState, Date_toISOString,
    request, setState, throw, settled, settings_request.
  cbn [fault remote sent rng clock readings app].
  destruct (fault w _) as [message|]; [reflexivity|].
  destruct (serve _ _) as [answer db] eqn:Es.
  assert (answer = NoData) as ->.
  { simpl in Es. destruct (us_id <$> Store.settings (app w));
      injection Es as <- _; reflexivity. }
  reflexivity.
Qed.

Lemma serve_settings_keeps_transactions i c now (db : Supabase) :
  transactions_table (serve (UpdateUserSettings i c now) db).2
  = transactions_table db
  /\ categories_table (serve (UpdateUserSettings i c now) db).2
     = categories_table db.
Proof. destruct i; split; reflexivity. Qed.

(** C8. Keeping the amounts as they are: the only request is the update
    of [user_settings]; the [transactions] table and every field of the
    store but [currency] are as before; when the store accepts the
    request the currency becomes the new code, and when it fails the
    error is thrown and the store is unchanged. *)
Theorem keep_as_is_leaves_amounts (oldCurrency newCurrency : string)
    (w : World) :
  let run := updateCurrencyWithoutConversion oldCurrency newCurrency w in
  let r := settings_request newCurrency w in
  sent run.2 = sent w ++ [r]
  /\ is_transaction_write r = false
  /\ transactions_table (remote run.2) = transactions_table (remote w)
  /\ Store.transactions (app run.2) = Store.transactions (app w)
  /\ match fault w r with
     | None =>
         run.1 = Normal tt
         /\ app run.2 = Store.setCurrency newCurrency (app w)
         /\ Store.currency (app run.2) = newCurrency
     | Some message =>
         run.1 = Throw (Error (String.append
                                 "Failed to update user settings: " message))
         /\ app run.2 = app w
     end.
Proof.
  intros run r. unfold run. rewrite keep_equation. cbv zeta. fold r.
  destruct (fault w r) as [message|] eqn:Ef; cbn.
  - repeat split; reflexivity.
  - fold r. rewrite Ef. cbn.
    split; [reflexivity|]. split; [reflexivity|].
    split; [apply serve_settings_keeps_transactions|].
    repeat split; reflexivity.
Qed.

Lemma update_requests_app clock n (ts ts' : list Transaction) :
  update_requests clock n (ts ++ ts')
  = update_requests clock n ts
      ++ update_requests clock (n + length ts) ts'.
Proof.
  revert n. induction ts as [|t ts IH]; intro n; simpl.
  - rewrite Nat.add_0_r. reflexivity.
  - rewrite IH. do 3 f_equal. lia.
Qed.

Lemma update_requests_lookup clock n (ts : list Transaction) (j : nat) :
  update_requests clock n ts !! j
  = update_request (clock (n + j)%nat) <$> ts !! j.
Proof.
  revert n j. induction ts as [|t ts IH]; intros n j; [reflexivity|].
  destruct j as [|j]; simpl.
  - rewrite Nat.add_0_r. reflexivity.
  - rewrite IH. do 3 f_equal. lia.
Qed.

Lemma length_update_requests clock n (ts : list Transaction) :
  length (update_requests clock n ts) = length ts.
Proof. revert n. induction ts; intro n; simpl; auto. Qed.

Lemma rewrite_batch_lookup (rate : float) (w : World) (j : nat)
    (t : Transaction) :
  Store.transactions (app w) !! j = Some t ->
  rewrite_batch rate w !! j
  = Some (UpdateTransaction (id t)
            (amount_payload (converted_amount (amount t) rate)
               (clock w (readings w + j)%nat)) false).
Proof.
  intro Hj. unfold rewrite_batch.
  rewrite update_requests_lookup.
  unfold convertTransactionsCurrency. rewrite list_lookup_fmap, Hj.
  reflexivity.
Qed.

(** C7. The converted amount is the double product [a * r] rounded to
    two decimals, half away from zero, as a double; 19.99 at rate 0.92
    gives 18.39; at rate 1 the product is the amount itself, so the
    result is the amount rounded to cents; and this is the amount of
    every transaction the rewrite returns. *)
Theorem converted_amount_is_rounded (a r : float) :
  rounds_to_cents (a * r) (converted_amount a r)
  /\ converted_amount 19.99 0.92 = 18.39%float
  /\ (a * 1)%float = a
  /\ rounds_to_cents a (converted_amount a 1)
  /\ (forall (ts : list Transaction) j t,
        ts !! j = Some t ->
        amount <$> convertTransactionsCurrency ts r !! j
        = Some (converted_amount (amount t) r)).
Proof.
  split; [apply Number_toFixed_rounds|].
  split; [vm_compute; reflexivity|].
  split; [apply mul_one_r|].
  split.
  - unfold converted_amount. rewrite mul_one_r.
    apply Number_toFixed_rounds.
  - intros ts j t Hj. unfold convertTransactionsCurrency.
    rewrite list_lookup_fmap, Hj. reflexivity.
Qed.

(** Evaluations: the rounding acts on the exact value of the double
    product (the doubles nearest to 1.005 and to 1.5 * 0.01 lie below the
    tie, 0.125 is a tie), the sign is kept, and a product that is not
    finite or is [10^21] or more is returned as it is. *)
Lemma converted_amount_evaluations :
  converted_amount 1.005 1 = 1%float
  /\ converted_amount 1.5 0.01 = 0.01%float
  /\ converted_amount 0.125 1 = 0.13%float
  /\ converted_amount (-0.125) 1 = (-0.13)%float
  /\ converted_amount 42.5 1 = 42.5%float
  /\ converted_amount 100 0.0001 = 0.01%float
  /\ converted_amount (-0.001) 1 = (-0)%float
  /\ converted_amount 1e21 1 = 1e21%float
  /\ converted_amount 1 infinity = infinity
  /\ converted_amount 0 infinity = nan.
Proof. vm_compute. repeat split. Qed.

Lemma toFixed_evaluations :
  JsNumber.text (JsNumber.toFixed (19.99 * 0.92) 2) = Some "18.39"
  /\ JsNumber.text (JsNumber.toFixed 5 2) = Some "5.00"
  /\ JsNumber.text (JsNumber.toFixed 0.125 2) = Some "0.13"
  /\ JsNumber.text (JsNumber.toFixed (-0.001) 2) = Some "-0.00"
  /\ JsNumber.text (JsNumber.toFixed (-1234.5678) 2) = Some "-1234.57"
  /\ JsNumber.text (JsNumber.toFixed 0.004 2) = Some "0.00"
  /\ JsNumber.text (JsNumber.toFixed (0 * infinity) 2) = Some "NaN"
  /\ JsNumber.text (JsNumber.toFixed (-5 * infinity) 2) = Some "-Infinity".
Proof. vm_compute. repeat split. Qed.

Lemma serve_update_rows (i : string) (p : Payload) (db : Supabase)
    (j : string) :
  transactions_table (serve (UpdateTransaction i p false) db).2 !! j
  = if decide (i = j) then apply_payload p <$> transactions_table db !! j
    else transactions_table db !! j.
Proof.
  cbn. destruct (decide (i = j)) as [->|Hne].
  - apply lookup_alter_eq.
  - apply lookup_alter_ne. exact Hne.
Qed.

(** C10. The pure rewrite keeps length and order and changes no field
    but [amount]; the batch has one update per transaction, in order,
    for the transaction's id and with the payload [{ amount,
    updated_at }]; that payload leaves every other column of a row as it
    is; and the rewrite sends the batch, then at most the update of
    [user_settings]. *)
Theorem rewrite_touches_amount_only (rate : float) :
  (forall ts : list Transaction,
      length (convertTransactionsCurrency ts rate) = length ts
      /\ forall j t,
          ts !! j = Some t ->
          exists t',
            convertTransactionsCurrency ts rate !! j = Some t'
            /\ amount t' = converted_amount (amount t) rate
            /\ same_but_amount t t')
  /\ (forall (w : World) j t,
        Store.transactions (app w) !! j = Some t ->
        rewrite_batch rate w !! j
        = Some (UpdateTransaction (id t)
                  (amount_payload (converted_amount (amount t) rate)
                     (clock w (readings w + j)%nat)) false))
  /\ (forall (a : float) (now : string) (row : Row),
        let row' := apply_payload (amount_payload a now) row in
        row_amount row' = Some a /\ row_updated_at row' = now
        /\ same_but_amount_and_updated_at row row')
  /\ (forall (db : Supabase) i a now j,
        transactions_table
          (serve (UpdateTransaction i (amount_payload a now) false) db).2 !! j
        = if decide (i = j)
          then apply_payload (amount_payload a now)
                 <$> transactions_table db !! j
          else transactions_table db !! j)
  /\ (forall (w : World) oldCurrency newCurrency,
        let w' :=
          (updateTransactionsCurrencyInDB oldCurrency newCurrency rate w).2 in
        sent w' = sent w
        \/ sent w' = sent w ++ rewrite_batch rate w
        \/ sent w' = sent w ++ rewrite_batch rate w
                       ++ [settings_request newCurrency
                             (after_readings
                                (length (Store.transactions (app w))) w)]).
Proof.
  split; [|split; [|split; [|split]]].
  - intro ts. unfold convertTransactionsCurrency. split.
    + apply length_map.
    + intros j t Hj. eexists. rewrite list_lookup_fmap, Hj.
      split; [reflexivity|]. split; [reflexivity|].
      repeat split.
  - intros w j t Hj. apply rewrite_batch_lookup. exact Hj.
  - intros a now row row'. repeat split.
  - intros db i a now j. apply serve_update_rows.
  - intros w oldCurrency newCurrency w'. unfold w'.
    rewrite rewrite_equation.
    destruct (Store.transactions (app w)) as [|t ts] eqn:Ets;
      [left; reflexivity|].
    cbv zeta. unfold rewrite_batch. rewrite Ets.
    destruct (first_error _) as [message|]; right.
    + left. reflexivity.
    + right. cbn [snd settled sent after_batch after_readings].
      rewrite <- app_assoc. unfold convertTransactionsCurrency.
      rewrite length_map. reflexivity.
Qed.

(** C5, as the code has it.  A rate that is NaN or not greater than
    zero (0, -5 and NaN among them) is rejected by the dialog: the error
    text is shown, the page state and the world are untouched, so no
    request is sent.  Any other rate, Infinity among them, is handed to
    the page's handler, which runs the rewrite. *)
Theorem invalid_rate_is_rejected (p : PageState) (w : World) :
  (forall rate,
      JsNumber.isNaN rate || (rate <=? 0)%float = true ->
      dialog_handleConvert p rate w = (Normal (invalid_rate_text, p), w))
  /\ dialog_handleConvert p 0%float w = (Normal (invalid_rate_text, p), w)
  /\ dialog_handleConvert p (-5)%float w
     = (Normal (invalid_rate_text, p), w)
  /\ dialog_handleConvert p nan w = (Normal (invalid_rate_text, p), w)
  /\ (forall rate,
        JsNumber.isNaN rate || (rate <=? 0)%float = false ->
        dialog_handleConvert p rate w
        = match page_handleConvert p rate w with
          | (Normal p', w') => (Normal ("", p'), w')
          | (Throw e, w') => (Throw e, w')
          end)
  /\ JsNumber.isNaN infinity || (infinity <=? 0)%float = false.
Proof.
  assert (H : forall rate,
             JsNumber.isNaN rate || (rate <=? 0)%float = true ->
             dialog_handleConvert p rate w
             = (Normal (invalid_rate_text, p), w)).
  { intros rate Hrate. unfold dialog_handleConvert. rewrite Hrate.
    reflexivity. }
  split; [exact H|].
  split; [apply H; reflexivity|].
  split; [apply H; reflexivity|].
  split; [apply H; reflexivity|].
  split; [|reflexivity].
  intros rate Hrate. unfold dialog_handleConvert. rewrite Hrate.
  unfold bind. destruct (page_handleConvert p rate w) as [[p'|e] w'];
    reflexivity.
Qed.

Lemma first_error_batch fault clock n (ts : list Transaction)
    (db : Supabase) :
  first_error (serve_batch fault (update_requests clock n ts) db).1
  = first_fault fault (update_requests clock n ts).
Proof.
  revert n db. induction ts as [|t ts IH]; intros n db; [reflexivity|].
  cbn [update_requests serve_batch first_fault].
  destruct (fault _) as [message|].
  - destruct (serve_batch _ _ _). reflexivity.
  - cbn [update_request serve].
    specialize (IH (S n)
      (set_transactions_table
         (alter (apply_payload (amount_payload (amount t) (clock n)))
            (id t) (transactions_table db)) db)).
    destruct (serve_batch _ _ _). exact IH.
Qed.

(** A batch leaves alone the rows none of its updates names. *)
Lemma batch_leaves_other_rows fault clock n (ts : list Transaction)
    (db : Supabase) (i : string) :
  i ∉ id <$> ts ->
  transactions_table (serve_batch fault (update_requests clock n ts) db).2
    !! i
  = transactions_table db !! i.
Proof.
  revert n db. induction ts as [|t ts IH]; intros n db Hi; [reflexivity|].
  rewrite fmap_cons, not_elem_of_cons in Hi. destruct Hi as [Hne Hi].
  cbn [update_requests serve_batch].
  destruct (fault _) as [message|].
  - specialize (IH (S n) db Hi). destruct (serve_batch _ _ _). exact IH.
  - cbn [update_request serve].
    match goal with
    | |- context [serve_batch _ _ ?db1] => specialize (IH (S n) db1 Hi)
    end.
    destruct (serve_batch _ _ _). cbn [snd] in *. rewrite IH.
    cbn. apply lookup_alter_ne. congruence.
Qed.

(** No roll-back: after a batch, the row of each transaction is the
    updated one when its request was accepted, the old one when its
    request failed, whatever happened to the other requests. *)
Lemma batch_keeps_accepted_updates fault clock n (ts : list Transaction)
    (db : Supabase) (j : nat) (t : Transaction) :
  NoDup (id <$> ts) ->
  ts !! j = Some t ->
  transactions_table (serve_batch fault (update_requests clock n ts) db).2
    !! id t
  = match fault (update_request (clock (n + j)%nat) t) with
    | Some _ => transactions_table db !! id t
    | None =>
        apply_payload (amount_payload (amount t) (clock (n + j)%nat))
          <$> transactions_table db !! id t
    end.
Proof.
  revert n db j. induction ts as [|t0 ts IH]; intros n db j Hnd Hj;
    [discriminate|].
  rewrite fmap_cons in Hnd. apply NoDup_cons in Hnd as [Hnotin Hnd].
  destruct j as [|j].
  - injection Hj as ->. rewrite Nat.add_0_r.
    cbn [update_requests serve_batch].
    destruct (fault _) as [message|].
    + pose proof (batch_leaves_other_rows fault clock (S n) ts db (id t)
                    Hnotin) as H.
      destruct (serve_batch _ _ _). exact H.
    + cbn [update_request serve].
      match goal with
      | |- context [serve_batch _ _ ?db1] =>
          pose proof (batch_leaves_other_rows fault clock (S n) ts db1
                        (id t) Hnotin) as H
      end.
      destruct (serve_batch _ _ _). cbn [snd] in *. rewrite H.
      cbn. apply lookup_alter_eq.
  - cbn [lookup] in Hj. simpl in Hj.
    assert (Hne : id t0 <> id t).
    { intros E. apply Hnotin. rewrite E.
      apply list_elem_of_fmap. exists t. split; [reflexivity|].
      eapply list_elem_of_lookup_2. exact Hj. }
    replace (n + S j)%nat with (S n + j)%nat by lia.
    cbn [update_requests serve_batch].
    destruct (fault (update_request (clock n) t0)) as [message|].
    + specialize (IH (S n) db j Hnd Hj).
      destruct (serve_batch _ _ _). exact IH.
    + cbn [update_request serve].
      match goal with
      | |- context [serve_batch _ _ ?db1] =>
          specialize (IH (S n) db1 j Hnd Hj)
      end.
      destruct (serve_batch _ _ _). cbn [snd] in *. rewrite IH.
      cbn. rewrite lookup_alter_ne by exact Hne. reflexivity.
Qed.

(** C6, as the code has it.  When a request of the batch fails, the
    rewrite still sends the whole batch, then throws an error made of
    the first failing request's message alone (no counts); the store's
    transactions and currency are unchanged and [user_settings] is not
    written; and nothing is rolled back: with distinct ids, each row
    whose update was accepted stays rewritten. *)
Theorem partial_failure_is_reported (oldCurrency newCurrency : string)
    (rate : float) (w : World) (message : string) :
  let reqs := rewrite_batch rate w in
  let run := updateTransactionsCurrencyInDB oldCurrency newCurrency rate w in
  first_fault (fault w) reqs = Some message ->
  run.1 = Throw (Error (String.append "Failed to update transactions: "
                          message))
  /\ sent run.2 = sent w ++ reqs
  /\ app run.2 = app w
  /\ remote run.2 = (serve_batch (fault w) reqs (remote w)).2
  /\ (NoDup (id <$> Store.transactions (app w)) ->
      forall j t,
        Store.transactions (app w) !! j = Some t ->
        exists r,
          reqs !! j = Some r
          /\ transactions_table (remote run.2) !! id t
             = match fault w r with
               | Some _ => transactions_table (remote w) !! id t
               | None =>
                   apply_payload
                     (amount_payload (converted_amount (amount t) rate)
                        (clock w (readings w + j)%nat))
                     <$> transactions_table (remote w) !! id t
               end).
Proof.
  intros reqs run Hfault. unfold run. rewrite rewrite_equation.
  destruct (Store.transactions (app w)) as [|t0 ts] eqn:Ets.
  { unfold reqs, rewrite_batch in Hfault. rewrite Ets in Hfault.
    discriminate. }
  cbv zeta.
  assert (Ereqs : update_requests (clock w) (readings w)
                    (convertTransactionsCurrency (t0 :: ts) rate) = reqs).
  { unfold reqs, rewrite_batch. rewrite Ets. reflexivity. }
  rewrite Ereqs.
  assert (Herr : first_error (serve_batch (fault w) reqs (remote w)).1
                 = Some message).
  { rewrite <- Hfault. unfold reqs, rewrite_batch.
    apply first_error_batch. }
  rewrite Herr. cbn [fst snd].
  split; [reflexivity|]. split; [reflexivity|]. split; [reflexivity|].
  split; [reflexivity|].
  intros Hnd j t Hj.
  exists (UpdateTransaction (id t)
            (amount_payload (converted_amount (amount t) rate)
               (clock w (readings w + j)%nat)) false).
  split.
  { apply rewrite_batch_lookup. rewrite Ets. exact Hj. }
  cbn [remote after_batch after_readings fault].
  unfold reqs, rewrite_batch. rewrite Ets.
  assert (Hnd' : NoDup (id <$> convertTransactionsCurrency (t0 :: ts) rate)).
  { unfold convertTransactionsCurrency. rewrite <- list_fmap_compose.
    exact Hnd. }
  assert (Hj' : convertTransactionsCurrency (t0 :: ts) rate !! j
                = Some (with_amount t (converted_amount (amount t) rate))).
  { unfold convertTransactionsCurrency. rewrite list_lookup_fmap, Hj.
    reflexivity. }
  exact (batch_keeps_accepted_updates (fault w) (clock w) (readings w)
           _ (remote w) j _ Hnd' Hj').
Qed.

Lemma update_requests_rewrite clock n (ts : list Transaction) :
  Forall rewrite_request (update_requests clock n ts).
Proof.
  revert n. induction ts as [|t ts IH]; intro n; constructor;
    [|apply IH].
  split; [eexists|]; reflexivity.
Qed.

Lemma rewrite_sends (oldCurrency newCurrency : string) (rate : float) :
  sends rewrite_request (fun _ => True)
    (updateTransactionsCurrencyInDB oldCurrency newCurrency rate).
Proof.
  intro w. rewrite rewrite_equation.
  destruct (Store.transactions (app w)) as [|t ts].
  { exists []. rewrite app_nil_r. split; [reflexivity|].
    split; [constructor|auto]. }
  cbv zeta.
  destruct (first_error _) as [message|].
  - eexists. split; [reflexivity|].
    split; [|auto].
    exact (update_requests_rewrite (clock w) (readings w)
             (convertTransactionsCurrency (t :: ts) rate)).
  - eexists. split; [cbn; rewrite <- app_assoc; reflexivity|].
    split; [|auto].
    apply Forall_app. split; [|constructor; [exact I|constructor]].
    exact (update_requests_rewrite (clock w) (readings w)
             (convertTransactionsCurrency (t :: ts) rate)).
Qed.

End CurrencyFacts.

(** ** The row shape *)

Section RowShape.

Context `{WP : WebPlatform} `{JS : Json SensitiveFields}.

(** Every object a write sends carries one form only: the insert of
    [createTransaction] carries the envelope and no clear sensitive
    column when there is a key, the clear columns and no envelope when
    there is none, and the row it stores has that one form; the update
    of [updateTransaction] carries the envelope or clear columns, never
    both; the updates of the currency rewrite carry the clear [amount]
    and no envelope column. *)
Theorem writes_carry_one_form :
  (forall tx encryptionKey,
      sends (fun r => exists p,
                 r = InsertTransaction p
                 /\ create_payload tx encryptionKey p
                 /\ exclusive_payload p = true)
        (fun _ => True) (createTransaction tx encryptionKey))
  /\ (forall tx encryptionKey (w w' : World) row,
        createTransaction tx encryptionKey w = (Normal row, w') ->
        exists stored,
          transactions_table (remote w') !! row_id row = Some stored
          /\ exclusive stored = true
          /\ has_envelope stored = bool_decide (is_Some encryptionKey))
  /\ (forall i updates encryptionKey,
        sends (fun r => exclusive_write r = true) (fun _ => True)
          (updateTransaction i updates encryptionKey))
  /\ (forall oldCurrency newCurrency rate,
        sends rewrite_request (fun _ => True)
          (updateTransactionsCurrencyInDB oldCurrency newCurrency rate)).
Proof.
  split; [|split; [|split]].
  - intros tx encryptionKey w.
    destruct (createTransaction_sends tx encryptionKey w)
      as (news & E & F & _).
    exists news. split; [exact E|]. split; [|auto].
    eapply Forall_impl; [exact F|].
    intros r (p & -> & Hp). exists p. split; [reflexivity|].
    split; [exact Hp|]. exact (create_payload_exclusive _ _ _ Hp).
  - intros tx encryptionKey w w' row H.
    destruct (createTransaction_stores _ _ _ _ _ H)
      as (stored & H1 & H2 & H3 & _).
    exists stored. auto.
  - apply updateTransaction_sends.
  - apply rewrite_sends.
Qed.

End RowShape.


(** ** lib/store.ts *)

Section StoreFacts.

Context `{WP : WebPlatform}.

(** C9. What [persist] writes does not depend on [encryptionKey]: two
    states that agree on [credentials], [encryptionConfig], [currency],
    [isOnboarded] and [salt] have the same persisted image, whatever
    their keys (and their other fields); setting the key does not change
    it; and [clearCredentials] leaves no key. *)
Theorem key_is_not_persisted :
  (forall s s' : Store.AppState,
      Store.credentials s = Store.credentials s' ->
      Store.encryptionConfig s = Store.encryptionConfig s' ->
      Store.currency s = Store.currency s' ->
      Store.isOnboarded s = Store.isOnboarded s' ->
      Store.salt s = Store.salt s' ->
      Store.partialize s = Store.partialize s')
  /\ (forall (s : Store.AppState) (k : option CryptoKey),
        Store.partialize (Store.setEncryptionKey k s) = Store.partialize s)
  /\ (forall s : Store.AppState,
        Store.encryptionKey (Store.clearCredentials s) = None)
  /\ (forall s : Store.AppState,
        Store.encryptionKey Store.initial = None
        /\ Store.p_credentials (Store.partialize s) = Store.credentials s
        /\ Store.p_encryptionConfig (Store.partialize s)
           = Store.encryptionConfig s
        /\ Store.p_currency (Store.partialize s) = Store.currency s
        /\ Store.p_isOnboarded (Store.partialize s) = Store.isOnboarded s
        /\ Store.p_salt (Store.partialize s) = Store.salt s).
Proof.
  split; [|split; [|split]].
  - intros s s' H1 H2 H3 H4 H5. unfold Store.partialize.
    rewrite H1, H2, H3, H4, H5. reflexivity.
  - reflexivity.
  - reflexivity.
  - intro s. repeat split.
Qed.

End StoreFacts.

Section CurrencyRuns.

Import Sample.

(** C2 is broken by the currency rewrite.  In [converting_world] the
    session is unlocked and the row ["id-0"] carries the envelope only.
    The rewrite at rate 2 succeeds, and the stored row then carries the
    clear amount 85 next to the envelope, which is unchanged: it still
    holds 42.5, and that is the amount the next [fetchTransactions] under
    the key returns. *)
Lemma rewrite_leaves_both_forms :
  let run := updateTransactionsCurrencyInDB "USD" "EUR" 2 converting_world in
  is_Some (Store.encryptionKey (app converting_world))
  /\ (exists row,
        transactions_table (remote converting_world) !! "id-0" = Some row
        /\ has_envelope row = true /\ exclusive row = true
        /\ exists row',
            transactions_table (remote run.2) !! "id-0" = Some row'
            /\ row_amount row' = Some 85%float
            /\ row_encrypted_data row' = row_encrypted_data row
            /\ row_iv row' = row_iv row
            /\ has_envelope row' = true /\ exclusive row' = false)
  /\ run.1 = Normal tt
  /\ (exists row,
        (fetchTransactions (Some secret) run.2).1 = Normal [row]
        /\ row_amount row = Some 42.5%float).
Proof.
  split; [eexists; reflexivity|].
  split; [|split; [vm_compute; reflexivity|]].
  - eexists. split; [vm_compute; reflexivity|].
    split; [reflexivity|]. split; [reflexivity|].
    eexists. split; [vm_compute; reflexivity|]. repeat split.
  - eexists. split; [vm_compute; reflexivity|]. reflexivity.
Qed.

(** C5 as stated fails for [Infinity]: the dialog accepts it, the error
    text stays empty, and the rewrite sends the update of the row (with
    the amount [Infinity]) and the update of [user_settings]. *)
Lemma infinite_rate_is_not_rejected :
  let run := dialog_handleConvert pending_EUR infinity converting_world in
  run.1 = Normal ("", {| pendingCurrency := None; page_error := None |})
  /\ sent run.2
     = sent converting_world
         ++ [UpdateTransaction "id-0"
               (amount_payload infinity "2026-01-02T00:00:00.000Z") false;
             UpdateUserSettings None "EUR" "2026-01-02T00:00:00.001Z"]
  /\ Store.currency (app run.2) = "EUR".
Proof. vm_compute. repeat split. Qed.

(** C6 as stated fails: no report of counts can be read off the error.
    With three rows, the rewrite that loses one update and the rewrite
    that loses two throw the same error. *)
Lemma failure_report_has_no_counts :
  ~ exists counts : JsError -> nat * nat,
      forall (w : World) oldCurrency newCurrency rate e,
        (updateTransactionsCurrencyInDB oldCurrency newCurrency rate w).1
        = Throw e ->
        counts e = (accepted (fault w) (rewrite_batch rate w),
                    refused (fault w) (rewrite_batch rate w)).
Proof.
  intros [counts H].
  pose proof (H (failing ["id-1"] three_world) "USD" "EUR" 2%float
                (Error "Failed to update transactions: timeout")) as Ha.
  pose proof (H (failing ["id-1"; "id-2"] three_world) "USD" "EUR" 2%float
                (Error "Failed to update transactions: timeout")) as Hb.
  assert (Ea : counts (Error "Failed to update transactions: timeout")
               = (2%nat, 1%nat)).
  { rewrite Ha; [|vm_compute; reflexivity]. vm_compute. reflexivity. }
  assert (Eb : counts (Error "Failed to update transactions: timeout")
               = (1%nat, 2%nat)).
  { rewrite Hb; [|vm_compute; reflexivity]. vm_compute. reflexivity. }
  rewrite Ea in Eb. discriminate Eb.
Qed.

(** C6 at the sample world in which the second of three updates times
    out: the error, the whole batch sent, the first and third rows
    rewritten and the second not. *)
Lemma partial_failure_sample :
  let w := failing ["id-1"] three_world in
  let run := updateTransactionsCurrencyInDB "USD" "EUR" 2 w in
  run.1 = Throw (Error "Failed to update transactions: timeout")
  /\ sent run.2 = sent w ++ rewrite_batch 2 w.
Proof.
  pose proof (partial_failure_is_reported "USD" "EUR" 2
                (failing ["id-1"] three_world) "timeout") as H.
  cbv zeta in H.
  assert (Hfault : first_fault (fault (failing ["id-1"] three_world))
                     (rewrite_batch 2 (failing ["id-1"] three_world))
                   = Some "timeout") by (vm_compute; reflexivity).
  specialize (H Hfault).
  exact (conj (proj1 H) (proj1 (proj2 H))).
Defined.

Lemma partial_failure_sample_rows :
  let w := failing ["id-1"] three_world in
  let run := updateTransactionsCurrencyInDB "USD" "EUR" 2 w in
  row_amount <$> transactions_table (remote run.2) !! "id-0"
  = Some (Some 20%float)
  /\ row_amount <$> transactions_table (remote run.2) !! "id-1"
     = Some (Some 20%float)
  /\ row_amount <$> transactions_table (remote run.2) !! "id-2"
     = Some (Some 60%float)
  /\ Store.currency (app run.2) = "USD".
Proof. vm_compute. repeat split. Qed.

End CurrencyRuns.

(** ** lib/store.ts: the actions *)

Section StoreActions.

Context `{WP : WebPlatform}.

(** Of the store's actions only [setCredentials], [setEncryptionConfig],
    [setSalt], [setOnboarded], [setCurrency] and [clearCredentials]
    change what [persist] writes, and only [setEncryptionKey] and
    [clearCredentials] change the key: no data or UI action does. *)
Theorem actions_keep_persisted_and_key (a : Store.Action)
    (s : Store.AppState) :
  (Store.sets_persisted a = false ->
   Store.partialize (Store.dispatch a s) = Store.partialize s)
  /\ (Store.sets_key a = false ->
      Store.encryptionKey (Store.dispatch a s) = Store.encryptionKey s).
Proof. split; destruct a; try discriminate; reflexivity. Qed.

Lemma filter_other_ids (i : string) (ts : list Transaction) :
  Forall (fun u => id u <> i) ts ->
  List.filter (fun t => negb (String.eqb (id t) i)) ts = ts.
Proof.
  induction 1 as [|u ts Hu _ IH]; simpl; [reflexivity|].
  apply String.eqb_neq in Hu. rewrite Hu. simpl. rewrite IH. reflexivity.
Qed.

(** The store's [deleteTransaction] keeps exactly the transactions with
    another id, in their order; so deleting a transaction that was just
    added, when no other transaction has its id, gives the list back,
    and deleting twice is deleting once. *)
Theorem store_deleteTransaction (i : string) (s : Store.AppState) :
  (forall t, In t (Store.transactions (Store.deleteTransaction i s))
             <-> In t (Store.transactions s) /\ id t <> i)
  /\ sublist (Store.transactions (Store.deleteTransaction i s))
       (Store.transactions s)
  /\ (forall t, id t = i ->
        Forall (fun u => id u <> i) (Store.transactions s) ->
        Store.transactions
          (Store.deleteTransaction i (Store.addTransaction t s))
        = Store.transactions s)
  /\ Store.deleteTransaction i (Store.deleteTransaction i s)
     = Store.deleteTransaction i s.
Proof.
  split; [|split; [|split]].
  - intro t. simpl. rewrite filter_In, negb_true_iff, String.eqb_neq.
    reflexivity.
  - simpl. induction (Store.transactions s) as [|u ts IH]; simpl;
      [constructor|].
    destruct (negb _); [apply sublist_skip | apply sublist_cons]; exact IH.
  - intros t Ht Hs. simpl. rewrite Ht, String.eqb_refl. simpl.
    apply filter_other_ids. exact Hs.
  - unfold Store.deleteTransaction, Store.setTransactions. simpl.
    f_equal. induction (Store.transactions s) as [|u ts IH]; simpl;
      [reflexivity|].
    destruct (negb (id u =? i)%string) eqn:E; simpl;
      [rewrite E, IH; reflexivity|exact IH].
Qed.

End StoreActions.

(** ** lib/encryption.ts: keys and salts *)

Section KeyFacts.

Context `{KP : KeyPlatform}.

(** A salt comes back from its base64 text, whatever its bytes. *)
Theorem salt_roundtrip (salt : list byte) :
  base64ToSalt (saltToBase64 salt) = Some salt.
Proof. apply base64ToArrayBuffer_arrayBufferToBase64. Qed.

(** An extractable key that the platform's raw import reads back from
    its raw export comes back from [importKey] of its [exportKey]
    text. *)
Theorem exported_key_imports (k : CryptoKey) (raw : list byte) :
  subtle_exportKey k = Some raw ->
  subtle_importKey raw = Some k ->
  exists text, exportKey k = inr text /\ importKey text = inr k.
Proof.
  intros Hexport Himport. unfold exportKey, importKey. rewrite Hexport.
  eexists. split; [reflexivity|].
  rewrite base64ToArrayBuffer_arrayBufferToBase64, Himport. reflexivity.
Qed.

(** [importKey] throws on a text that is not base64 before the platform
    sees it, and on bytes the platform rejects; [exportKey] throws on a
    key that is not extractable. *)
Theorem key_texts_are_checked :
  (forall text, Base64.base64ToArrayBuffer text = None ->
                importKey text = inl KeyInvalidCharacterError)
  /\ (forall text raw, Base64.base64ToArrayBuffer text = Some raw ->
                       subtle_importKey raw = None ->
                       importKey text = inl KeyDataError)
  /\ (forall k, subtle_exportKey k = None ->
                exportKey k = inl KeyInvalidAccessError).
Proof.
  split; [|split].
  - intros text H. unfold importKey. rewrite H. reflexivity.
  - intros text raw H1 H2. unfold importKey. rewrite H1, H2. reflexivity.
  - intros k H. unfold exportKey. rewrite H. reflexivity.
Qed.

(** Without a salt [deriveKeyFromPassword] draws 16 fresh bytes for it;
    given a salt (also an empty one) it draws nothing and returns that
    salt.  Deriving again from the same password and the returned salt
    gives the same key. *)
Theorem deriveKeyFromPassword_salt (password : string) (g g2 : Rng) :
  let first := deriveKeyFromPassword password None g in
  first.1.2 = (getRandomValues 16 g).1
  /\ length first.1.2 = 16%nat
  /\ drawn first.2 = (drawn g + 16)%nat
  /\ (forall given,
        (deriveKeyFromPassword password (Some given) g2).1.2 = given
        /\ (deriveKeyFromPassword password (Some given) g2).2 = g2)
  /\ deriveKeyFromPassword password (Some first.1.2) g2 = (first.1, g2).
Proof.
  cbv zeta. unfold deriveKeyFromPassword.
  split; [reflexivity|]. split; [apply length_getRandomValues|].
  split; [reflexivity|]. split; [intro given; split; reflexivity|].
  reflexivity.
Qed.

End KeyFacts.

(** ** components/onboarding-wizard.tsx and
    components/unlock-encryption-dialog.tsx *)

Section OnboardingFacts.

Context `{KP : KeyPlatform} `{CL : ClientLibrary}.

(** Onboarding with a master password, then unlocking in a later
    session.  Onboarding derives the key from the password and 16 fresh
    bytes of salt and persists the salt only.  [handleUnlock] derives a
    key from whatever password is entered (not blank) and that salt and
    puts it in the store without checking it against anything; entering
    the onboarding password gives the onboarding key. *)
Theorem unlock_after_onboarding (z : Wizard) (b : Browser)
    (entered : UnlockDialog) :
  encryptionType z = password ->
  createClient_accepts {| url := supabaseUrl z; anonKey := supabaseKey z |}
  = true ->
  masterPassword z = confirmPassword z ->
  (8 <= String.length (masterPassword z))%nat ->
  JsString.trim (unlock_password entered) <> "" ->
  let onboarded := (handleComplete z b).2 in
  let salt := (generateSalt (random b)).1 in
  let derive p :=
    subtle_deriveKey (TextEncoder_encode p) salt PBKDF2_ITERATIONS
      KEY_LENGTH in
  let unlocked := handleUnlock entered (later_session onboarded) in
  Store.encryptionKey (store onboarded) = Some (derive (masterPassword z))
  /\ Store.salt (store onboarded) = Some (saltToBase64 salt)
  /\ Store.isOnboarded (store onboarded) = true
  /\ Store.encryptionKey (store (later_session onboarded)) = None
  /\ Store.encryptionKey (store unlocked.2)
     = Some (derive (unlock_password entered))
  /\ unlock_error unlocked.1 = ""
  /\ (unlock_password entered = masterPassword z ->
      Store.encryptionKey (store unlocked.2)
      = Store.encryptionKey (store onboarded)).
Proof.
  intros Hmode Hclient Hsame Hlength Hentered. cbv zeta.
  unfold handleComplete, initializeSupabase.
  rewrite Hclient, Hmode, <- Hsame, String.eqb_refl.
  apply Nat.ltb_ge in Hlength. rewrite Hlength. cbn [negb].
  unfold generateSalt, deriveKeyFromPassword.
  cbn [random with_store].
  pose proof (length_getRandomValues SALT_LENGTH (random b)) as Hl.
  destruct (getRandomValues SALT_LENGTH (random b)) as [salt g].
  cbn [fst] in Hl. cbn [snd fst store Store.encryptionKey Store.setOnboarded
    Store.setEncryptionConfig Store.setSalt Store.setEncryptionKey
    Store.salt Store.isOnboarded].
  split; [reflexivity|]. split; [reflexivity|]. split; [reflexivity|].
  split; [reflexivity|].
  unfold handleUnlock, later_session.
  cbn [store with_store Store.rehydrate Store.partialize
       Store.encryptionConfig Store.p_encryptionConfig
       Store.setOnboarded Store.setEncryptionConfig Store.setSalt
       Store.setEncryptionKey enc_type Store.salt Store.p_salt].
  apply String.eqb_neq in Hentered. rewrite Hentered.
  assert (Htruthy : truthy_string (Some (saltToBase64 salt)) = true).
  { unfold truthy_string, saltToBase64, Base64.arrayBufferToBase64.
    apply negb_true_iff, String.eqb_neq. intro Hempty.
    pose proof (base64ToArrayBuffer_arrayBufferToBase64 salt) as Hd.
    unfold Base64.arrayBufferToBase64 in Hd.
    rewrite Hempty in Hd.
    vm_compute in Hd. injection Hd as <-. discriminate Hl. }
  rewrite Htruthy. cbn [negb default from_option]. unfold Datatypes.id.
  unfold base64ToSalt, saltToBase64.
  rewrite (base64ToArrayBuffer_arrayBufferToBase64 salt).
  unfold deriveKeyFromPassword.
  cbn [snd fst store Store.encryptionKey Store.setEncryptionKey
       unlock_error].
  split; [reflexivity|]. split; [reflexivity|].
  intros ->. reflexivity.
Qed.

(** A master password of white space only passes onboarding (it has its
    8 characters) and can never unlock: [handleUnlock] rejects it as
    blank, and the store is left without a key. *)
Theorem blank_password_cannot_unlock (z : Wizard) (b : Browser)
    (entered : UnlockDialog) :
  encryptionType z = password ->
  createClient_accepts {| url := supabaseUrl z; anonKey := supabaseKey z |}
  = true ->
  masterPassword z = confirmPassword z ->
  (8 <= String.length (masterPassword z))%nat ->
  JsString.trim (masterPassword z) = "" ->
  unlock_password entered = masterPassword z ->
  let onboarded := handleComplete z b in
  let unlocked := handleUnlock entered (later_session onboarded.2) in
  wizard_error onboarded.1 = ""
  /\ Store.isOnboarded (store onboarded.2) = true
  /\ is_Some (Store.encryptionKey (store onboarded.2))
  /\ unlock_error unlocked.1 = "Please enter your master password"
  /\ unlocked.2 = later_session onboarded.2
  /\ Store.encryptionKey (store unlocked.2) = None.
Proof.
  intros Hmode Hclient Hsame Hlength Hblank Hentered. cbv zeta.
  unfold handleComplete, initializeSupabase.
  rewrite Hclient, Hmode, <- Hsame, String.eqb_refl.
  apply Nat.ltb_ge in Hlength. rewrite Hlength. cbn [negb].
  unfold generateSalt, deriveKeyFromPassword.
  cbn [random with_store].
  destruct (getRandomValues SALT_LENGTH (random b)) as [salt g].
  cbn [snd fst store Store.encryptionKey Store.setOnboarded
    Store.setEncryptionConfig Store.setSalt Store.setEncryptionKey
    Store.isOnboarded wizard_error wizard_shows].
  split; [reflexivity|]. split; [reflexivity|]. split; [eexists; reflexivity|].
  unfold handleUnlock, later_session.
  cbn [store with_store Store.rehydrate Store.partialize
       Store.encryptionConfig Store.p_encryptionConfig
       Store.setOnboarded Store.setEncryptionConfig Store.setSalt
       Store.setEncryptionKey enc_type].
  rewrite Hentered, Hblank. cbn [String.eqb fst snd unlock_error].
  split; [reflexivity|]. split; reflexivity.
Qed.

(** Onboarding with a random key.  The text offered for download is the
    export of the key [handleGenerateRandomKey] generated;
    [handleComplete] then generates another key and puts that one in
    the store.  The downloaded text imports to the first key, not to
    the key of the session. *)
Theorem random_key_session_uses_new_key (z : Wizard) (b : Browser)
    (raw : list byte) :
  encryptionType z = random_key ->
  createClient_accepts {| url := supabaseUrl z; anonKey := supabaseKey z |}
  = true ->
  subtle_exportKey (subtle_generateKey (generatedKeys b)) = Some raw ->
  let generated := handleGenerateRandomKey z b in
  let downloaded := handleDownloadKey generated.1 generated.2 in
  let completed := handleComplete downloaded.1 downloaded.2 in
  downloads completed.2
  = downloads b
    ++ [("finsulium-encryption-key.txt", Base64.arrayBufferToBase64 raw)]
  /\ wizard_error completed.1 = ""
  /\ Store.isOnboarded (store completed.2) = true
  /\ Store.encryptionKey (store completed.2)
     = Some (subtle_generateKey (S (generatedKeys b)))
  /\ (subtle_importKey raw = Some (subtle_generateKey (generatedKeys b)) ->
      importKey (generatedKey completed.1)
      = inr (subtle_generateKey (generatedKeys b))).
Proof.
  intros Hmode Hclient Hexport. cbv zeta.
  unfold handleGenerateRandomKey, generateRandomKey, exportKey.
  rewrite Hexport. cbn [fst snd].
  unfold handleDownloadKey. cbn [fst snd generatedKey wizard_key].
  unfold handleComplete, initializeSupabase.
  cbn [supabaseUrl supabaseKey wizard_key encryptionType keyDownloaded].
  rewrite Hclient, Hmode. cbn [negb].
  unfold generateRandomKey.
  cbn [fst snd downloads with_store generatedKeys store wizard_error
       wizard_shows wizard_key generatedKey Store.isOnboarded
       Store.setOnboarded Store.encryptionKey Store.setEncryptionConfig
       Store.setEncryptionKey].
  split; [reflexivity|]. split; [reflexivity|]. split; [reflexivity|].
  split; [reflexivity|].
  intro Himport. unfold importKey.
  rewrite base64ToArrayBuffer_arrayBufferToBase64, Himport. reflexivity.
Qed.

End OnboardingFacts.

Section KeyRuns.

Import Sample.

(** The first key of the sample platform comes back from its exported
    text. *)
Lemma exported_key_imports_sample :
  exists text,
    exportKey (subtle_generateKey 0) = inr text
    /\ importKey text = inr (subtle_generateKey 0).
Proof.
  apply (exported_key_imports (subtle_generateKey 0)
           (repeat x00 32)); reflexivity.
Defined.

(** Onboarding with the password [correct horse] and unlocking with it
    in a later session gives the same key. *)
Lemma unlock_after_onboarding_sample :
  let onboarded :=
    (handleComplete (wizard password "correct horse") browser).2 in
  Store.encryptionKey
    (store (handleUnlock (typed "correct horse")
              (later_session onboarded)).2)
  = Store.encryptionKey (store onboarded).
Proof.
  assert (Hlength : (8 <= String.length "correct horse")%nat)
    by (vm_compute; lia).
  assert (Hentered : JsString.trim "correct horse" <> "")
    by (vm_compute; discriminate).
  exact (proj2 (proj2 (proj2 (proj2 (proj2 (proj2
           (unlock_after_onboarding (wizard password "correct horse")
              browser (typed "correct horse")
              eq_refl eq_refl eq_refl Hlength Hentered))))))
           eq_refl).
Defined.

(** Eight spaces pass onboarding and are refused by the unlock
    dialog. *)
Lemma blank_password_cannot_unlock_sample :
  let onboarded := handleComplete (wizard password "        ") browser in
  wizard_error onboarded.1 = ""
  /\ unlock_error
       (handleUnlock (typed "        ") (later_session onboarded.2)).1
     = "Please enter your master password".
Proof.
  assert (Hlength : (8 <= String.length "        ")%nat)
    by (vm_compute; lia).
  pose proof (blank_password_cannot_unlock (wizard password "        ")
                browser (typed "        ")
                eq_refl eq_refl eq_refl Hlength eq_refl eq_refl) as H.
  exact (conj (proj1 H) (proj1 (proj2 (proj2 (proj2 H))))).
Defined.

(** On the sample platform the downloaded text imports to the first
    generated key while the session holds the second. *)
Lemma random_key_session_uses_new_key_sample :
  let generated := handleGenerateRandomKey (wizard random_key "") browser in
  let downloaded := handleDownloadKey generated.1 generated.2 in
  let completed := handleComplete downloaded.1 downloaded.2 in
  Store.encryptionKey (store completed.2) = Some (subtle_generateKey 1)
  /\ importKey (generatedKey completed.1) = inr (subtle_generateKey 0)
  /\ subtle_generateKey 0 <> subtle_generateKey 1.
Proof.
  pose proof (random_key_session_uses_new_key (wizard random_key "")
                browser (repeat x00 32) eq_refl eq_refl eq_refl) as H.
  split; [exact (proj1 (proj2 (proj2 (proj2 H))))|].
  split; [exact (proj2 (proj2 (proj2 (proj2 H))) eq_refl)|].
  vm_compute. discriminate.
Defined.

End KeyRuns.

(** ** lib/services/transactions.ts under a key *)

Section KeyedServiceFacts.

Context `{WP : WebPlatform} `{JS : Json SensitiveFields}.

(** [Promise.all] over calls that neither send nor change anything. *)
Lemma all_pure {A B : Type} (f : A -> M B) (g : A -> Completion B)
    (l : list A) (w : World) :
  (forall x w, f x w = (g x, w)) ->
  (all f l w).2 = w
  /\ (forall ys, (all f l w).1 = Normal ys
                 <-> Forall2 (fun x y => g x = Normal y) l ys)
  /\ (Exists (fun x => exists e, g x = Throw e) l ->
      exists e, (all f l w).1 = Throw e).
Proof.
  intro Hf. induction l as [|x l (IH1 & IH2 & IH3)].
  - simpl. split; [reflexivity|]. split.
    + intro ys. unfold ret. simpl. split.
      * intro H. injection H as <-. constructor.
      * intro H. inversion H. reflexivity.
    + intro H. inversion H.
  - assert (E : all f (x :: l) w
               = match g x with
                 | Normal y =>
                     match all f l w with
                     | (Normal ys, w') => (Normal (y :: ys), w')
                     | (Throw e, w') => (Throw e, w')
                     end
                 | Throw e => (Throw e, w)
                 end).
    { cbn [all]. unfold bind, ret. rewrite Hf.
      destruct (g x); [destruct (all f l w) as [[ys|e] w']|]; reflexivity. }
    rewrite E. clear E.
    destruct (g x) as [y|e] eqn:Hg.
    + destruct (all f l w) as [[ys|e] w'] eqn:Hall; cbn [fst snd] in *.
      * subst w'. split; [reflexivity|]. split.
        -- intro zs. split.
           ++ intro H. injection H as <-. constructor; [exact Hg|].
              apply IH2. reflexivity.
           ++ intro H. inversion H as [|? z ? zs' Hz Hzs]; subst.
              rewrite Hg in Hz. injection Hz as <-.
              apply IH2 in Hzs. injection Hzs as <-. reflexivity.
        -- intro H. inversion H as [? ? [e He]|? ? H']; subst.
           ++ rewrite Hg in He. discriminate.
           ++ destruct (IH3 H') as [e He]. discriminate.
      * subst w'. split; [reflexivity|]. split.
        -- intro zs. split; [discriminate|].
           intro H. inversion H as [|? z ? zs' Hz Hzs]; subst.
           apply IH2 in Hzs. discriminate.
        -- intros _. exists e. reflexivity.
    + cbn [fst snd]. split; [reflexivity|]. split.
      * intro zs. split; [discriminate|].
        intro H. inversion H as [|? z ? zs' Hz Hzs]; subst.
        rewrite Hg in Hz. discriminate.
      * intros _. exists e. reflexivity.
Qed.

Lemma fetchTransactions_with_key (k : CryptoKey) (w : World) :
  fault w SelectTransactions = None ->
  fetchTransactions (Some k) w
  = all (fun t => lift (read_row k t)) (selected (remote w))
      (request SelectTransactions w).2.
Proof.
  intro Hfault. unfold fetchTransactions, bind at 1.
  unfold request at 1. rewrite Hfault. cbn [serve].
  unfold request. rewrite Hfault. cbn [serve].
  cbn [snd].
  match goal with |- all ?f ?l ?w0 = all ?f' ?l ?w0 =>
    assert (Hf : forall t w1, f t w1 = f' t w1);
    [|generalize w0; generalize l; clear -Hf]
  end.
  - intros t w0. unfold read_row, lift, decryptTransaction.
    destruct (_ && _); [|reflexivity].
    unfold bind, lift, ret.
    destruct (decrypt _ _ k); reflexivity.
  - intro l. induction l as [|t l IH]; intro w0; [reflexivity|].
    cbn [all]. unfold bind. rewrite Hf.
    destruct (lift (read_row k t) w0) as [[y|e] w1]; [|reflexivity].
    fold (bind (A:=list Row) (B:=list Row)).
    unfold bind. rewrite IH. reflexivity.
Qed.

Lemma fetch_reads (k : CryptoKey) (w : World) :
  fault w SelectTransactions = None ->
  (forall rows,
      (fetchTransactions (Some k) w).1 = Normal rows
      <-> Forall2 (fun t row => read_row k t = Normal row)
            (selected (remote w)) rows)
  /\ (Exists (fun t => exists e, read_row k t = Throw e)
        (selected (remote w)) ->
      exists e, (fetchTransactions (Some k) w).1 = Throw e)
  /\ (fetchTransactions (Some k) w).2 = (request SelectTransactions w).2.
Proof.
  intros Hfault.
  rewrite (fetchTransactions_with_key k w Hfault).
  destruct (all_pure (fun t => lift (read_row k t)) (read_row k)
              (selected (remote w)) (request SelectTransactions w).2)
    as (H1 & H2 & H3); [reflexivity|].
  split; [exact H2|]. split; [exact H3|exact H1].
Qed.

(** Under a key [fetchTransactions] is all or nothing.  It returns rows
    exactly when every selected row reads: a row that carries an
    envelope through its decryption, a row that carries none as it is
    stored.  One row whose envelope does not decrypt makes the whole
    call throw.  Nothing is written either way. *)
Theorem fetch_under_key_is_all_or_nothing (k : CryptoKey) (w : World) :
  fault w SelectTransactions = None ->
  let run := fetchTransactions (Some k) w in
  (forall rows,
      run.1 = Normal rows
      <-> Forall2 (fun t row => read_row k t = Normal row)
            (selected (remote w)) rows)
  /\ (Exists (fun t => exists e, read_row k t = Throw e)
        (selected (remote w)) ->
      exists e, run.1 = Throw e)
  /\ (forall t, truthy_string (row_encrypted_data t) = false
                \/ truthy_string (row_iv t) = false ->
                read_row k t = Normal t)
  /\ remote run.2 = remote w
  /\ sent run.2 = sent w ++ [SelectTransactions].
Proof.
  intros Hfault run. unfold run.
  destruct (fetch_reads k w Hfault) as (H2 & H3 & H1).
  split; [exact H2|]. split; [exact H3|]. split.
  - intros t [H|H]; unfold read_row; rewrite H;
      [|rewrite andb_false_r]; reflexivity.
  - rewrite H1. split.
    + rewrite request_remote, Hfault. reflexivity.
    + apply request_sent.
Qed.

End KeyedServiceFacts.

Section CreateThenFetch.

Context `{WP : WebPlatform} `{JS : Json SensitiveFields}.

Lemma base64_text_not_empty (buffer : list byte) :
  buffer <> [] -> truthy_string (Some (Base64.arrayBufferToBase64 buffer)) = true.
Proof.
  intro Hne. unfold truthy_string. apply negb_true_iff, String.eqb_neq.
  intro Hempty.
  pose proof (base64ToArrayBuffer_arrayBufferToBase64 buffer) as Hd.
  rewrite Hempty in Hd. vm_compute in Hd. injection Hd as <-.
  apply Hne. reflexivity.
Qed.

Lemma Forall_exists_Forall2 {A B : Type} (P : A -> B -> Prop) (l : list A) :
  Forall (fun x => exists y, P x y) l -> exists ys, Forall2 P l ys.
Proof.
  induction 1 as [|x l [y Hy] _ [ys IH]].
  - exists []. constructor.
  - exists (y :: ys). constructor; assumption.
Qed.

Lemma Forall2_elem_of_l {A B : Type} (P : A -> B -> Prop) (l : list A)
    (ys : list B) (x : A) :
  Forall2 P l ys -> x ∈ l -> exists y, y ∈ ys /\ P x y.
Proof.
  induction 1 as [|x' y l ys Hxy _ IH]; intro Hin.
  - apply elem_of_nil in Hin. contradiction.
  - apply elem_of_cons in Hin as [->|Hin].
    + exists y. split; [left|exact Hxy].
    + destruct (IH Hin) as (y' & Hy' & HP). exists y'. split; [right|]; assumption.
Qed.

(** What a successful [createTransaction] under a key did. *)
Lemma createTransaction_under_key (tx : NewTransaction) (k : CryptoKey)
    (w w1 : World) (created : Row) :
  createTransaction tx (Some k) w = (Normal created, w1) ->
  let envelope := (encrypt (sensitive_of tx) k (rng w)).1 in
  exists stored,
    transactions_table (remote w) !! row_id stored = None
    /\ transactions_table (remote w1)
       = <[row_id stored := stored]> (transactions_table (remote w))
    /\ categories_table (remote w1) = categories_table (remote w)
    /\ fault w1 = fault w
    /\ row_encrypted_data stored = Some (encrypted_data envelope)
    /\ row_iv stored = Some (iv envelope)
    /\ created = with_sensitive stored (Some (new_amount tx))
                   (new_description tx) (new_notes tx).
Proof.
  unfold createTransaction, bind, ret, throw, encryptTransaction, with_rng,
    sensitive_of.
  destruct (encrypt _ k (rng w)) as [envelope g].
  unfold request. cbn [fault remote sent].
  destruct (fault w _); [discriminate|].
  cbn [serve set_type].
  match goal with
  | |- context [new_row ?gen ?t ?p] => set (stored := new_row gen t p) in *
  end.
  destruct (transactions_table (remote w) !! row_id stored) eqn:E;
    [discriminate|].
  intro H. injection H as <- <-. cbn [fst]. exists stored.
  split; [exact E|]. split; [reflexivity|]. split; [reflexivity|].
  split; [reflexivity|].
  unfold stored, new_row. destruct (generated _ _) as [[uuid now] today].
  split; [reflexivity|]. split; reflexivity.
Qed.

(** A transaction created under a key is fetched back under that key
    with the amount, description and notes it was created with: on a
    platform that reads back what it encrypts of them, and when the rows
    stored before can be fetched under the key. *)
Theorem created_transaction_is_fetched (tx : NewTransaction)
    (k : CryptoKey) (w w1 : World) (created : Row) (before : list Row) :
  createTransaction tx (Some k) w = (Normal created, w1) ->
  reads_back k (rng w) (sensitive_of tx) ->
  (fetchTransactions (Some k) w).1 = Normal before ->
  fault w SelectTransactions = None ->
  exists rows row,
    (fetchTransactions (Some k) w1).1 = Normal rows
    /\ row ∈ rows
    /\ row = with_category (categories_table (remote w1)) created
    /\ row_amount row = Some (new_amount tx)
    /\ row_description row = new_description tx
    /\ row_notes row = new_notes tx.
Proof.
  intros Hcreate (Hcipher & Hnonempty & Hjson) Hbefore Hfault.
  destruct (createTransaction_under_key tx k w w1 created Hcreate)
    as (stored & Hfresh & Htable & Hcats & Hfaults & Hdata & Hiv & Hcreated).
  assert (Hfault1 : fault w1 SelectTransactions = None)
    by (rewrite Hfaults; exact Hfault).
  destruct (fetch_reads k w Hfault) as (Hiff & _).
  destruct (fetch_reads k w1 Hfault1) as (Hiff1 & _).
  apply Hiff in Hbefore.
  set (cats := categories_table (remote w1)) in *.
  set (fields := sensitive_of tx) in *.
  assert (Hnew : read_row k (with_category cats stored)
                 = Normal (with_sensitive (with_category cats stored)
                             (sens_amount fields) (sens_description fields)
                             (sens_notes fields))).
  { unfold read_row. cbn [row_encrypted_data row_iv with_category].
    rewrite Hdata, Hiv. unfold encrypt.
    pose proof (length_getRandomValues IV_LENGTH (rng w)) as Hlen.
    destruct (getRandomValues IV_LENGTH (rng w)) as [nonce g] eqn:Hg.
    cbn [fst snd] in *. cbn [encrypted_data iv].
    rewrite (base64_text_not_empty _ Hnonempty).
    rewrite base64_text_not_empty
      by (intros ->; discriminate Hlen).
    cbn [andb default from_option]. unfold Datatypes.id.
    assert (Hd : decrypt
                   (Base64.arrayBufferToBase64
                      (subtle_encrypt k nonce
                         (TextEncoder_encode (JSON_stringify fields))))
                   (Base64.arrayBufferToBase64 nonce) k = Normal fields).
    { apply decrypt_Normal_iff. eexists _, _, _.
      split; [apply base64ToArrayBuffer_arrayBufferToBase64|].
      split; [apply base64ToArrayBuffer_arrayBufferToBase64|].
      split; [exact Hcipher|exact Hjson]. }
    rewrite Hd. reflexivity. }
  assert (Hall : Forall (fun t => exists row, read_row k t = Normal row)
                   (selected (remote w1))).
  { apply Forall_forall. intros t Ht.
    apply elem_of_selected in Ht as (i & s & Hlookup & ->).
    rewrite Htable in Hlookup. fold cats.
    destruct (decide (i = row_id stored)) as [->|Hne].
    - rewrite lookup_insert_eq in Hlookup. injection Hlookup as <-.
      eexists. exact Hnew.
    - rewrite lookup_insert_ne in Hlookup by congruence.
      assert (Hin : with_category cats s ∈ selected (remote w)).
      { apply elem_of_selected. exists i, s. split; [exact Hlookup|].
        rewrite <- Hcats. reflexivity. }
      destruct (Forall2_elem_of_l _ _ _ _ Hbefore Hin) as (row & _ & Hrow).
      exists row. exact Hrow. }
  destruct (Forall_exists_Forall2 _ _ Hall) as [rows Hrows].
  assert (Hin : with_category cats stored ∈ selected (remote w1)).
  { apply elem_of_selected. exists (row_id stored), stored.
    split; [rewrite Htable; apply lookup_insert_eq|reflexivity]. }
  destruct (Forall2_elem_of_l _ _ _ _ Hrows Hin) as (row & Hrow & Hread).
  rewrite Hnew in Hread. injection Hread as <-.
  eexists _, _. split; [apply Hiff1; exact Hrows|].
  split; [exact Hrow|]. rewrite Hcreated.
  split; [reflexivity|]. split; [reflexivity|]. split; reflexivity.
Qed.

End CreateThenFetch.

Section KeyedUpdate.

Context `{WP : WebPlatform} `{JS : Json SensitiveFields}.

(** Under a key, an update that carries no truthy sensitive value (each
    of amount, description and notes absent, [0], [NaN] or [""]) is the
    update without a key: what it carries of them goes in clear, and no
    envelope is written. *)
Theorem falsy_update_goes_clear (i : string) (updates : PartialTransaction)
    (k : CryptoKey) (w : World) :
  has_truthy_sensitive updates = false ->
  updateTransaction i updates (Some k) w = updateTransaction i updates None w
  /\ sent (updateTransaction i updates (Some k) w).2
     = sent w ++ [UpdateTransaction i (clear_update updates) true]
  /\ set_amount (clear_update updates) = upd_amount updates
  /\ set_description (clear_update updates) = upd_description updates
  /\ set_notes (clear_update updates) = upd_notes updates
  /\ set_encrypted_data (clear_update updates) = None
  /\ set_iv (clear_update updates) = None.
Proof.
  intro Hfalsy. unfold has_truthy_sensitive in Hfalsy.
  assert (E : updateTransaction i updates (Some k) w
              = updateTransaction i updates None w)
    by (unfold updateTransaction; rewrite Hfalsy; reflexivity).
  split; [exact E|]. rewrite E.
  destruct (updateTransaction_without_key_sends_clear w i updates)
    as (H1 & H2 & H3 & H4 & H5 & H6 & _).
  split; [exact H1|]. split; [exact H2|]. split; [exact H3|].
  split; [exact H4|]. split; [exact H5|exact H6].
Qed.

(** Under a key, an update that carries a truthy sensitive value
    re-encrypts: the stored envelope is replaced by one that reads back
    as the merge of the update with the decrypted current record, and
    the clear columns stay as they were.  The row the call returns is the
    stored row: it does not carry the new values in clear. *)
Theorem update_under_key_merges (i : string) (updates : PartialTransaction)
    (k : CryptoKey) (w : World) (current : Row) (old : SensitiveFields) :
  (forall r, fault w r = None) ->
  transactions_table (remote w) !! i = Some current ->
  truthy_string (row_encrypted_data current) = true ->
  truthy_string (row_iv current) = true ->
  decrypt (default "" (row_encrypted_data current))
    (default "" (row_iv current)) k = Normal old ->
  has_truthy_sensitive updates = true ->
  reads_back k (rng w) (merged_fields old updates) ->
  exists row w',
    updateTransaction i updates (Some k) w = (Normal row, w')
    /\ transactions_table (remote w') !! i = Some row
    /\ row_amount row = row_amount current
    /\ row_description row = row_description current
    /\ row_notes row = row_notes current
    /\ read_row k row
       = Normal (with_sensitive row
                   (sens_amount (merged_fields old updates))
                   (sens_description (merged_fields old updates))
                   (sens_notes (merged_fields old updates)))
    /\ sent w' = sent w ++ [SelectTransaction i;
                            UpdateTransaction i
                              (add_envelope (plain_updates updates)
                                 (encrypt (merged_fields old updates) k
                                    (rng w)).1) true].
Proof.
  intros Hfault Hcurrent Hdata Hiv Hold Htruthy (Hcipher & Hnonempty & Hjson).
  unfold has_truthy_sensitive in Htruthy.
  unfold updateTransaction. rewrite Htruthy.
  unfold bind at 1. unfold bind at 1.
  unfold request at 1. rewrite Hfault. cbn [serve].
  rewrite Hcurrent. cbn [remote].
  rewrite Hdata, Hiv. cbn [andb].
  unfold bind at 1. unfold bind at 1.
  unfold decryptTransaction, lift. rewrite Hold.
  unfold ret at 1.
  unfold bind at 1. unfold encryptTransaction, with_rng. cbn [rng].
  fold (merged_fields old updates).
  pose proof (length_getRandomValues IV_LENGTH (rng w)) as Hlen.
  unfold encrypt in *.
  destruct (getRandomValues IV_LENGTH (rng w)) as [nonce g].
  cbn [fst snd] in *.
  unfold ret at 1. unfold bind at 1.
  unfold request at 1. cbn [fault]. rewrite Hfault.
  cbn [serve remote].
  unfold set_transactions_table at 1. cbn [transactions_table].
  rewrite lookup_alter_eq, Hcurrent. cbn [fmap option_fmap option_map].
  unfold ret.
  eexists _, _. split; [reflexivity|].
  cbn [remote transactions_table set_transactions_table].
  rewrite lookup_alter_eq, Hcurrent.
  split; [reflexivity|].
  split; [reflexivity|]. split; [reflexivity|]. split; [reflexivity|].
  split; [|cbn [sent]; rewrite <- app_assoc; reflexivity].
  unfold read_row.
  cbn [row_encrypted_data row_iv apply_payload add_envelope
       set_encrypted_data set_iv override encrypted_data iv].
  rewrite (base64_text_not_empty _ Hnonempty).
  rewrite base64_text_not_empty by (intros ->; discriminate Hlen).
  cbn [andb default from_option]. unfold Datatypes.id.
  assert (Hd : decrypt
                 (Base64.arrayBufferToBase64
                    (subtle_encrypt k nonce
                       (TextEncoder_encode
                          (JSON_stringify (merged_fields old updates)))))
                 (Base64.arrayBufferToBase64 nonce) k
               = Normal (merged_fields old updates)).
  { apply decrypt_Normal_iff. eexists _, _, _.
    split; [apply base64ToArrayBuffer_arrayBufferToBase64|].
    split; [apply base64ToArrayBuffer_arrayBufferToBase64|].
    split; [exact Hcipher|exact Hjson]. }
  rewrite Hd. reflexivity.
Qed.

(** An update of an id the table does not hold throws the store's error
    for [.single()] and leaves the table as it was, with or without a
    key. *)
Theorem update_of_missing_row_throws (i : string)
    (updates : PartialTransaction) (encryptionKey : option CryptoKey)
    (w : World) :
  (forall r, fault w r = None) ->
  transactions_table (remote w) !! i = None ->
  let run := updateTransaction i updates encryptionKey w in
  run.1 = Throw (PostgrestError
                   "JSON object requested, multiple (or no) rows returned")
  /\ transactions_table (remote run.2) = transactions_table (remote w).
Proof.
  intros Hfault Hmissing. cbv zeta.
  assert (Halter : forall p,
             alter (apply_payload p) i (transactions_table (remote w))
             = transactions_table (remote w)).
  { intro p. apply map_eq. intro j.
    destruct (decide (j = i)) as [->|Hne].
    - rewrite lookup_alter_eq, Hmissing. reflexivity.
    - rewrite lookup_alter_ne by congruence. reflexivity. }
  assert (Hupdate : forall p w0,
             fault w0 = fault w -> remote w0 = remote w ->
             let r := bind (request (UpdateTransaction i p true))
                        (fun resp =>
                           match resp with
                           | Failed message => throw (PostgrestError message)
                           | OneRow data => ret data
                           | _ => throw (Error "no data")
                           end) w0 in
             r.1 = Throw (PostgrestError
                     "JSON object requested, multiple (or no) rows returned")
             /\ transactions_table (remote r.2)
                = transactions_table (remote w)).
  { intros p w0 Hf Hr. cbv zeta. unfold bind, request.
    rewrite Hf, Hfault, Hr. cbn [serve]. rewrite Halter.
    unfold set_transactions_table. cbn [transactions_table].
    rewrite Hmissing. unfold throw. split; reflexivity. }
  assert (E : exists p w0,
             fault w0 = fault w /\ remote w0 = remote w
             /\ updateTransaction i updates encryptionKey w
                = bind (request (UpdateTransaction i p true))
                    (fun resp =>
                       match resp with
                       | Failed message => throw (PostgrestError message)
                       | OneRow data => ret data
                       | _ => throw (Error "no data")
                       end) w0).
  { unfold updateTransaction.
    destruct encryptionKey as [k|];
      [destruct (_ || _)|];
      [|exists (add_clear (plain_updates updates) updates), w;
        split; [reflexivity|]; split; reflexivity ..].
    exists (plain_updates updates),
      {| remote := remote w; sent := sent w ++ [SelectTransaction i];
         fault := fault w; rng := rng w; clock := clock w;
         readings := readings w; app := app w |}.
    split; [reflexivity|]. split; [reflexivity|].
    unfold bind at 1. unfold bind at 1. unfold request at 1.
    rewrite Hfault. cbn [serve]. rewrite Hmissing. reflexivity. }
  destruct E as (p & w0 & Hf & Hr & ->).
  exact (Hupdate p w0 Hf Hr).
Qed.

End KeyedUpdate.

(** ** lib/services/transactions.ts: deletions *)

Section MaintenanceFacts.

Context `{WP : WebPlatform} `{JS : Json SensitiveFields}.

(** [deleteTransaction] asks one deletion.  When the store accepts it
    the row of that id is gone, every other row is as it was, and the
    call returns also when the table held no such row; when it fails the
    call throws the store's error and the table is as it was.  The
    Zustand store is not touched either way. *)
Theorem deleteTransaction_effect (i : string) (s : Site) :
  let run := deleteTransaction i s in
  asked run.2 = asked s ++ [DeleteTransaction i]
  /\ app (site_world run.2) = app (site_world s)
  /\ goals_table run.2 = goals_table s
  /\ match failing s (DeleteTransaction i) with
     | Some message =>
         run.1 = Throw (PostgrestError message)
         /\ remote (site_world run.2) = remote (site_world s)
     | None =>
         run.1 = Normal tt
         /\ transactions_table (remote (site_world run.2)) !! i = None
         /\ (forall j, j <> i ->
               transactions_table (remote (site_world run.2)) !! j
               = transactions_table (remote (site_world s)) !! j)
         /\ categories_table (remote (site_world run.2))
            = categories_table (remote (site_world s))
         /\ user_settings_table (remote (site_world run.2))
            = user_settings_table (remote (site_world s))
     end.
Proof.
  cbv zeta. unfold deleteTransaction, bind_P, ask.
  destruct (failing s (DeleteTransaction i)) as [message|]; cbn.
  - repeat split; reflexivity.
  - split; [reflexivity|]. split; [reflexivity|]. split; [reflexivity|].
    split; [reflexivity|]. split; [apply lookup_delete_eq|].
    split; [|split; reflexivity].
    intros j Hj. apply lookup_delete_ne. congruence.
Qed.

(** [wipeAllData] asks the two deletions and returns normally whatever
    they answer: a deletion the store refuses leaves its table as it
    was, and the caller is not told.  Categories and settings are never
    touched. *)
Theorem wipeAllData_effect (s : Site) :
  let run := wipeAllData s in
  run.1 = Normal tt
  /\ asked run.2 = asked s ++ [DeleteAllTransactions; DeleteAllGoals]
  /\ transactions_table (remote (site_world run.2))
     = match failing s DeleteAllTransactions with
       | Some _ => transactions_table (remote (site_world s))
       | None => ∅
       end
  /\ goals_table run.2
     = match failing s DeleteAllGoals with
       | Some _ => goals_table s
       | None => ∅
       end
  /\ categories_table (remote (site_world run.2))
     = categories_table (remote (site_world s))
  /\ user_settings_table (remote (site_world run.2))
     = user_settings_table (remote (site_world s))
  /\ app (site_world run.2) = app (site_world s).
Proof.
  cbv zeta. unfold wipeAllData, bind_P, ask, unit_P.
  destruct (failing s DeleteAllTransactions) as [m1|] eqn:E1; cbn;
    destruct (failing s DeleteAllGoals) as [m2|] eqn:E2; cbn;
    rewrite <- app_assoc; repeat split; reflexivity.
Qed.

(** The settings page after [handleDatabaseWipe]: the dialog is closed
    with no error and the store's transactions and goals are emptied,
    whatever was typed as the key and whatever the deletions answered;
    when the store refused a deletion, its rows are still there. *)
Theorem handleDatabaseWipe_effect (page : SettingsPage)
    (encryptionKeyInput : string) (s : Site) :
  let run := handleDatabaseWipe page encryptionKeyInput s in
  (exists page', run.1 = Normal page'
                 /\ showDatabaseWipeDialog page' = false
                 /\ settings_error page' = None
                 /\ settings_loading page' = false)
  /\ Store.transactions (app (site_world run.2)) = []
  /\ Store.goals (app (site_world run.2)) = []
  /\ Store.encryptionKey (app (site_world run.2))
     = Store.encryptionKey (app (site_world s))
  /\ (forall other, handleDatabaseWipe page other s = run)
  /\ (forall message, failing s DeleteAllTransactions = Some message ->
        transactions_table (remote (site_world run.2))
        = transactions_table (remote (site_world s)))
  /\ (failing s DeleteAllTransactions = None ->
      transactions_table (remote (site_world run.2)) = ∅).
Proof.
  cbv zeta.
  pose proof (wipeAllData_effect s) as (Hrun & _ & Htable & _ & _ & _ & Happ).
  assert (E : forall input,
             handleDatabaseWipe page input s
             = (Normal {| showCurrencyList := showCurrencyList page;
                          showCurrencyChangeDialog :=
                            showCurrencyChangeDialog page;
                          showDatabaseWipeDialog := false;
                          settings_pendingCurrency :=
                            settings_pendingCurrency page;
                          settings_loading := false;
                          settings_error := None |},
                (set_store (Store.setGoals [])
                   (set_store (Store.setTransactions [])
                      (wipeAllData s).2).2).2)).
  { intro input. unfold handleDatabaseWipe, bind_P.
    destruct (wipeAllData s) as [[[]|e] s1]; cbn [fst snd] in *;
      [reflexivity|discriminate]. }
  rewrite E. cbn [fst snd].
  destruct (wipeAllData s) as [c s1]. cbn [fst snd] in *.
  unfold set_store, services, setState. cbn.
  split; [eexists; repeat split; reflexivity|].
  split; [reflexivity|]. split; [reflexivity|].
  split; [rewrite Happ; reflexivity|].
  split; [intro other; rewrite E; reflexivity|]. rewrite Htable. split.
  - intros message ->. reflexivity.
  - intros ->. reflexivity.
Qed.

(** [handleConfirmDelete] on the transactions page.  When the store
    accepts the deletion the row is gone from the table and the
    transaction from the Zustand store; when it fails the error is
    thrown again and both are as they were.  [isLoading] is off at the
    end either way. *)
Theorem handleConfirmDelete_effect (t : Transaction) (s : Site) :
  let run := handleConfirmDelete (Some t) s in
  Store.isLoading (app (site_world run.2)) = false
  /\ asked run.2 = asked s ++ [DeleteTransaction (id t)]
  /\ match failing s (DeleteTransaction (id t)) with
     | Some message =>
         run.1 = Throw (PostgrestError message)
         /\ Store.transactions (app (site_world run.2))
            = Store.transactions (app (site_world s))
         /\ remote (site_world run.2) = remote (site_world s)
     | None =>
         run.1 = Normal tt
         /\ Forall (fun u => id u <> id t)
              (Store.transactions (app (site_world run.2)))
         /\ transactions_table (remote (site_world run.2)) !! id t = None
     end.
Proof.
  cbv zeta. unfold handleConfirmDelete, bind_P, set_store, services,
    setState, deleteTransaction, bind_P, ask. cbn.
  destruct (failing s (DeleteTransaction (id t))) as [message|]; cbn.
  - repeat split; reflexivity.
  - split; [reflexivity|]. split; [reflexivity|]. split; [reflexivity|].
    split; [|apply lookup_delete_eq].
    apply Forall_forall. intros u Hu.
    apply list_elem_of_In, filter_In in Hu as [_ Hu].
    apply negb_true_iff, String.eqb_neq in Hu. exact Hu.
Qed.

(** [handleCurrencySelection] never sends a request.  Picking the
    current currency only closes the list; with no transaction in the
    store the store's currency changes at once, and [user_settings] is
    not written; otherwise the store is left as it is and the page asks
    how to treat the existing transactions. *)
Theorem handleCurrencySelection_effect (page : SettingsPage)
    (newCurrency : string) (w : World) :
  let run := handleCurrencySelection page newCurrency w in
  sent run.2 = sent w
  /\ remote run.2 = remote w
  /\ exists page',
       run.1 = Normal page' /\ showCurrencyList page' = false
       /\ if String.eqb newCurrency (Store.currency (app w)) then
            app run.2 = app w
            /\ showCurrencyChangeDialog page' = showCurrencyChangeDialog page
            /\ settings_pendingCurrency page' = settings_pendingCurrency page
          else if (length (Store.transactions (app w)) =? 0)%nat then
            app run.2 = Store.setCurrency newCurrency (app w)
            /\ showCurrencyChangeDialog page' = showCurrencyChangeDialog page
            /\ settings_pendingCurrency page' = settings_pendingCurrency page
          else
            app run.2 = app w
            /\ showCurrencyChangeDialog page' = true
            /\ settings_pendingCurrency page' = Some newCurrency.
Proof.
  cbv zeta. unfold handleCurrencySelection, bind, getState, setState, ret.
  destruct (String.eqb newCurrency (Store.currency (app w))); cbn.
  - split; [reflexivity|]. split; [reflexivity|].
    eexists. repeat split; reflexivity.
  - destruct (length (Store.transactions (app w)) =? 0)%nat; cbn;
      (split; [reflexivity|]; split; [reflexivity|];
       eexists; repeat split; reflexivity).
Qed.

End MaintenanceFacts.

(** ** lib/services/transactions.ts: creating several transactions *)

Section BatchFacts.

Context `{WP : WebPlatform} `{JS : Json SensitiveFields}.

Lemma recordData_run (tx : NewTransaction)
    (encryptionKey : option CryptoKey) (w : World) :
  recordData tx encryptionKey w
  = (Normal (payload_of tx encryptionKey (rng w)).1,
     set_rng (payload_of tx encryptionKey (rng w)).2 w).
Proof.
  unfold recordData, payload_of, sensitive_of.
  destruct encryptionKey as [k|].
  - unfold bind, encryptTransaction, with_rng, ret.
    destruct (encrypt _ k (rng w)) as [envelope g]. reflexivity.
  - unfold ret, set_rng. cbn [fst snd]. rewrite world_eta. reflexivity.
Qed.

Lemma all_recordData (txs : list NewTransaction)
    (encryptionKey : option CryptoKey) (w : World) :
  all (fun t => recordData t encryptionKey) txs w
  = (Normal (payloads_of txs encryptionKey (rng w)).1,
     set_rng (payloads_of txs encryptionKey (rng w)).2 w).
Proof.
  revert w. induction txs as [|tx rest IH]; intro w.
  - cbn. unfold ret, set_rng. rewrite world_eta. reflexivity.
  - cbn [all payloads_of]. unfold bind at 1. rewrite recordData_run.
    unfold bind at 1. rewrite IH. cbn [rng set_rng].
    destruct (payload_of tx encryptionKey (rng w)) as [p g1].
    cbn [fst snd].
    destruct (payloads_of rest encryptionKey g1) as [ps g2].
    reflexivity.
Qed.

Lemma payload_of_create (tx : NewTransaction)
    (encryptionKey : option CryptoKey) (g : Rng) :
  create_payload tx encryptionKey (payload_of tx encryptionKey g).1.
Proof.
  unfold payload_of, create_payload. destruct encryptionKey as [k|].
  - destruct (encrypt _ k g) as [envelope g']. cbn.
    split; [reflexivity|]. split; [reflexivity|]. split; eexists; reflexivity.
  - cbn. repeat split; reflexivity.
Qed.

Lemma payloads_of_create (txs : list NewTransaction)
    (encryptionKey : option CryptoKey) (g : Rng) :
  Forall2 (fun tx p => create_payload tx encryptionKey p
                       /\ exclusive_payload p = true)
    txs (payloads_of txs encryptionKey g).1.
Proof.
  revert g. induction txs as [|tx rest IH]; intro g; [constructor|].
  cbn [payloads_of].
  pose proof (payload_of_create tx encryptionKey g) as Hp.
  destruct (payload_of tx encryptionKey g) as [p g1].
  specialize (IH g1).
  destruct (payloads_of rest encryptionKey g1) as [ps g2].
  constructor; [|exact IH].
  split; [exact Hp|exact (create_payload_exclusive _ _ _ Hp)].
Qed.

Lemma length_insert_rows (ps : list Payload) (db db' : Supabase)
    (data : list Row) :
  insert_rows ps db = inr (data, db') -> length data = length ps.
Proof.
  revert db data. induction ps as [|p ps IH]; intros db data; cbn [insert_rows].
  - intro H. injection H as <- <-. reflexivity.
  - destruct (serve (InsertTransaction p) db) as [[m| |row|rows] db1];
      try discriminate.
    destruct (insert_rows ps db1) as [m|[data' db'']] eqn:E; [discriminate|].
    intro H. injection H as <- <-. cbn. f_equal. exact (IH _ _ E).
Qed.

Lemma with_inputs_carries (data : list Row) (txs : list NewTransaction) :
  length data = length txs ->
  exists rows, with_inputs data txs = Normal rows
               /\ Forall2 carries txs rows
               /\ Forall2 (fun t row => row_id row = row_id t
                                        /\ row_encrypted_data row
                                           = row_encrypted_data t)
                    data rows.
Proof.
  revert txs. induction data as [|t data IH]; intros [|tx txs] Hlen;
    try discriminate.
  - exists []. repeat constructor.
  - injection Hlen as Hlen. destruct (IH txs Hlen) as (rows & E & H1 & H2).
    cbn [with_inputs]. rewrite E. eexists. split; [reflexivity|].
    split; constructor; try assumption; repeat split; reflexivity.
Qed.

Lemma batchCreateTransactions_run (txs : list NewTransaction)
    (encryptionKey : option CryptoKey) (s : Site) :
  batchCreateTransactions txs encryptionKey s
  = let ps := (payloads_of txs encryptionKey (rng (site_world s))).1 in
    let w1 := set_rng (payloads_of txs encryptionKey (rng (site_world s))).2
                (site_world s) in
    let refused message : Completion (list Row) * Site :=
      (Throw (PostgrestError message),
       {| site_world := w1; goals_table := goals_table s;
          asked := asked s ++ [InsertTransactions ps];
          failing := failing s |}) in
    match failing s (InsertTransactions ps) with
    | Some message => refused message
    | None =>
        match insert_rows ps (remote (site_world s)) with
        | inr (data, db') =>
            (with_inputs data txs,
             {| site_world := with_remote db' w1; goals_table := goals_table s;
                asked := asked s ++ [InsertTransactions ps];
                failing := failing s |})
        | inl message => refused message
        end
    end.
Proof.
  unfold batchCreateTransactions, bind_P, services.
  rewrite all_recordData. cbv zeta.
  destruct (payloads_of txs encryptionKey (rng (site_world s))) as [ps g].
  cbn [fst snd]. unfold ask. cbn [failing asked site_world goals_table].
  destruct (failing s (InsertTransactions ps)) as [message|];
    [reflexivity|].
  cbn [answer remote set_rng].
  destruct (insert_rows ps (remote (site_world s))) as [message|[data db']];
    reflexivity.
Qed.

(** [batchCreateTransactions] asks one insert, of one record per
    transaction, each with the envelope and no clear sensitive column
    under a key and the other way round without one; an empty list
    still asks the insert of no record.  When the store accepts, the
    rows come back in the order given, each carrying the sensitive
    values of its transaction in clear; when it fails, the call throws
    and no record is stored. *)
Theorem batchCreateTransactions_effect (txs : list NewTransaction)
    (encryptionKey : option CryptoKey) (s : Site) :
  let run := batchCreateTransactions txs encryptionKey s in
  let payloads := (payloads_of txs encryptionKey (rng (site_world s))).1 in
  asked run.2 = asked s ++ [InsertTransactions payloads]
  /\ Forall2 (fun tx p => create_payload tx encryptionKey p
                          /\ exclusive_payload p = true) txs payloads
  /\ sent (site_world run.2) = sent (site_world s)
  /\ app (site_world run.2) = app (site_world s)
  /\ match run.1 with
     | Normal rows => Forall2 carries txs rows
     | Throw _ => remote (site_world run.2) = remote (site_world s)
     end.
Proof.
  cbv zeta. rewrite batchCreateTransactions_run. cbv zeta.
  pose proof (payloads_of_create txs encryptionKey (rng (site_world s))) as Hps.
  destruct (payloads_of txs encryptionKey (rng (site_world s))) as [ps g].
  cbn [fst snd] in *.
  destruct (failing s (InsertTransactions ps)) as [message|].
  - cbn. repeat split; try reflexivity. exact Hps.
  - destruct (insert_rows ps (remote (site_world s))) as [message|[data db']]
      eqn:Hinsert.
    + cbn. repeat split; try reflexivity. exact Hps.
    + cbn [fst snd asked site_world with_remote sent app set_rng].
      split; [reflexivity|]. split; [exact Hps|].
      split; [reflexivity|]. split; [reflexivity|].
      destruct (with_inputs_carries data txs) as (rows & -> & Hrows & _).
      * rewrite (length_insert_rows _ _ _ _ Hinsert).
        symmetry. exact (Forall2_length _ _ _ Hps).
      * exact Hrows.
Qed.

Lemma createTransaction_run (tx : NewTransaction)
    (encryptionKey : option CryptoKey) (w : World) :
  createTransaction tx encryptionKey w
  = let p := (payload_of tx encryptionKey (rng w)).1 in
    let after db :=
      {| remote := db; sent := sent w ++ [InsertTransaction p];
         fault := fault w; rng := (payload_of tx encryptionKey (rng w)).2;
         clock := clock w; readings := readings w; app := app w |} in
    match fault w (InsertTransaction p) with
    | Some message => (Throw (PostgrestError message), after (remote w))
    | None =>
        match serve (InsertTransaction p) (remote w) with
        | (OneRow data, db) =>
            (Normal (with_sensitive data (Some (new_amount tx))
                       (new_description tx) (new_notes tx)), after db)
        | (Failed message, db) => (Throw (PostgrestError message), after db)
        | (_, db) => (Throw (Error "no data"), after db)
        end
    end.
Proof.
  unfold createTransaction, payload_of, sensitive_of. cbv zeta.
  destruct encryptionKey as [k|].
  - unfold bind at 1. unfold bind at 1.
    unfold encryptTransaction, with_rng.
    destruct (encrypt _ k (rng w)) as [envelope g]. cbn [fst snd].
    unfold ret at 1. unfold bind, request. cbn [fault remote sent rng
      clock readings app].
    destruct (fault w _) as [message|]; [reflexivity|].
    destruct (serve _ (remote w)) as [[m| |row|rows] db]; reflexivity.
  - unfold bind at 1. unfold ret at 1. cbn [fst snd].
    unfold bind, request.
    destruct (fault w _) as [message|]; [reflexivity|].
    destruct (serve _ (remote w)) as [[m| |row|rows] db]; reflexivity.
Qed.

Lemma sequence_of_creates (txs : list NewTransaction)
    (encryptionKey : option CryptoKey) (w : World) (data : list Row)
    (db' : Supabase) :
  (forall r, fault w r = None) ->
  insert_rows (payloads_of txs encryptionKey (rng w)).1 (remote w)
  = inr (data, db') ->
  exists rows w',
    all (fun t => createTransaction t encryptionKey) txs w = (Normal rows, w')
    /\ with_inputs data txs = Normal rows
    /\ remote w' = db'
    /\ rng w' = (payloads_of txs encryptionKey (rng w)).2
    /\ app w' = app w.
Proof.
  revert w data. induction txs as [|tx rest IH]; intros w data Hfault.
  - cbn. intro H. injection H as <- <-. exists [], w. repeat split.
  - cbn [payloads_of all].
    pose proof (createTransaction_run tx encryptionKey w) as Hrun.
    cbv zeta in Hrun. rewrite Hfault in Hrun.
    destruct (payload_of tx encryptionKey (rng w)) as [p g1].
    cbn [fst snd] in Hrun.
    destruct (payloads_of rest encryptionKey g1) as [ps g2] eqn:Hps.
    cbn [fst snd insert_rows].
    destruct (serve (InsertTransaction p) (remote w))
      as [[m| |row|rows0] db1]; try discriminate.
    destruct (insert_rows ps db1) as [m|[data1 db2]] eqn:Hinsert;
      [discriminate|].
    intro H. injection H as <- <-.
    set (w1 := {| remote := db1; sent := sent w ++ [InsertTransaction p];
                  fault := fault w; rng := g1; clock := clock w;
                  readings := readings w; app := app w |}) in *.
    destruct (IH w1 data1) as (rows & w' & Hall & Hin & Hr & Hg & Ha).
    + exact Hfault.
    + cbn [rng remote w1]. rewrite Hps. exact Hinsert.
    + exists (with_sensitive row (Some (new_amount tx))
                (new_description tx) (new_notes tx) :: rows), w'.
      unfold bind at 1. rewrite Hrun.
      unfold bind at 1. rewrite Hall. unfold ret.
      cbn [with_inputs]. rewrite Hin.
      split; [reflexivity|]. split; [reflexivity|]. split; [exact Hr|].
      split; [|exact Ha]. rewrite Hg. cbn [rng w1]. rewrite Hps.
      reflexivity.
Qed.

(** When a batch succeeds, creating its transactions one by one from
    the same state returns the same rows and leaves the same tables:
    the nonces are drawn and the ids generated in the same order.  (A
    batch that fails stores nothing; the one-by-one loop keeps what it
    had stored.) *)
Theorem batch_is_sequence_of_creates (txs : list NewTransaction)
    (encryptionKey : option CryptoKey) (s s' : Site) (rows : list Row) :
  (forall r, fault (site_world s) r = None) ->
  batchCreateTransactions txs encryptionKey s = (Normal rows, s') ->
  exists w',
    all (fun t => createTransaction t encryptionKey) txs (site_world s)
    = (Normal rows, w')
    /\ remote w' = remote (site_world s')
    /\ rng w' = rng (site_world s')
    /\ app w' = app (site_world s').
Proof.
  intros Hfault. rewrite batchCreateTransactions_run. cbv zeta.
  destruct (failing s _) as [message|]; [discriminate|].
  destruct (insert_rows _ (remote (site_world s))) as [message|[data db']]
    eqn:Hinsert; [discriminate|].
  intro H. injection H as Hrows <-.
  destruct (sequence_of_creates txs encryptionKey (site_world s) data db'
              Hfault Hinsert) as (rows' & w' & Hall & Hin & Hr & Hg & Ha).
  rewrite Hrows in Hin. injection Hin as <-.
  exists w'. split; [exact Hall|]. cbn. auto.
Qed.

(** Deleting a transaction that was just created gives the table back:
    the id the store generated was fresh. *)
Theorem delete_after_create (tx : NewTransaction)
    (encryptionKey : option CryptoKey) (s s1 : Site) (created : Row) :
  services (createTransaction tx encryptionKey) s = (Normal created, s1) ->
  failing s (DeleteTransaction (row_id created)) = None ->
  let run := deleteTransaction (row_id created) s1 in
  run.1 = Normal tt
  /\ transactions_table (remote (site_world run.2))
     = transactions_table (remote (site_world s)).
Proof.
  unfold services. rewrite createTransaction_run. cbv zeta.
  destruct (fault (site_world s) _) as [message|]; [discriminate|].
  cbn [serve set_type].
  pose proof (payload_of_create tx encryptionKey (rng (site_world s)))
    as [Htype _].
  destruct (payload_of tx encryptionKey (rng (site_world s))) as [p g].
  cbn [fst snd] in *. rewrite Htype.
  set (t := new_type tx).
  match goal with
  | |- context [new_row ?gen t p] => set (stored := new_row gen t p)
  end.
  destruct (transactions_table (remote (site_world s)) !! row_id stored) eqn:E;
    [discriminate|].
  intro H. injection H as <- <-. intro Hfailing. cbv zeta.
  unfold deleteTransaction, bind_P, ask. cbn [failing site_world].
  cbn [row_id with_sensitive] in Hfailing |- *. rewrite Hfailing. cbn.
  split; [reflexivity|]. apply delete_insert_id. exact E.
Qed.

End BatchFacts.

(** ** lib/services/currency.ts: the other outcomes of the rewrite *)

Section RewriteOutcomes.

Context `{WP : WebPlatform} `{JS : Json SensitiveFields}.

(** With no transaction in the store the rewrite returns at once: no
    request is sent and nothing changes, the store's currency included;
    the page's [handleConvert] then clears the pending currency as after
    a successful conversion. *)
Theorem rewrite_of_empty_store_does_nothing (oldCurrency newCurrency : string)
    (rate : float) (w : World) (p : PageState) (pending : string) :
  Store.transactions (app w) = [] ->
  pendingCurrency p = Some pending ->
  updateTransactionsCurrencyInDB oldCurrency newCurrency rate w
  = (Normal tt, w)
  /\ page_handleConvert p rate w
     = (Normal {| pendingCurrency := None; page_error := None |}, w)
  /\ Store.currency (app (page_handleConvert p rate w).2)
     = Store.currency (app w).
Proof.
  intros Hempty Hpending.
  assert (E : forall o n, updateTransactionsCurrencyInDB o n rate w
                          = (Normal tt, w))
    by (intros o n; rewrite rewrite_equation, Hempty; reflexivity).
  split; [apply E|].
  unfold page_handleConvert. rewrite Hpending, E. split; reflexivity.
Qed.




End RewriteOutcomes.

(** ** lib/export.ts *)

Section ExportFacts.

Context `{NT : NumberText}.

Import CsvExport.

Lemma finish_any_state (st : CsvState) (field : list ascii)
    (record : list string) (tail : string) :
  ends_field tail -> st <> Quoted ->
  read_csv_from st field record tail = finish_field field record tail.
Proof.
  intros [->|[[rest ->]|[rest ->]]] Hst; unfold finish_field;
    destruct st; try contradiction; reflexivity.
Qed.

Lemma string_append_cons (x : ascii) (a b : string) :
  String.append (String x a) b = String x (String.append a b).
Proof. reflexivity. Qed.

Lemma string_append_nil (b : string) : String.append EmptyString b = b.
Proof. reflexivity. Qed.

Lemma string_append_assoc (a b c : string) :
  String.append (String.append a b) c = String.append a (String.append b c).
Proof.
  induction a as [|x a IH]; [reflexivity|].
  rewrite !string_append_cons. f_equal. exact IH.
Qed.

Lemma read_plain (s : string) (st : CsvState) (field : list ascii)
    (record : list string) (tail : string) :
  plain_text s -> st = FieldStart \/ st = Unquoted ->
  ends_field tail ->
  read_csv_from st field record (String.append s tail)
  = finish_field (rev (list_ascii_of_string s) ++ field) record tail.
Proof.
  revert st field. induction s as [|c s IH]; intros st field Hp Hst Hend.
  - rewrite string_append_nil. cbn [list_ascii_of_string rev app].
    apply finish_any_state; [exact Hend|]. destruct Hst; congruence.
  - destruct Hp as (H1 & H2 & H3). cbn [JsString.includes] in H1, H2, H3.
    apply orb_false_iff in H1 as [H1 H1'], H2 as [H2 H2'], H3 as [H3 H3'].
    assert (E : read_csv_from st field record
                  (String.append (String c s) tail)
                = read_csv_from Unquoted (c :: field) record
                    (String.append s tail)).
    { rewrite string_append_cons. destruct Hst as [-> | ->]; cbn [read_csv_from];
        rewrite H1, H2, ?H3; reflexivity. }
    rewrite E.
    rewrite IH; [|repeat split; assumption|right; reflexivity|exact Hend].
    cbn [list_ascii_of_string rev]. rewrite <- app_assoc. reflexivity.
Qed.

Lemma read_quoted (s : string) (field : list ascii) (record : list string)
    (tail : string) :
  ends_field tail ->
  read_csv_from Quoted field record
    (String.append (double_quotes s) (String quote tail))
  = finish_field (rev (list_ascii_of_string s) ++ field) record tail.
Proof.
  intro Hend. revert field. induction s as [|c s IH]; intro field.
  - cbn [double_quotes list_ascii_of_string rev app].
    rewrite string_append_nil. cbn [read_csv_from]. rewrite Ascii.eqb_refl.
    apply finish_any_state; [exact Hend|discriminate].
  - cbn [double_quotes]. destruct (Ascii.eqb c quote) eqn:E.
    + apply Ascii.eqb_eq in E. subst c.
      rewrite !string_append_cons. cbn [read_csv_from]. rewrite !Ascii.eqb_refl.
      rewrite IH. cbn [list_ascii_of_string rev]. rewrite <- app_assoc.
      reflexivity.
    + rewrite string_append_cons. cbn [read_csv_from]. rewrite E. rewrite IH.
      cbn [list_ascii_of_string rev]. rewrite <- app_assoc. reflexivity.
Qed.

Lemma read_text (s : string) (record : list string) (tail : string) :
  ends_field tail ->
  read_csv_from FieldStart [] record
    (String.append (escapeCSVField (CsvText s)) tail)
  = finish_field (rev (list_ascii_of_string s)) record tail.
Proof.
  intro Hend. unfold escapeCSVField. cbn [String_of].
  destruct (JsString.includes s comma || JsString.includes s newline
            || JsString.includes s quote) eqn:E.
  - rewrite string_append_cons. cbn [read_csv_from].
    replace (Ascii.eqb quote comma) with false by reflexivity.
    replace (Ascii.eqb quote newline) with false by reflexivity.
    rewrite Ascii.eqb_refl. rewrite string_append_assoc, string_append_cons, string_append_nil.
    rewrite read_quoted by exact Hend.
    rewrite app_nil_r. reflexivity.
  - apply orb_false_iff in E as [E E3]. apply orb_false_iff in E as [E1 E2].
    rewrite read_plain; [rewrite app_nil_r; reflexivity| |left; reflexivity
                        |exact Hend].
    repeat split; assumption.
Qed.

Lemma read_field (v : CsvValue) (record : list string) (tail : string) :
  ends_field tail ->
  read_csv_from FieldStart [] record (String.append (escapeCSVField v) tail)
  = finish_field (rev (list_ascii_of_string (String_of v))) record tail.
Proof.
  intro Hend. destruct v as [|s|x].
  - cbn [escapeCSVField String_of list_ascii_of_string rev].
    rewrite string_append_nil.
    apply finish_any_state; [exact Hend|discriminate].
  - apply read_text. exact Hend.
  - exact (read_text (Number_toString x) record tail Hend).
Qed.

Lemma string_of_rev_rev (s : string) :
  string_of_list_ascii (rev (rev (list_ascii_of_string s))) = s.
Proof. rewrite rev_involutive. apply string_of_list_ascii_of_string. Qed.

Lemma last_cons {A : Type} (l : list A) (a d : A) :
  List.last (a :: l) d = List.last l a.
Proof.
  revert a d. induction l as [|b l IH]; intros a d; [reflexivity|].
  change (List.last (a :: b :: l) d) with (List.last (b :: l) d).
  rewrite !IH. reflexivity.
Qed.

(** Reading the fields of one record, joined by commas. *)
Lemma read_record (vs : list CsvValue) (v : CsvValue)
    (record : list string) (tail : string) :
  tail = EmptyString \/ (exists rest, tail = String newline rest) ->
  read_csv_from FieldStart [] record
    (String.append (JsString.join "," (map escapeCSVField (v :: vs))) tail)
  = finish_field
      (rev (list_ascii_of_string (String_of (List.last vs v))))
      (rev (map String_of (List.removelast (v :: vs))) ++ record) tail.
Proof.
  intro Hend. revert v record. induction vs as [|v' vs IH]; intros v record.
  - cbn [map JsString.join List.last List.removelast rev app].
    apply read_field. destruct Hend as [->|H]; [left|right; right];
      [reflexivity|exact H].
  - change (JsString.join "," (map escapeCSVField (v :: v' :: vs)))
      with (String.append (escapeCSVField v)
              (String.append ","
                 (JsString.join "," (map escapeCSVField (v' :: vs))))).
    rewrite string_append_assoc, read_field
      by (right; left; eexists; rewrite string_append_assoc; reflexivity).
    rewrite string_append_assoc, string_append_cons, string_append_nil. unfold finish_field.
    cbn [read_csv_from].
    replace (Ascii.eqb "," comma) with true by reflexivity.
    rewrite string_of_rev_rev, IH.
    assert (E1 : List.last (v' :: vs) v = List.last vs v')
      by apply last_cons.
    assert (E2 : List.removelast (v :: v' :: vs)
                 = v :: List.removelast (v' :: vs)) by reflexivity.
    rewrite E1, E2. cbn [map rev]. rewrite <- app_assoc. reflexivity.
Qed.

Lemma string_append_empty (a : string) : String.append a EmptyString = a.
Proof.
  induction a as [|x a IH]; [reflexivity|].
  rewrite string_append_cons. f_equal. exact IH.
Qed.

Lemma finish_at_end (field : list ascii) (record : list string) :
  finish_field field record EmptyString
  = [rev (string_of_list_ascii (rev field) :: record)].
Proof. reflexivity. Qed.

Lemma finish_at_newline (field : list ascii) (record : list string)
    (rest : string) :
  finish_field field record (String newline rest)
  = rev (string_of_list_ascii (rev field) :: record)
    :: read_csv_from FieldStart [] [] rest.
Proof. reflexivity. Qed.

Lemma texts_of_record (vs : list CsvValue) (v : CsvValue) :
  rev (string_of_list_ascii
         (rev (rev (list_ascii_of_string (String_of (List.last vs v)))))
       :: rev (map String_of (List.removelast (v :: vs))) ++ [])
  = map String_of (v :: vs).
Proof.
  rewrite string_of_rev_rev, app_nil_r. cbn [rev].
  rewrite rev_involutive, <- (last_cons vs v v).
  replace [String_of (List.last (v :: vs) v)]
    with (map String_of [List.last (v :: vs) v]) by reflexivity.
  rewrite <- map_app, <- app_removelast_last by discriminate.
  reflexivity.
Qed.

(** The text of a record, and reading the lines of a file. *)
Lemma read_lines (rows : list (list CsvValue)) (row : list CsvValue) :
  Forall (fun r => r <> []) (row :: rows) ->
  read_csv_from FieldStart [] []
    (JsString.join (String newline EmptyString)
       (map (fun r => JsString.join "," (map escapeCSVField r))
          (row :: rows)))
  = map (map String_of) (row :: rows).
Proof.
  revert row. induction rows as [|row' rows IH]; intros row Hne.
  - apply Forall_cons in Hne as [Hrow _].
    destruct row as [|v vs]; [contradiction|].
    change (JsString.join (String newline EmptyString)
              (map (fun r => JsString.join "," (map escapeCSVField r))
                 [v :: vs]))
      with (JsString.join "," (map escapeCSVField (v :: vs))).
    rewrite <- (string_append_empty (JsString.join "," _)).
    rewrite read_record by (left; reflexivity).
    rewrite finish_at_end, texts_of_record. reflexivity.
  - apply Forall_cons in Hne as [Hrow Hne].
    destruct row as [|v vs]; [contradiction|].
    change (JsString.join (String newline EmptyString)
              (map (fun r => JsString.join "," (map escapeCSVField r))
                 ((v :: vs) :: row' :: rows)))
      with (String.append (JsString.join "," (map escapeCSVField (v :: vs)))
              (String.append (String newline EmptyString)
                 (JsString.join (String newline EmptyString)
                    (map (fun r => JsString.join "," (map escapeCSVField r))
                       (row' :: rows))))).
    rewrite string_append_cons, string_append_nil.
    rewrite read_record by (right; eexists; reflexivity).
    rewrite finish_at_newline, texts_of_record, (IH row' Hne).
    reflexivity.
Qed.

(** A field written by [escapeCSVField] reads back as the text of the
    value ([null] as the empty text): quoting is undone, and nothing of
    the text is taken for a separator.  So two texts with the same
    escaped field are the same text; and a text with no comma, line feed
    or double quote is written as it is. *)
Theorem escaped_field_reads_back (v : CsvValue) :
  read_csv (escapeCSVField v) = [[String_of v]]
  /\ (forall s s', escapeCSVField (CsvText s) = escapeCSVField (CsvText s')
                   -> s = s')
  /\ (forall s, plain_text s -> escapeCSVField (CsvText s) = s).
Proof.
  assert (Hread : forall v, read_csv (escapeCSVField v) = [[String_of v]]).
  { intro v0. unfold read_csv.
    rewrite <- (string_append_empty (escapeCSVField v0)).
    rewrite read_field by (left; reflexivity).
    rewrite finish_at_end, string_of_rev_rev. reflexivity. }
  split; [apply Hread|]. split.
  - intros s s' E. pose proof (Hread (CsvText s)) as H.
    rewrite E, Hread in H. injection H as H. symmetry. exact H.
  - intros s (H1 & H2 & H3). unfold escapeCSVField. cbn [String_of].
    rewrite H1, H2, H3. reflexivity.
Qed.

(** The exported file reads back: the header record, then one record of
    nine fields per transaction, in order, each field the text of the
    value written whatever commas, line feeds and double quotes it
    holds. *)
Theorem exported_csv_reads_back (transactions : list Transaction)
    (categories : list Category) (currency : string) :
  read_csv (exportTransactionsAsCSV transactions categories currency)
  = headers
    :: map (fun t => map String_of (row_of categories currency t))
         transactions.
Proof.
  unfold read_csv, exportTransactionsAsCSV.
  pose proof (read_lines (map (row_of categories currency) transactions)
                (map CsvText headers)) as H.
  rewrite map_cons, !map_map in H. cbn [map] in H |- *.
  rewrite !map_map. rewrite H.
  - f_equal. apply map_map.
  - constructor; [discriminate|].
    apply Forall_forall. intros r Hr. apply list_elem_of_fmap in Hr
      as (t & -> & _). discriminate.
Qed.

End ExportFacts.

(** ** components/bulk-transaction-import.tsx *)

Section BulkImportFacts.

Context `{WP : WebPlatform} `{JS : Json SensitiveFields} `{TP : TextPlatform}.

(** With encryption enabled and no key in the store, [handleSubmit]
    stops before the loop: nothing is sent, the store is not changed,
    and the dialog shows that the key is not loaded. *)
Theorem bulk_import_refuses_when_locked (d : BulkDialog) (w : World) :
  locked (app w) ->
  let run := handleSubmit d w in
  run.2 = w
  /\ exists page,
       run.1 = Normal page
       /\ bulk_error page
          = "Encryption key not loaded. Please unlock your encryption first."
       /\ bulk_loading page = false
       /\ successCount page = 0%nat.
Proof.
  intros [(config & Hconfig & Henabled) Hkey]. cbv zeta.
  unfold handleSubmit. rewrite Hconfig, Henabled, Hkey.
  rewrite bool_decide_eq_false_2 by (intros [k Hk]; discriminate).
  cbn. split; [reflexivity|]. eexists. repeat split; reflexivity.
Qed.

Lemma createTransaction_grows (tx : NewTransaction)
    (encryptionKey : option CryptoKey) (w : World) :
  let run := createTransaction tx encryptionKey w in
  app run.2 = app w
  /\ fault run.2 = fault w
  /\ (exists p, sent run.2 = sent w ++ [InsertTransaction p])
  /\ match run.1 with
     | Normal _ =>
         size (transactions_table (remote run.2))
         = S (size (transactions_table (remote w)))
     | Throw _ => remote run.2 = remote w
     end.
Proof.
  cbv zeta. rewrite createTransaction_run. cbv zeta.
  pose proof (payload_of_create tx encryptionKey (rng w)) as [Htype _].
  destruct (payload_of tx encryptionKey (rng w)) as [p g].
  cbn [fst snd] in *.
  destruct (fault w (InsertTransaction p)) as [message|].
  - cbn. repeat split; try reflexivity. eexists. reflexivity.
  - cbn [serve]. rewrite Htype.
    match goal with |- context [new_row ?gen ?t p] =>
      set (stored := new_row gen t p) end.
    destruct (transactions_table (remote w) !! row_id stored) eqn:E.
    + cbn. repeat split; try reflexivity. eexists. reflexivity.
    + cbn. split; [reflexivity|]. split; [reflexivity|].
      split; [eexists; reflexivity|].
      rewrite map_size_insert_None by exact E. reflexivity.
Qed.

Lemma import_rows_outcome (rows : list BulkTransactionRow)
    (categories : list Category) (encryptionKey : option CryptoKey)
    (created : nat) (w : World) :
  let run := import_rows rows categories encryptionKey created w in
  exists n : nat,
    imported n w run.2
    /\ (n <= length (omap (accepted_row categories) rows))%nat
    /\ (exists reqs, sent run.2 = sent w ++ reqs
                     /\ Forall (fun r => exists p, r = InsertTransaction p)
                          reqs
                     /\ (n <= length reqs <= S n)%nat)
    /\ match run.1 with
       | Normal count =>
           count = (created + n)%nat
           /\ n = length (omap (accepted_row categories) rows)
       | Throw _ => (n < length (omap (accepted_row categories) rows))%nat
       end.
Proof.
  cbv zeta. revert created w.
  induction rows as [|row rest IH]; intros created w.
  - exists 0%nat. cbn. unfold imported. rewrite !Nat.add_0_r.
    split; [split; reflexivity|]. split; [lia|].
    split; [exists []; rewrite app_nil_r; split; [reflexivity|]; split;
            [apply Forall_nil_2|cbn; lia]|].
    split; reflexivity.
  - cbn [import_rows omap list_omap].
    destruct (accepted_row categories row) as [category|]; [|apply IH].
    cbn [length].
    destruct (mood_of (bulk_mood row)) as [its_mood|].
    + unfold bind, setState.
      pose proof (createTransaction_grows
                    (transaction_for row category its_mood) encryptionKey w)
        as (Happ & Hfault & [p Hsent] & Hsize).
      destruct (createTransaction _ encryptionKey w)
        as [[newTransaction|e] w1]; cbn [fst snd] in *.
      * match goal with |- context [import_rows rest _ _ _ ?w2] =>
          destruct (IH (S created) w2)
            as (n & [Hstore Htable] & Hle & (reqs & Hreqs & Hall & Hlen)
                & Hres) end.
        cbn [app remote sent Store.transactions Store.addTransaction
             Store.setTransactions length] in *.
        exists (S n). split; [split|].
        -- rewrite Hstore, Happ. lia.
        -- rewrite Htable, Hsize. lia.
        -- split; [lia|]. split.
           ++ exists (InsertTransaction p :: reqs).
              rewrite Hreqs, Hsent, <- app_assoc.
              split; [reflexivity|]. split; [constructor; eauto|].
              cbn [length]. lia.
           ++ destruct (import_rows rest _ _ _ _).1; [|lia].
              destruct Hres as [-> ->]. split; lia.
      * exists 0%nat. unfold imported. rewrite Happ, Hsize, !Nat.add_0_r.
        split; [split; reflexivity|]. split; [lia|].
        split; [|lia].
        exists [InsertTransaction p]. split; [exact Hsent|].
        split; [constructor; eauto|]. cbn. lia.
    + exists 0%nat. unfold throw, imported. cbn [fst snd].
      rewrite !Nat.add_0_r. split; [split; reflexivity|]. split; [lia|].
      split; [|lia].
      exists []. rewrite app_nil_r. split; [reflexivity|].
      split; [apply Forall_nil_2|cbn; lia].
Qed.

(** [handleSubmit] outside the locked state.  The rows that fail a
    check are skipped, and each accepted row is created with one insert
    and added to the store.  When no creation throws, the dialog shows
    the count of the accepted rows, and an error when that is zero.
    When a creation throws, the loop stops: the dialog shows the error
    and the count 0, while the transactions created before it stay in
    the table and in the store. *)
Theorem bulk_import_outcome (d : BulkDialog) (w : World) :
  ~ locked (app w) ->
  let run := handleSubmit d w in
  let accepted :=
    omap (accepted_row (Store.categories (app w))) (bulk_rows d) in
  exists (page : BulkDialog) (n : nat),
    run.1 = Normal page
    /\ imported n w run.2
    /\ bulk_loading page = false
    /\ ((n = length accepted
         /\ successCount page = n
         /\ bulk_error page
            = (if (0 <? n)%nat then ""
               else "No valid transactions were created"))
        \/ ((n < length accepted)%nat
            /\ successCount page = 0%nat
            /\ bulk_error page <> "")).
Proof.
  intros Hopen. cbv zeta. unfold handleSubmit.
  assert ((match Store.encryptionConfig (app w) with
           | Some config => enabled config
           | None => false
           end
           && negb (bool_decide (is_Some (Store.encryptionKey (app w)))))
          = false) as ->.
  { apply not_true_is_false. intros H.
    apply andb_true_iff in H as [Hconfig Hkey]. apply Hopen. split.
    - destruct (Store.encryptionConfig (app w)) as [config|];
        [|discriminate]. eauto.
    - apply negb_true_iff, bool_decide_eq_false in Hkey.
      destruct (Store.encryptionKey (app w)); [|reflexivity].
      exfalso. apply Hkey. eauto. }
  pose proof (import_rows_outcome (bulk_rows d) (Store.categories (app w))
                (Store.encryptionKey (app w)) 0 w)
    as (n & Himported & _ & _ & Hres).
  destruct (import_rows (bulk_rows d) (Store.categories (app w))
              (Store.encryptionKey (app w)) 0 w) as [[count|err] w'];
    cbn [fst snd] in *.
  - destruct Hres as [-> Hn]. cbn [Nat.add].
    destruct (0 <? n)%nat eqn:E; cbn [fst snd]; eexists; exists n;
      (split; [reflexivity|]); (split; [exact Himported|]);
      (split; [reflexivity|]); left;
      (split; [exact Hn|]); (split; [reflexivity|]);
      cbn [bulk_error]; rewrite E; reflexivity.
  - eexists. exists n. cbn [fst snd]. split; [reflexivity|].
    split; [exact Himported|]. split; [reflexivity|]. right.
    split; [exact Hres|]. split; [reflexivity|]. cbn.
    destruct (String.eqb (message_of err) "") eqn:E; [discriminate|].
    apply String.eqb_neq in E. exact E.
Qed.

End BulkImportFacts.


(** ** lib/export.ts and components/bulk-transaction-import.tsx:
    importing an exported file *)

Section ReimportFacts.

Import CsvExport.

Context `{NT : NumberText}.

Lemma includes_append (a b : string) (c : ascii) :
  JsString.includes (String.append a b) c
  = JsString.includes a c || JsString.includes b c.
Proof.
  induction a as [|x a IH]; [reflexivity|].
  rewrite string_append_cons. cbn [JsString.includes].
  rewrite IH. apply orb_assoc.
Qed.

Lemma split_plain (c : ascii) (s : string) :
  JsString.includes s c = false -> JsString.split c s = [s].
Proof.
  induction s as [|x s IH]; [reflexivity|].
  cbn [JsString.includes JsString.split]. intros H.
  apply orb_false_iff in H as [-> H]. rewrite (IH H). reflexivity.
Qed.

Lemma split_append (c : ascii) (a b : string) :
  JsString.includes a c = false ->
  JsString.split c (String.append a (String c b)) = a :: JsString.split c b.
Proof.
  induction a as [|x a IH]; intros H.
  - rewrite string_append_nil. cbn [JsString.split].
    rewrite Ascii.eqb_refl. reflexivity.
  - cbn [JsString.includes] in H. apply orb_false_iff in H as [Hx H].
    rewrite string_append_cons. cbn [JsString.split].
    rewrite Hx, (IH H). reflexivity.
Qed.

Lemma join_cons (sep p q : string) (rest : list string) :
  JsString.join sep (p :: q :: rest)
  = String.append p (String.append sep (JsString.join sep (q :: rest))).
Proof. reflexivity. Qed.

Lemma join_snoc (sep p x : string) (pieces : list string) :
  JsString.join sep ((p :: pieces) ++ [x])
  = String.append (JsString.join sep (p :: pieces)) (String.append sep x).
Proof.
  revert p. induction pieces as [|q rest IH]; intros p.
  - reflexivity.
  - change ((p :: q :: rest) ++ [x]) with (p :: (q :: rest) ++ [x]).
    change ((q :: rest) ++ [x]) with (q :: rest ++ [x]) at 1.
    rewrite join_cons.
    change (q :: rest ++ [x]) with ((q :: rest) ++ [x]).
    rewrite IH, join_cons, !string_append_assoc. reflexivity.
Qed.

Lemma split_join (c : ascii) (p : string) (pieces : list string) :
  Forall (fun s => JsString.includes s c = false) (p :: pieces) ->
  JsString.split c (JsString.join (String c EmptyString) (p :: pieces))
  = p :: pieces.
Proof.
  revert p. induction pieces as [|q rest IH]; intros p H.
  - apply split_plain. apply (Forall_inv H).
  - rewrite join_cons, string_append_cons, string_append_nil.
    rewrite split_append by apply (Forall_inv H).
    rewrite IH by apply (Forall_inv_tail H). reflexivity.
Qed.

Lemma includes_join (c sep : ascii) (pieces : list string) :
  Ascii.eqb sep c = false ->
  Forall (fun s => JsString.includes s c = false) pieces ->
  JsString.includes (JsString.join (String sep EmptyString) pieces) c = false.
Proof.
  intros Hsep H. induction H as [|p rest Hp Hrest IH]; [reflexivity|].
  destruct rest as [|q rest]; [exact Hp|].
  rewrite join_cons, !includes_append, Hp, IH. cbn [JsString.includes].
  rewrite Hsep. reflexivity.
Qed.

Lemma trimStart_append (c : ascii) (a b : string) :
  JsString.is_white c = false ->
  JsString.trimStart (String.append a (String c b))
  = String.append (JsString.trimStart a) (String c b).
Proof.
  intros Hc. induction a as [|x a IH].
  - rewrite string_append_nil. cbn [JsString.trimStart]. rewrite Hc.
    reflexivity.
  - rewrite string_append_cons. cbn [JsString.trimStart].
    destruct (JsString.is_white x); [exact IH|reflexivity].
Qed.

Lemma includes_trimStart (c : ascii) (s : string) :
  JsString.includes s c = false ->
  JsString.includes (JsString.trimStart s) c = false.
Proof.
  induction s as [|x s IH]; [reflexivity|]. intros H.
  cbn [JsString.trimStart]. destruct (JsString.is_white x); [|exact H].
  cbn [JsString.includes] in H. apply orb_false_iff in H as [_ H]. auto.
Qed.

Lemma list_ascii_of_append (a b : string) :
  list_ascii_of_string (String.append a b)
  = (list_ascii_of_string a ++ list_ascii_of_string b)%list.
Proof.
  induction a as [|x a IH]; [reflexivity|].
  rewrite string_append_cons. cbn [list_ascii_of_string]. rewrite IH.
  reflexivity.
Qed.

Lemma string_of_list_app (a b : list ascii) :
  string_of_list_ascii (a ++ b)
  = String.append (string_of_list_ascii a) (string_of_list_ascii b).
Proof.
  induction a as [|x a IH]; [reflexivity|].
  rewrite <- app_comm_cons. cbn [string_of_list_ascii]. rewrite IH.
  reflexivity.
Qed.

Lemma reverse_append (a b : string) :
  JsString.reverse (String.append a b)
  = String.append (JsString.reverse b) (JsString.reverse a).
Proof.
  unfold JsString.reverse.
  rewrite list_ascii_of_append, rev_app_distr. apply string_of_list_app.
Qed.

Lemma reverse_cons (c : ascii) (s : string) :
  JsString.reverse (String c s)
  = String.append (JsString.reverse s) (String c EmptyString).
Proof.
  unfold JsString.reverse. cbn [list_ascii_of_string rev].
  apply string_of_list_app.
Qed.

Lemma reverse_reverse (s : string) :
  JsString.reverse (JsString.reverse s) = s.
Proof.
  unfold JsString.reverse.
  rewrite list_ascii_of_string_of_list_ascii, rev_involutive.
  apply string_of_list_ascii_of_string.
Qed.

Lemma includes_reverse (c : ascii) (s : string) :
  JsString.includes (JsString.reverse s) c = JsString.includes s c.
Proof.
  induction s as [|x s IH]; [reflexivity|].
  rewrite reverse_cons, includes_append, IH. cbn [JsString.includes].
  rewrite orb_false_r. apply orb_comm.
Qed.

Lemma trimEnd_append (c : ascii) (a b : string) :
  JsString.is_white c = false ->
  JsString.trimEnd (String.append a (String c b))
  = String.append a (String c (JsString.trimEnd b)).
Proof.
  intros Hc. unfold JsString.trimEnd.
  rewrite reverse_append, reverse_cons, string_append_assoc,
    string_append_cons, string_append_nil.
  rewrite trimStart_append by exact Hc.
  rewrite reverse_append, reverse_cons, reverse_reverse,
    string_append_assoc, string_append_cons, string_append_nil.
  reflexivity.
Qed.

Lemma includes_trimEnd (c : ascii) (s : string) :
  JsString.includes s c = false ->
  JsString.includes (JsString.trimEnd s) c = false.
Proof.
  intros H. unfold JsString.trimEnd.
  rewrite includes_reverse. apply includes_trimStart.
  rewrite includes_reverse. exact H.
Qed.

(** The lines [parseCSV] reads after the first, for a text of lines
    that hold no line feed, the last of which ends in a comma and a
    last field. *)
Lemma lines_of_text (first : ascii) (header : string) (lines : list string)
    (before last : string) :
  JsString.is_white first = false ->
  let no_newline s := JsString.includes s newline = false in
  no_newline (String first header) -> Forall no_newline lines ->
  no_newline before -> no_newline last ->
  tail (JsString.split newline
          (JsString.trim
             (JsString.join (String newline EmptyString)
                ((String first header :: lines)
                 ++ [String.append before (String comma last)]))))
  = lines ++ [String.append before (String comma (JsString.trimEnd last))].
Proof.
  intros Hfirst no_newline Hheader Hlines Hbefore Hlast.
  rewrite join_snoc. unfold JsString.trim.
  assert (Hstart : forall rest,
             JsString.trimStart
               (String.append
                  (JsString.join (String newline EmptyString)
                     (String first header :: lines)) rest)
             = String.append
                 (JsString.join (String newline EmptyString)
                    (String first header :: lines)) rest).
  { intros rest. destruct lines as [|l lines].
    - cbn [JsString.join]. rewrite string_append_cons.
      cbn [JsString.trimStart]. rewrite Hfirst. reflexivity.
    - rewrite join_cons, !string_append_cons.
      cbn [JsString.trimStart]. rewrite Hfirst. reflexivity. }
  rewrite Hstart.
  rewrite <- !string_append_assoc.
  rewrite trimEnd_append by reflexivity.
  rewrite !string_append_assoc.
  rewrite <- join_snoc.
  change ((String first header :: lines)
          ++ [String.append before (String comma (JsString.trimEnd last))])
    with (String first header
          :: lines
             ++ [String.append before
                   (String comma (JsString.trimEnd last))]).
  rewrite split_join; [reflexivity|].
  constructor; [exact Hheader|]. apply Forall_app. split; [exact Hlines|].
  constructor; [|constructor]. unfold no_newline.
  rewrite includes_append, Hbefore. cbn [JsString.includes orb].
  replace (Ascii.eqb comma newline) with false by reflexivity.
  cbn [orb]. apply includes_trimEnd. exact Hlast.
Qed.

Lemma escape_plain (field : CsvValue) :
  plain_text (String_of field) -> escapeCSVField field = String_of field.
Proof.
  intros (H1 & H2 & H3). unfold escapeCSVField.
  destruct field; [reflexivity| |]; rewrite H1, H2, H3; reflexivity.
Qed.

(** What [parseCSV] makes of a line of nine fields without commas. *)
Lemma parse_fields (p0 p1 p2 p3 p4 p5 p6 p7 p8 : string) :
  Forall (fun s => JsString.includes s comma = false)
    [p0; p1; p2; p3; p4; p5; p6; p7; p8] ->
  parse_line (JsString.join "," [p0; p1; p2; p3; p4; p5; p6; p7; p8])
  = if negb (String.eqb (JsString.trim p0) "")
       && negb (String.eqb (JsString.trim p2) "")
    then Some {| bulk_date := JsString.trim p0;
                 bulk_type :=
                   if String.eqb (JsString.trim p1) "income" then income
                   else expense;
                 bulk_amount := JsString.trim p2;
                 bulk_category := JsString.trim p3;
                 bulk_description := JsString.trim p4;
                 bulk_mood := JsString.trim p5 |}
    else None.
Proof.
  intros H. unfold parse_line.
  change "," with (String comma EmptyString).
  rewrite split_join by exact H. reflexivity.
Qed.

Lemma escape_plain_row (row : list CsvValue) :
  Forall plain_text (map String_of row) ->
  map escapeCSVField row = map String_of row.
Proof.
  induction row as [|field row IH]; [reflexivity|].
  cbn [map]. intros H.
  rewrite (escape_plain field (Forall_inv H)), (IH (Forall_inv_tail H)).
  reflexivity.
Qed.

(** The line written for a transaction: what stands before its last
    field, and what [parseCSV] makes of it whatever the last field. *)
Lemma exported_line (categories : list Category) (currency : string)
    (t : Transaction) :
  Forall plain_text (exported_fields categories currency t) ->
  exists before,
    JsString.join "," (map escapeCSVField (row_of categories currency t))
    = String.append before (String comma (or_empty (notes t)))
    /\ JsString.includes before newline = false
    /\ plain_text (or_empty (notes t))
    /\ forall last, JsString.includes last comma = false ->
         parse_line (String.append before (String comma last))
         = reimported categories currency t.
Proof.
  intros H. rewrite (escape_plain_row _ H).
  unfold exported_fields, row_of in H. unfold row_of.
  cbn [map String_of] in H |- *.
  set (fields := [date t; type_text (type t); Number_toString (amount t);
                  currency; categoryName categories t;
                  or_empty (description t);
                  from_option mood_text "" (mood t);
                  JsString.join ";" (tags t)]) in *.
  change (Forall plain_text (fields ++ [or_empty (notes t)])) in H.
  apply Forall_app in H as [Hfields Hnotes]. apply Forall_inv in Hnotes.
  exists (JsString.join "," fields).
  assert (Hjoin : forall last,
             String.append (JsString.join "," fields) (String comma last)
             = JsString.join "," (fields ++ [last])).
  { intros last. unfold fields. rewrite join_snoc. reflexivity. }
  split; [rewrite Hjoin; reflexivity|].
  split.
  { apply (includes_join newline comma); [reflexivity|].
    apply (Forall_impl _ _ _ Hfields). intros s Hs. apply Hs. }
  split; [exact Hnotes|].
  intros last Hlast. rewrite Hjoin. unfold fields at 1. cbn [Datatypes.app].
  rewrite parse_fields.
  - unfold reimported. destruct (type t); reflexivity.
  - change (Forall (fun s => JsString.includes s comma = false)
              (fields ++ [last])).
    apply Forall_app. split.
    + apply (Forall_impl _ _ _ Hfields). intros s Hs. apply Hs.
    + constructor; [exact Hlast|constructor].
Qed.

Lemma parseCSV_of_export (transactions : list Transaction)
    (categories : list Category) (currency : string) :
  Forall (fun t => Forall plain_text (exported_fields categories currency t))
    transactions ->
  parseCSV (exportTransactionsAsCSV transactions categories currency)
  = omap (reimported categories currency) transactions.
Proof.
  intros Hplain. unfold parseCSV, exportTransactionsAsCSV.
  set (line := fun row => JsString.join "," (map escapeCSVField row)).
  assert (Hline : forall t,
             Forall plain_text (exported_fields categories currency t) ->
             JsString.includes (line (row_of categories currency t)) newline
             = false
             /\ parse_line (line (row_of categories currency t))
                = reimported categories currency t).
  { intros t Ht.
    destruct (exported_line categories currency t Ht)
      as (before & E & Hbefore & Hnotes & Hparse).
    unfold line. rewrite E. split.
    - rewrite includes_append, Hbefore. cbn [JsString.includes orb].
      replace (Ascii.eqb comma newline) with false by reflexivity.
      apply Hnotes.
    - apply Hparse, Hnotes. }
  destruct transactions as [|t0 rest _] using rev_ind; [reflexivity|].
  apply Forall_app in Hplain as [Hrest Hlast].
  apply Forall_inv in Hlast.
  destruct (exported_line categories currency t0 Hlast)
    as (before & E & Hbefore & Hnotes & Hparse).
  rewrite !map_app. cbn [map]. fold (line (row_of categories currency t0)).
  rewrite map_map.
  change (line (row_of categories currency t0))
    with (JsString.join "," (map escapeCSVField (row_of categories currency t0))).
  rewrite E.
  change (JsString.join "," (map (fun h => escapeCSVField (CsvText h)) headers))
    with (String "D"
            "ate,Type,Amount,Currency,Category,Description,Mood,Tags,Notes").
  rewrite app_comm_cons.
  rewrite lines_of_text.
  - rewrite !omap_app. f_equal.
    + clear -Hrest Hline. induction Hrest as [|t rest Ht Hrest IH];
        [reflexivity|].
      cbn [map omap list_omap]. rewrite (proj2 (Hline t Ht)), IH.
      reflexivity.
    + cbn [omap list_omap]. rewrite Hparse; [reflexivity|].
      apply includes_trimEnd, Hnotes.
  - reflexivity.
  - reflexivity.
  - clear -Hrest Hline. induction Hrest as [|t rest Ht Hrest IH];
      [constructor|].
    cbn [map]. constructor; [apply (Hline t Ht)|exact IH].
  - exact Hbefore.
  - apply Hnotes.
Qed.

(** A file written by [exportTransactionsAsCSV] in which no field
    needed quotes, read by [parseCSV]: the columns of the export are
    taken under the names of the import, so that the category of each
    row is the currency code, its description the name of the category
    and its mood the description. *)
Theorem exported_file_is_read_shifted (transactions : list Transaction)
    (categories : list Category) (currency : string) :
  Forall (fun t => Forall plain_text (exported_fields categories currency t))
    transactions ->
  parseCSV (exportTransactionsAsCSV transactions categories currency)
  = omap (reimported categories currency) transactions.
Proof. apply parseCSV_of_export. Qed.

End ReimportFacts.

Section ReimportRuns.

Context `{WP : WebPlatform} `{JS : Json SensitiveFields} `{TP : TextPlatform}
  `{NT : NumberText}.

Lemma find_category_none (categories : list Category) (name : string) :
  Forall (fun c => String_toLowerCase (cat_name c) <> String_toLowerCase name)
    categories ->
  find_category categories name = None.
Proof.
  unfold find_category. induction 1 as [|c rest Hc Hrest IH]; [reflexivity|].
  cbn [find]. apply String.eqb_neq in Hc. rewrite Hc. exact IH.
Qed.

Lemma import_rows_skips (rows : list BulkTransactionRow)
    (categories : list Category) (encryptionKey : option CryptoKey)
    (created : nat) (w : World) :
  Forall (fun row => accepted_row categories row = None) rows ->
  import_rows rows categories encryptionKey created w = (Normal created, w).
Proof.
  induction 1 as [|row rest Hrow Hrest IH]; [reflexivity|].
  cbn [import_rows]. rewrite Hrow. exact IH.
Qed.

(** Importing an exported file.  When no category of the store is named
    like the currency code, [handleSubmit] on the rows [parseCSV] reads
    from a file written by [exportTransactionsAsCSV] (no field of which
    needed quotes) creates nothing: no request is sent, the store is
    not changed, and the dialog shows an error and the count 0. *)
Theorem exported_file_is_not_imported (d : BulkDialog) (w : World)
    (transactions : list Transaction) (categories : list Category)
    (currency : string) :
  Forall (fun t => Forall plain_text (exported_fields categories currency t))
    transactions ->
  Forall (fun c => String_toLowerCase (cat_name c)
                   <> String_toLowerCase (JsString.trim currency))
    (Store.categories (app w)) ->
  bulk_rows d
  = parseCSV (CsvExport.exportTransactionsAsCSV transactions categories
                currency) ->
  let run := handleSubmit d w in
  run.2 = w
  /\ exists page,
       run.1 = Normal page
       /\ successCount page = 0%nat
       /\ (bulk_error page = "No valid transactions were created"
           \/ bulk_error page
              = "Encryption key not loaded. Please unlock your encryption first.").
Proof.
  intros Hplain Hnames Hrows. cbv zeta. unfold handleSubmit.
  destruct (_ && _).
  - cbn [fst snd]. split; [reflexivity|]. eexists.
    split; [reflexivity|]. split; [reflexivity|]. right. reflexivity.
  - rewrite import_rows_skips.
    + cbn. split; [reflexivity|]. eexists.
      split; [reflexivity|]. split; [reflexivity|]. left. reflexivity.
    + rewrite Hrows, (parseCSV_of_export _ _ _ Hplain).
      apply Forall_forall. intros row Hrow.
      apply list_elem_of_omap in Hrow as (t & _ & Ht).
      unfold reimported in Ht. destruct (_ && _); [|discriminate].
      injection Ht as <-. unfold accepted_row. cbn [bulk_category bulk_amount].
      rewrite (find_category_none _ _ Hnames).
      destruct (_ || _); [reflexivity|]. destruct (String.eqb _ ""); reflexivity.
Qed.

End ReimportRuns.

Section KeyedRuns.

Import Sample.

(** The fetch of [created_transaction_is_fetched] at the sample world:
    the lunch of 42.5 created under the key comes back under it. *)
Lemma created_transaction_is_fetched_sample :
  let w1 := (createTransaction lunch_transaction (Some secret) world).2 in
  exists rows row,
    (fetchTransactions (Some secret) w1).1 = Normal rows
    /\ row ∈ rows
    /\ row_amount row = Some 42.5%float
    /\ row_description row = Some "lunch".
Proof.
  cbv zeta.
  destruct (createTransaction lunch_transaction (Some secret) world)
    as [[created|e] w1] eqn:Hcreate; [|vm_compute in Hcreate; discriminate].
  assert (Hreads : reads_back secret (rng world)
                     (sensitive_of lunch_transaction)).
  { split; [reflexivity|]. split; [vm_compute; discriminate|reflexivity]. }
  destruct (created_transaction_is_fetched lunch_transaction secret world
              w1 created [] Hcreate Hreads eq_refl eq_refl)
    as (rows & row & H1 & H2 & _ & H3 & H4 & _).
  exists rows, row. cbn [snd]. auto.
Defined.


(** The fetch under the key in the sample world whose row carries an
    envelope writes nothing. *)
Lemma fetch_under_key_sample :
  remote (fetchTransactions (Some secret) converting_world).2
  = remote converting_world.
Proof.
  exact (proj1 (proj2 (proj2 (proj2
           (fetch_under_key_is_all_or_nothing secret converting_world
              eq_refl))))).
Defined.

(** Clearing the description under the key sends the empty description
    in clear. *)
Lemma falsy_update_goes_clear_sample :
  sent (updateTransaction "id-0" empty_description (Some secret)
          converting_world).2
  = sent converting_world
    ++ [UpdateTransaction "id-0" (clear_update empty_description) true]
  /\ set_description (clear_update empty_description) = Some "".
Proof.
  pose proof (falsy_update_goes_clear "id-0" empty_description secret
                converting_world eq_refl) as H.
  exact (conj (proj1 (proj2 H)) (proj1 (proj2 (proj2 (proj2 H))))).
Defined.

(** Setting the amount to 99 under the key: the row returned and stored
    keeps its clear columns empty, and reads back as 99 with the old
    description. *)
Lemma update_under_key_merges_sample :
  exists row w',
    updateTransaction "id-0" new_amount_99 (Some secret) converting_world
    = (Normal row, w')
    /\ row_amount row = None
    /\ exists read, read_row secret row = Normal read
                    /\ row_amount read = Some 99%float
                    /\ row_description read = Some "lunch".
Proof.
  assert (Hreads : reads_back secret (rng converting_world)
                     (merged_fields lunch new_amount_99)).
  { split; [vm_compute; reflexivity|].
    split; [vm_compute; discriminate|vm_compute; reflexivity]. }
  assert (Hrow : transactions_table (remote converting_world) !! "id-0"
                 = Some stored_lunch) by (vm_compute; reflexivity).
  assert (Hold : decrypt (default "" (row_encrypted_data stored_lunch))
                   (default "" (row_iv stored_lunch)) secret = Normal lunch)
    by (vm_compute; reflexivity).
  destruct (update_under_key_merges "id-0" new_amount_99 secret
              converting_world stored_lunch lunch (fun _ => eq_refl)
              Hrow eq_refl eq_refl Hold eq_refl Hreads)
    as (row & w' & H1 & _ & H2 & _ & _ & H3 & _).
  exists row, w'. split; [exact H1|]. split; [exact H2|].
  eexists. split; [exact H3|]. split; reflexivity.
Defined.

(** An update of an id the sample table does not hold. *)
Lemma update_of_missing_row_throws_sample :
  (updateTransaction "id-7" new_amount_99 (Some secret) converting_world).1
  = Throw (PostgrestError
             "JSON object requested, multiple (or no) rows returned").
Proof.
  exact (proj1 (update_of_missing_row_throws "id-7" new_amount_99
                  (Some secret) converting_world (fun _ => eq_refl)
                  eq_refl)).
Defined.


(** Two purchases created under the key as a batch and one by one. *)
Lemma batch_is_sequence_of_creates_sample :
  (all (fun t => createTransaction t (Some secret)) two_purchases world).1
  = (batchCreateTransactions two_purchases (Some secret) site).1
  /\ remote
       (all (fun t => createTransaction t (Some secret)) two_purchases
          world).2
     = remote
         (site_world
            (batchCreateTransactions two_purchases (Some secret) site).2).
Proof.
  destruct (batchCreateTransactions two_purchases (Some secret) site)
    as [[rows|e] s'] eqn:Hbatch; [|vm_compute in Hbatch; discriminate].
  destruct (batch_is_sequence_of_creates two_purchases (Some secret) site
              s' rows (fun _ => eq_refl) Hbatch) as (w' & Hall & Hr & _).
  change (site_world site) with world in Hall.
  rewrite Hall. cbn [fst snd]. split; [reflexivity|exact Hr].
Defined.

(** The lunch created under the key and deleted again. *)
Lemma delete_after_create_sample :
  let s1 := (services (createTransaction lunch_transaction (Some secret))
               site).2 in
  transactions_table (remote (site_world (deleteTransaction "id-0" s1).2))
  = ∅.
Proof.
  cbv zeta.
  destruct (services (createTransaction lunch_transaction (Some secret))
              site) as [[created|e] s1] eqn:Hcreate;
    [|vm_compute in Hcreate; discriminate].
  assert (Hid : row_id created = "id-0")
    by (vm_compute in Hcreate; injection Hcreate as <- _; reflexivity).
  pose proof (delete_after_create lunch_transaction (Some secret) site s1
                created Hcreate eq_refl) as H.
  cbv zeta in H. rewrite Hid in H. exact (proj2 H).
Defined.


(** The rewrite in the empty sample world. *)
Lemma rewrite_of_empty_store_sample :
  updateTransactionsCurrencyInDB "USD" "EUR" 2 world = (Normal tt, world).
Proof.
  exact (proj1 (rewrite_of_empty_store_does_nothing "USD" "EUR" 2 world
                  pending_EUR "EUR" eq_refl eq_refl)).
Defined.


(** The import dialog in the locked sample world. *)
Lemma bulk_import_refuses_when_locked_sample :
  locked (app locked_world)
  /\ (handleSubmit (bulk_dialog typed_rows) locked_world).2 = locked_world.
Proof.
  assert (H : locked (app locked_world))
    by (split; [eexists; split; reflexivity|reflexivity]).
  split; [exact H|].
  exact (proj1 (bulk_import_refuses_when_locked (bulk_dialog typed_rows)
                  locked_world H)).
Defined.

(** The two typed rows imported in the sample store: the first is
    created, the second is skipped. *)
Lemma bulk_import_outcome_sample :
  exists page,
    (handleSubmit (bulk_dialog typed_rows) shop_world).1 = Normal page
    /\ imported 1 shop_world
         (handleSubmit (bulk_dialog typed_rows) shop_world).2
    /\ successCount page = 1%nat.
Proof.
  assert (H : ~ locked (app shop_world))
    by (intros [(config & Hconfig & _) _]; vm_compute in Hconfig;
        discriminate).
  pose proof (bulk_import_outcome (bulk_dialog typed_rows) shop_world H)
    as Hrun.
  cbv zeta in Hrun.
  destruct Hrun as (page & n & Hpage & Himported & _ & Hcases).
  assert (Haccepted :
            length (omap (accepted_row (Store.categories (app shop_world)))
                      (bulk_rows (bulk_dialog typed_rows))) = 1%nat)
    by (vm_compute; reflexivity).
  rewrite Haccepted in Hcases.
  assert (Hlength :
            length (Store.transactions
                      (app (handleSubmit (bulk_dialog typed_rows)
                              shop_world).2)) = 1%nat)
    by (vm_compute; reflexivity).
  destruct Hcases as [(Hn & Hcount & _)|(Hn & _)].
  - subst n. exists page. split; [exact Hpage|].
    split; [exact Himported|exact Hcount].
  - exfalso. destruct Himported as [Hstore _].
    rewrite Hlength in Hstore.
    change (length (Store.transactions (app shop_world))) with 0%nat
      in Hstore.
    lia.
Defined.

(** The lunch exported with the currency USD and read by the import. *)
Lemma exported_file_is_read_shifted_sample :
  parseCSV (CsvExport.exportTransactionsAsCSV [lunch_in_store] [food] "USD")
  = [{| bulk_date := "2026-01-01"; bulk_type := expense;
        bulk_amount := "42.5"; bulk_category := "USD";
        bulk_description := "Food"; bulk_mood := "lunch" |}].
Proof.
  assert (H : Forall (fun t => Forall plain_text
                                 (exported_fields [food] "USD" t))
                [lunch_in_store])
    by (repeat first [vm_compute; reflexivity | constructor]).
  rewrite (exported_file_is_read_shifted [lunch_in_store] [food] "USD" H).
  vm_compute. reflexivity.
Defined.

(** That file imported in the sample store, which has no category named
    USD. *)
Lemma exported_file_is_not_imported_sample :
  (handleSubmit
     (bulk_dialog
        (parseCSV
           (CsvExport.exportTransactionsAsCSV [lunch_in_store] [food]
              "USD")))
     shop_world).2
  = shop_world.
Proof.
  assert (H : Forall (fun t => Forall plain_text
                                 (exported_fields [food] "USD" t))
                [lunch_in_store])
    by (repeat first [vm_compute; reflexivity | constructor]).
  assert (Hnames : Forall (fun c => String_toLowerCase (cat_name c)
                                    <> String_toLowerCase
                                         (JsString.trim "USD"))
                     (Store.categories (app shop_world)))
    by (repeat constructor; vm_compute; discriminate).
  assert (Hrows : bulk_rows
                    (bulk_dialog
                       (parseCSV
                          (CsvExport.exportTransactionsAsCSV
                             [lunch_in_store] [food] "USD")))
                  = parseCSV
                      (CsvExport.exportTransactionsAsCSV [lunch_in_store]
                         [food] "USD"))
    by reflexivity.
  pose proof (exported_file_is_not_imported _ shop_world [lunch_in_store]
                [food] "USD" H Hnames Hrows) as Hrun.
  cbv zeta in Hrun. exact (proj1 Hrun).
Defined.

End KeyedRuns.
